(** * Blackjack round controller: scoring, payout and the round state machine

    A shallow embedding of [src/debug.tsx]: the hand evaluator
    [calculateHandValue], the payout [calculatePayout], the outcome rule of
    [runDealerTurn], the handlers and effects of the [GamePage] component
    and the picture component [Card].

    Conventions.
    - JavaScript numbers that hold chips, bets, scores and indices are
      integers far below 2^53; they are modelled by [Z] (counters by [nat]).
    - JavaScript strings are byte strings in UTF-8.  Ranks are ASCII; the
      four suit symbols are characters of the Basic Multilingual Plane, so
      the last UTF-16 unit of a deck string is its last UTF-8 character.
    - [null] is [None].
    - React: each synchronous piece of a handler (up to its next [await]),
      each timer callback and each continuation after an [await] is one
      render; its state updates land together and the effects run right
      after it.  A handler reads the state of the render in which it was
      created, so what it captured travels with its continuation.
    - Timers fire in the order of their due times, and in the order they
      were started when due together; a piece of code takes no time. *)

From Stdlib Require Import ZArith List String Ascii Bool Lia Permutation.
Import ListNotations.

Local Open Scope string_scope.
Local Open Scope list_scope.
Local Open Scope Z_scope.

(** ** Data model *)

(** [type UICard = { rank; suit; isFaceDown }]. *)
Record UICard : Type := mkCard {
  rank : string;
  suit : string;
  isFaceDown : bool
}.

(** [type Stage]. *)
Inductive Stage : Type := READY | DEALING | PLAYER_TURN | DEALER_TURN | RESULT.

Inductive Outcome : Type := WIN | LOSE | PUSH.

(** [type GameResult = { outcome; reason? } | null]; the component always
    supplies a reason. *)
Record GameResult : Type := mkResult {
  outcome : Outcome;
  reason : string
}.

Inductive Status : Type := NEW | BET.

(** The [game] object of the store, as the component builds it:
    [{ id, status, player: { chips, cards, bet }, dealer: { chips, cards } }]. *)
Record PlayerSeat : Type := mkPlayer {
  chips : Z;
  cards : list string;
  bet : Z
}.

Record DealerSeat : Type := mkDealer {
  dealerChips : Z;
  dealerHand : list string
}.

Record Game : Type := mkGame {
  id : Z;
  status : Status;
  player : PlayerSeat;
  dealer : DealerSeat
}.

Definition Stage_eqb (a b : Stage) : bool :=
  match a, b with
  | READY, READY | DEALING, DEALING | PLAYER_TURN, PLAYER_TURN
  | DEALER_TURN, DEALER_TURN | RESULT, RESULT => true
  | _, _ => false
  end.

(** ** Decimal literals

    [decimal s] is the value of a non-empty string of ASCII digits; it is the
    part of JavaScript's [Number(string)] that card ranks exercise. *)

Definition digitValue (c : ascii) : option Z :=
  let n := Z.of_N (N_of_ascii c) in
  if (48 <=? n) && (n <=? 57) then Some (n - 48) else None.

Fixpoint decimalFrom (acc : Z) (s : string) : option Z :=
  match s with
  | EmptyString => Some acc
  | String c r =>
      match digitValue c with
      | Some d => decimalFrom (10 * acc + d) r
      | None => None
      end
  end.

Definition decimal (s : string) : option Z :=
  match s with
  | EmptyString => None
  | _ => decimalFrom 0 s
  end.

(** JavaScript's [Number], restricted to the strings on which it is an
    integer; the development is parametric in it.  On a decimal literal
    below 2^53 it is the literal's value. *)
Class NumberModel : Type := {
  Number : string -> Z;
  Number_decimal :
    forall s z, decimal s = Some z -> z < 2 ^ 53 -> Number s = z
}.

(** The instance used for concrete hands: the decimal value of a literal.
    Strings that are not decimal literals are outside the model (JavaScript
    answers NaN or a non-integer there); no hand used below contains one. *)
Definition decimalNumber (s : string) : Z :=
  match decimal s with
  | Some z => z
  | None => 0
  end.

#[export] Instance decimalModel : NumberModel.
Proof.
  refine {| Number := decimalNumber |}.
  intros s z H _. unfold decimalNumber. now rewrite H.
Defined.

(** The thirteen ranks of the data model. *)
Definition numericRanks : list string :=
  ["2"; "3"; "4"; "5"; "6"; "7"; "8"; "9"; "10"].

Definition faceRanks : list string := ["K"; "Q"; "J"].

Definition cardRanks : list string := "A" :: faceRanks ++ numericRanks.

Definition isCardRank (r : string) : bool := existsb (String.eqb r) cardRanks.

(** [calculatePayout(game, result)].  The guard returns a missing game as it
    is; [game.player] and a numeric [chips] are guaranteed by the record
    type, and [bet ?? 0] is [bet] for a numeric bet. *)
Definition calculatePayout (game : option Game) (result : GameResult)
  : option Game :=
  match game with
  | None => None
  | Some g =>
      let bet := bet (player g) in
      let chips := chips (player g) in
      let chips :=
        match outcome result with
        | WIN => chips + bet
        | LOSE => chips - bet
        | PUSH => chips
        end in
      Some (mkGame (id g) (status g)
              (mkPlayer chips (cards (player g)) (bet))
              (dealer g))
  end.

(** The outcome rule at the end of [runDealerTurn] (step 3). *)
Definition decideOutcome (playerValue dealerValue : Z) : GameResult :=
  if (dealerValue >? 21) && (playerValue <=? 21) then
    mkResult WIN "莊家爆牌"
  else if (playerValue >? 21) && (dealerValue <=? 21) then
    mkResult LOSE "玩家爆牌"
  else if playerValue =? dealerValue then
    mkResult PUSH "平手"
  else if playerValue >? dealerValue then
    mkResult WIN "點數較高"
  else
    mkResult LOSE "點數較低".

(** ** The component's state

    The [useState] cells of [GamePage], the [game] cell of the store and the
    two draw-index refs. *)

(** Modelled from the spec: the store behind [useGameStore] is not among the
    sources; it is taken to be a cell that holds the current game, [null]
    until the first [setGame], and that [setGame] replaces. *)
Record State : Type := mkState {
  showChips : bool;
  selectedBet : option Z;
  isBetting : bool;
  isBlackjack : bool;
  playerCards : list UICard;
  dealerCards : list UICard;
  playerScore : option Z;
  dealerScore : option Z;
  stage : Stage;
  result : option GameResult;
  isPlayerActing : bool;
  isDealerActing : bool;
  game : option Game;
  playerDrawIndexRef : nat;
  dealerDrawIndexRef : nat
}.

Definition setShowChips (v : bool) (s : State) : State :=
  mkState v (selectedBet s) (isBetting s) (isBlackjack s) (playerCards s) (dealerCards s) (playerScore s) (dealerScore s) (stage s) (result s) (isPlayerActing s) (isDealerActing s) (game s) (playerDrawIndexRef s) (dealerDrawIndexRef s).

Definition setSelectedBet (v : option Z) (s : State) : State :=
  mkState (showChips s) v (isBetting s) (isBlackjack s) (playerCards s) (dealerCards s) (playerScore s) (dealerScore s) (stage s) (result s) (isPlayerActing s) (isDealerActing s) (game s) (playerDrawIndexRef s) (dealerDrawIndexRef s).

Definition setIsBetting (v : bool) (s : State) : State :=
  mkState (showChips s) (selectedBet s) v (isBlackjack s) (playerCards s) (dealerCards s) (playerScore s) (dealerScore s) (stage s) (result s) (isPlayerActing s) (isDealerActing s) (game s) (playerDrawIndexRef s) (dealerDrawIndexRef s).

Definition setIsBlackjack (v : bool) (s : State) : State :=
  mkState (showChips s) (selectedBet s) (isBetting s) v (playerCards s) (dealerCards s) (playerScore s) (dealerScore s) (stage s) (result s) (isPlayerActing s) (isDealerActing s) (game s) (playerDrawIndexRef s) (dealerDrawIndexRef s).

Definition setPlayerCards (v : list UICard) (s : State) : State :=
  mkState (showChips s) (selectedBet s) (isBetting s) (isBlackjack s) v (dealerCards s) (playerScore s) (dealerScore s) (stage s) (result s) (isPlayerActing s) (isDealerActing s) (game s) (playerDrawIndexRef s) (dealerDrawIndexRef s).

Definition setDealerCards (v : list UICard) (s : State) : State :=
  mkState (showChips s) (selectedBet s) (isBetting s) (isBlackjack s) (playerCards s) v (playerScore s) (dealerScore s) (stage s) (result s) (isPlayerActing s) (isDealerActing s) (game s) (playerDrawIndexRef s) (dealerDrawIndexRef s).

Definition setPlayerScore (v : option Z) (s : State) : State :=
  mkState (showChips s) (selectedBet s) (isBetting s) (isBlackjack s) (playerCards s) (dealerCards s) v (dealerScore s) (stage s) (result s) (isPlayerActing s) (isDealerActing s) (game s) (playerDrawIndexRef s) (dealerDrawIndexRef s).

Definition setDealerScore (v : option Z) (s : State) : State :=
  mkState (showChips s) (selectedBet s) (isBetting s) (isBlackjack s) (playerCards s) (dealerCards s) (playerScore s) v (stage s) (result s) (isPlayerActing s) (isDealerActing s) (game s) (playerDrawIndexRef s) (dealerDrawIndexRef s).

Definition setStage (v : Stage) (s : State) : State :=
  mkState (showChips s) (selectedBet s) (isBetting s) (isBlackjack s) (playerCards s) (dealerCards s) (playerScore s) (dealerScore s) v (result s) (isPlayerActing s) (isDealerActing s) (game s) (playerDrawIndexRef s) (dealerDrawIndexRef s).

Definition setResult (v : option GameResult) (s : State) : State :=
  mkState (showChips s) (selectedBet s) (isBetting s) (isBlackjack s) (playerCards s) (dealerCards s) (playerScore s) (dealerScore s) (stage s) v (isPlayerActing s) (isDealerActing s) (game s) (playerDrawIndexRef s) (dealerDrawIndexRef s).

Definition setIsPlayerActing (v : bool) (s : State) : State :=
  mkState (showChips s) (selectedBet s) (isBetting s) (isBlackjack s) (playerCards s) (dealerCards s) (playerScore s) (dealerScore s) (stage s) (result s) v (isDealerActing s) (game s) (playerDrawIndexRef s) (dealerDrawIndexRef s).

Definition setIsDealerActing (v : bool) (s : State) : State :=
  mkState (showChips s) (selectedBet s) (isBetting s) (isBlackjack s) (playerCards s) (dealerCards s) (playerScore s) (dealerScore s) (stage s) (result s) (isPlayerActing s) v (game s) (playerDrawIndexRef s) (dealerDrawIndexRef s).

Definition setGame (v : option Game) (s : State) : State :=
  mkState (showChips s) (selectedBet s) (isBetting s) (isBlackjack s) (playerCards s) (dealerCards s) (playerScore s) (dealerScore s) (stage s) (result s) (isPlayerActing s) (isDealerActing s) v (playerDrawIndexRef s) (dealerDrawIndexRef s).

Definition setPlayerDrawIndexRef (v : nat) (s : State) : State :=
  mkState (showChips s) (selectedBet s) (isBetting s) (isBlackjack s) (playerCards s) (dealerCards s) (playerScore s) (dealerScore s) (stage s) (result s) (isPlayerActing s) (isDealerActing s) (game s) v (dealerDrawIndexRef s).

Definition setDealerDrawIndexRef (v : nat) (s : State) : State :=
  mkState (showChips s) (selectedBet s) (isBetting s) (isBlackjack s) (playerCards s) (dealerCards s) (playerScore s) (dealerScore s) (stage s) (result s) (isPlayerActing s) (isDealerActing s) (game s) (playerDrawIndexRef s) v.

Section Round.

Context {NM : NumberModel}.

(** One iteration of [for (const rank of ranks)]: the pair is
    [(total, aces)]. *)
Definition countRank (acc : Z * nat) (rank : string) : Z * nat :=
  let '(total, aces) := acc in
  if (rank =? "A")%string then (total, S aces)
  else if existsb (String.eqb rank) faceRanks then (total + 10, aces)
  else (total + Number rank, aces).

(** [while (aces > 0) { ... aces-- }]. *)
Fixpoint resolveAces (aces : nat) (total : Z) : Z :=
  match aces with
  | O => total
  | S rest =>
      if total + 11 + Z.of_nat rest <=? 21
      then resolveAces rest (total + 11)
      else resolveAces rest (total + 1)
  end.

Definition revealed (cards : list UICard) : list UICard :=
  filter (fun c => negb (isFaceDown c)) cards.

(** [calculateHandValue(cards)]. *)
Definition calculateHandValue (cards : list UICard) : option Z :=
  let ranks := map rank (revealed cards) in
  if (List.length ranks =? 0)%nat then None
  else
    let '(total, aces) := fold_left countRank ranks (0, O) in
    Some (resolveAces aces total).

(** *** The evaluator of the specification

    Written from the specification's words: sum the non-aces (face value,
    10 for J/Q/K), count the aces, then give each ace in turn 11 if the
    total, with the aces still to come presumed at 11, stays within 21, and
    1 otherwise. *)

Definition specPoints (r : string) : Z :=
  if existsb (String.eqb r) ["J"; "Q"; "K"] then 10 else decimalNumber r.

Definition isAce (r : string) : bool := (r =? "A")%string.

Definition sumNonAces (pts : string -> Z) (ranks : list string) : Z :=
  fold_right (fun r acc => if isAce r then acc else pts r + acc) 0 ranks.

Definition countAces (ranks : list string) : nat :=
  List.length (filter isAce ranks).



(** Points the code gives a rank that is not an ace. *)
Definition rankPoints (r : string) : Z :=
  if existsb (String.eqb r) faceRanks then 10 else Number r.

(** ** Cards and the mock decks *)

(** A byte [10xxxxxx] continues a UTF-8 character. *)
Definition isContinuation (c : ascii) : bool :=
  let n := N_of_ascii c in ((128 <=? n) && (n <? 192))%N.

Fixpoint allContinuation (s : string) : bool :=
  match s with
  | EmptyString => true
  | String c r => isContinuation c && allContinuation r
  end.

(** [(card.slice(0, -1), card.slice(-1))]: the string without its last
    character, and that character. *)
Fixpoint splitLast (s : string) : string * string :=
  match s with
  | EmptyString => (EmptyString, EmptyString)
  | String c r =>
      if allContinuation r then (EmptyString, s)
      else let '(front, last) := splitLast r in (String c front, last)
  end.

Definition folderMap (suitSymbol : string) : string :=
  if (suitSymbol =? "♠")%string then "spades"
  else if (suitSymbol =? "♥")%string then "hearts"
  else if (suitSymbol =? "♦")%string then "diamonds"
  else if (suitSymbol =? "♣")%string then "clubs"
  else "undefined".

Definition fileMap (suitSymbol : string) : string :=
  if (suitSymbol =? "♠")%string then "spade"
  else if (suitSymbol =? "♥")%string then "heart"
  else if (suitSymbol =? "♦")%string then "diamond"
  else if (suitSymbol =? "♣")%string then "club"
  else "undefined".

(** [parseCard(card)], with the visibility flag the caller adds. *)
Definition parseCard (card : string) (faceDown : bool) : UICard :=
  let '(rank, suitSymbol) := splitLast card in
  mkCard rank (folderMap suitSymbol ++ "/" ++ fileMap suitSymbol)%string faceDown.

Definition mockPlayerDeck : list string :=
  ["5♣"; "9♦"; "2♠"; "3♥"; "7♣"; "4♦"].

Definition mockDealerDeck : list string :=
  ["3♣"; "4♦"; "9♥"; "2♠"; "6♦"].

(** [{ ...c, isFaceDown: false }]. *)
Definition faceUp (c : UICard) : UICard := mkCard (rank c) (suit c) false.

(** [cards.map((c, idx) => idx === cards.length - 1 ? faceUp(c) : c)]. *)
Fixpoint flipAt (len : nat) (idx : nat) (cards : list UICard) : list UICard :=
  match cards with
  | [] => []
  | c :: rest =>
      (if (S idx =? len)%nat then faceUp c else c) :: flipAt len (S idx) rest
  end.

Definition flipLast (cards : list UICard) : list UICard :=
  flipAt (List.length cards) 0 cards.

(** [cards.map((c, idx) => idx === 1 ? faceUp(c) : c)]. *)
Fixpoint flipIndex (target idx : nat) (cards : list UICard) : list UICard :=
  match cards with
  | [] => []
  | c :: rest =>
      (if (idx =? target)%nat then faceUp c else c)
        :: flipIndex target (S idx) rest
  end.

(** [cards.map((c) => (c.isFaceDown ? faceUp(c) : c))]. *)
Definition flipHidden (cards : list UICard) : list UICard :=
  map (fun c => if isFaceDown c then faceUp c else c) cards.

(** The game the component installs when the store is empty. *)
Definition initialGame : Game :=
  mkGame 1 NEW (mkPlayer 10000 [] 0) (mkDealer 999999 []).

(** [{ ...game, player: { ...game.player, bet: b } }]. *)
Definition withBet (b : Z) (g : Game) : Game :=
  mkGame (id g) (status g)
    (mkPlayer (chips (player g)) (cards (player g)) b) (dealer g).

Definition withStatus (st : Status) (g : Game) : Game :=
  mkGame (id g) st (player g) (dealer g).

(** ** Pending continuations

    Every [setTimeout] callback and every continuation after an [await
    delay(ms)] is a task; it carries the variables its closure captured. *)
Inductive Task : Type :=
  | PlayerScoreTimer (cards : list UICard)
  | DealerScoreTimer (cards : list UICard)
  | BlackjackOff
  | BetDeal (amount : Z) (g : Game)
  | DealP1 (card : string)
  | FlipP1
  | DealD1 (card : string)
  | FlipD1
  | DealP2 (card : string)
  | FlipP2
  | DealD2 (card : string)
  | ToPlayerTurn
  | HitFlip
  | HitDone
  | DoubleFlip (localPlayerCards dealerSnapshot : list UICard)
      (gameSnapshot : option Game)
  | DoubleDone (localPlayerCards dealerSnapshot : list UICard)
      (gameSnapshot : option Game)
  | DealerReveal (localDealerCards playerCardsSnapshot : list UICard)
      (gameSnapshot : option Game)
  | DealerFlip (localDealerCards : list UICard) (dealerValue playerValue : Z)
      (gameSnapshot : option Game)
  | DealerNext (localDealerCards : list UICard) (dealerValue playerValue : Z)
      (gameSnapshot : option Game).

(** What one synchronous piece of a handler does: the next state, the
    timers it starts (delay in ms), and whether it called [setPlayerCards]
    or [setDealerCards] (each call installs a new array, which re-runs the
    effects that depend on it). *)
Record Update : Type := mkUpdate {
  next : State;
  spawned : list (N * Task);
  touchedPlayer : bool;
  touchedDealer : bool
}.

(** What a click does: nothing at all (the handler returned before any
    update, so nothing is rendered), an [alert] and nothing else, or an
    update. *)
Inductive Reaction : Type :=
  | Ignored
  | Alerted (message : string)
  | Rendered (u : Update).

Definition isTruthy (n : option Z) : bool :=
  match n with
  | Some v => negb (v =? 0)
  | None => false
  end.

(** [drawNextPlayerCard()]: the card, and the state with the index advanced. *)
Definition drawNextPlayerCard (s : State) : string * State :=
  let idx := (playerDrawIndexRef s mod List.length mockPlayerDeck)%nat in
  (nth idx mockPlayerDeck EmptyString,
   setPlayerDrawIndexRef (S (playerDrawIndexRef s)) s).

Definition drawNextDealerCard (s : State) : string * State :=
  let idx := (dealerDrawIndexRef s mod List.length mockDealerDeck)%nat in
  (nth idx mockDealerDeck EmptyString,
   setDealerDrawIndexRef (S (dealerDrawIndexRef s)) s).

(** The guard shared by [handleHit], [handleDouble] and [handleStand]:
    [stage !== "PLAYER_TURN" || isBetting || isPlayerActing || isDealerActing]. *)
Definition actionBlocked (s : State) : bool :=
  negb (Stage_eqb (stage s) PLAYER_TURN)
  || isBetting s || isPlayerActing s || isDealerActing s.

(** [a ?? b]. *)
Definition orElse (a : option Z) (b : Z) : Z :=
  match a with
  | Some v => v
  | None => b
  end.

(** ** Handlers *)

(** [handleBet(amount)] up to [await delay(650)] (the flying-chip animation
    touches the document only). *)
Definition handleBet (amount : Z) (s : State) : Reaction :=
  match game s with
  | None => Ignored
  | Some g =>
      if isBetting s || isTruthy (selectedBet s) then Ignored
      else
        let s := setIsBetting true s in
        let s := setSelectedBet (Some amount) s in
        let s := setStage DEALING s in
        let s := setResult None s in
        let s := setPlayerDrawIndexRef 0 s in
        let s := setDealerDrawIndexRef 0 s in
        let s := setGame (Some (withStatus BET (withBet amount g))) s in
        Rendered (mkUpdate s [(650%N, BetDeal amount g)] false false)
  end.

(** [handleBet] after the delay: the mocked first deal and its timers. *)
Definition betDeal (amount : Z) (g : Game) (s : State) : Update :=
  let mockResponse :=
    mkGame (id g) BET
      (mkPlayer (chips (player g)) ["A♥"; "K♠"] amount)
      (mkDealer (dealerChips (dealer g)) ["10♦"; "7♣"]) in
  let s := setGame (Some mockResponse) s in
  let s := setPlayerCards [] s in
  let s := setDealerCards [] s in
  let p1 := nth 0 (cards (player mockResponse)) EmptyString in
  let d1 := nth 0 (dealerHand (dealer mockResponse)) EmptyString in
  let p2 := nth 1 (cards (player mockResponse)) EmptyString in
  let d2 := nth 1 (dealerHand (dealer mockResponse)) EmptyString in
  let s := setIsBetting false s in
  mkUpdate s
    [(0%N, DealP1 p1); (900%N, DealD1 d1); (1800%N, DealP2 p2);
     (2700%N, DealD2 d2); (3200%N, ToPlayerTurn)]
    true true.

(** [handleHit()] up to [await delay(450)]. *)
Definition handleHit (s : State) : Reaction :=
  if actionBlocked s then Ignored
  else
    let s := setIsPlayerActing true s in
    let '(newCardStr, s) := drawNextPlayerCard s in
    let s := setPlayerCards (playerCards s ++ [parseCard newCardStr true]) s in
    Rendered (mkUpdate s [(450%N, HitFlip)] true false).

(** [runDealerTurn(playerCardsSnapshot)] up to [await delay(650)];
    [dealerCards] and [game] are the variables of the render in which the
    calling handler was created. *)
Definition runDealerTurn (playerCardsSnapshot dealerCards : list UICard)
    (game : option Game) (s : State) : Update :=
  let s := setStage DEALER_TURN s in
  let s := setIsDealerActing true s in
  let localDealerCards := map faceUp dealerCards in
  let s := setDealerCards localDealerCards s in
  mkUpdate s [(650%N, DealerReveal localDealerCards playerCardsSnapshot game)]
    false true.

(** The head of [while (dealerValue < 17)] and, when the loop is over, step
    3 of [runDealerTurn]: outcome, payout on the captured [game], RESULT. *)
Definition dealerLoop (localDealerCards : list UICard)
    (dealerValue playerValue : Z) (game : option Game) (s : State) : Update :=
  if dealerValue <? 17 then
    let '(newCardStr, s) := drawNextDealerCard s in
    let localDealerCards := localDealerCards ++ [parseCard newCardStr true] in
    let s := setDealerCards localDealerCards s in
    mkUpdate s
      [(450%N, DealerFlip localDealerCards dealerValue playerValue game)]
      false true
  else
    let outcome := decideOutcome playerValue dealerValue in
    let s := setResult (Some outcome) s in
    let s := setGame (calculatePayout game outcome) s in
    let s := setStage RESULT s in
    let s := setIsDealerActing false s in
    mkUpdate s [] false false.

Definition currentBet (g : Game) (selectedBet : option Z) : Z :=
  if bet (player g) =? 0 then
    (if isTruthy selectedBet then orElse selectedBet 0 else 0)
  else bet (player g).

(** [handleDouble()] up to the first [await delay(450)]. *)
Definition handleDouble (s : State) : Reaction :=
  if actionBlocked s then Ignored
  else
    match game s with
    | None => Ignored
    | Some g =>
        let openCards := revealed (playerCards s) in
        if negb (List.length openCards =? 2)%nat then Ignored
        else
          let currentBet := currentBet g (selectedBet s) in
          let newBet := currentBet * 2 in
          if newBet >? chips (player g) then Alerted "籌碼不足，不能雙倍！"
          else
            let dealerSnapshot := dealerCards s in
            let s := setIsPlayerActing true s in
            let s := setGame (Some (withBet newBet g)) s in
            let s := setSelectedBet (Some newBet) s in
            let localPlayerCards := playerCards s in
            let '(newCardStr, s) := drawNextPlayerCard s in
            let localPlayerCards :=
              localPlayerCards ++ [parseCard newCardStr true] in
            let s := setPlayerCards localPlayerCards s in
            Rendered
              (mkUpdate s
                 [(450%N, DoubleFlip localPlayerCards dealerSnapshot (Some g))]
                 true false)
    end.

(** [handleStand()]. *)
Definition handleStand (s : State) : Reaction :=
  if actionBlocked s then Ignored
  else
    let playerSnapshot := playerCards s in
    Rendered (runDealerTurn playerSnapshot (dealerCards s) (game s) s).

(** [handleReset()]. *)
Definition handleReset (s : State) : Reaction :=
  let game0 := game s in
  let s := setPlayerCards [] s in
  let s := setDealerCards [] s in
  let s := setPlayerScore None s in
  let s := setDealerScore None s in
  let s := setSelectedBet None s in
  let s := setResult None s in
  let s := setStage READY s in
  let s := setIsBetting false s in
  let s := setIsPlayerActing false s in
  let s := setIsDealerActing false s in
  let s := setIsBlackjack false s in
  let s := setPlayerDrawIndexRef 0 s in
  let s := setDealerDrawIndexRef 0 s in
  let s :=
    match game0 with
    | Some g => setGame (Some (withStatus NEW (withBet 0 g))) s
    | None => s
    end in
  let s := setShowChips true s in
  Rendered (mkUpdate s [] true true).

(** A pending task, run on the state current when it fires. *)
Definition runTask (t : Task) (s : State) : Update :=
  match t with
  | PlayerScoreTimer cards =>
      mkUpdate (setPlayerScore (calculateHandValue cards) s) [] false false
  | DealerScoreTimer cards =>
      mkUpdate (setDealerScore (calculateHandValue cards) s) [] false false
  | BlackjackOff => mkUpdate (setIsBlackjack false s) [] false false
  | BetDeal amount g => betDeal amount g s
  | DealP1 card =>
      mkUpdate (setPlayerCards [parseCard card true] s) [(450%N, FlipP1)]
        true false
  | FlipP1 =>
      mkUpdate (setPlayerCards (map faceUp (playerCards s)) s) [] true false
  | DealD1 card =>
      mkUpdate (setDealerCards [parseCard card true] s) [(450%N, FlipD1)]
        false true
  | FlipD1 =>
      mkUpdate (setDealerCards (map faceUp (dealerCards s)) s) [] false true
  | DealP2 card =>
      mkUpdate (setPlayerCards (playerCards s ++ [parseCard card true]) s)
        [(450%N, FlipP2)] true false
  | FlipP2 =>
      mkUpdate (setPlayerCards (flipIndex 1 0 (playerCards s)) s) []
        true false
  | DealD2 card =>
      mkUpdate (setDealerCards (dealerCards s ++ [parseCard card true]) s) []
        false true
  | ToPlayerTurn => mkUpdate (setStage PLAYER_TURN s) [] false false
  | HitFlip =>
      mkUpdate (setPlayerCards (flipHidden (playerCards s)) s)
        [(150%N, HitDone)] true false
  | HitDone => mkUpdate (setIsPlayerActing false s) [] false false
  | DoubleFlip localPlayerCards dealerSnapshot gameSnapshot =>
      let localPlayerCards := flipLast localPlayerCards in
      mkUpdate (setPlayerCards localPlayerCards s)
        [(150%N, DoubleDone localPlayerCards dealerSnapshot gameSnapshot)]
        true false
  | DoubleDone localPlayerCards dealerSnapshot gameSnapshot =>
      let s := setIsPlayerActing false s in
      runDealerTurn localPlayerCards dealerSnapshot gameSnapshot s
  | DealerReveal localDealerCards playerCardsSnapshot gameSnapshot =>
      let dealerValue := orElse (calculateHandValue localDealerCards) 0 in
      let playerValue :=
        orElse (calculateHandValue (revealed playerCardsSnapshot)) 0 in
      dealerLoop localDealerCards dealerValue playerValue gameSnapshot s
  | DealerFlip localDealerCards dealerValue playerValue gameSnapshot =>
      let localDealerCards := flipLast localDealerCards in
      mkUpdate (setDealerCards localDealerCards s)
        [(450%N, DealerNext localDealerCards dealerValue playerValue
                   gameSnapshot)]
        false true
  | DealerNext localDealerCards dealerValue playerValue gameSnapshot =>
      let dealerValue :=
        orElse (calculateHandValue localDealerCards) dealerValue in
      dealerLoop localDealerCards dealerValue playerValue gameSnapshot s
  end.

(** ** Effects *)

(** The player-bust effect.  React re-runs it when [playerScore], [stage],
    [result] or [game] changed; it switches itself off by leaving
    PLAYER_TURN, so running it after every render is the same thing. *)
Definition bustEnabled (s : State) : bool :=
  Stage_eqb (stage s) PLAYER_TURN
  && match playerScore s with
     | Some v => v >? 21
     | None => false
     end
  && match result s with
     | None => true
     | Some _ => false
     end.

Definition bustEffect (s : State) : State :=
  if bustEnabled s then
    let outcome := mkResult LOSE "爆牌" in
    let s' := setResult (Some outcome) s in
    let s' :=
      match game s with
      | Some _ => setGame (calculatePayout (game s) outcome) s'
      | None => s'
      end in
    setStage RESULT s'
  else s.

Definition isPlayerScoreTimer (t : Task) : bool :=
  match t with
  | PlayerScoreTimer _ => true
  | _ => false
  end.

Definition isDealerScoreTimer (t : Task) : bool :=
  match t with
  | DealerScoreTimer _ => true
  | _ => false
  end.

Definition isBlackjackOff (t : Task) : bool :=
  match t with
  | BlackjackOff => true
  | _ => false
  end.

(** [clearTimeout] of the timers of one kind. *)
Definition cancel (kind : Task -> bool) (q : list (N * Task))
  : list (N * Task) :=
  filter (fun e => negb (kind (snd e))) q.

(** The blackjack effect: two open cards worth 21 raise the signal for
    2400 ms. *)
Definition blackjackSignal (s : State) : bool :=
  let openCards := revealed (playerCards s) in
  (List.length openCards =? 2)%nat
  && match calculateHandValue openCards with
     | Some value => value =? 21
     | None => false
     end.

(** The effects of one render, in the order the component declares them.
    All of them read the rendered state [s]; their updates land together. *)
Definition runEffects (touchedPlayer touchedDealer : bool) (s : State)
    (q : list (N * Task)) : State * list (N * Task) :=
  let q :=
    if touchedPlayer
    then cancel isPlayerScoreTimer q
           ++ [(320%N, PlayerScoreTimer (playerCards s))]
    else q in
  let q :=
    if touchedDealer
    then cancel isDealerScoreTimer q
           ++ [(320%N, DealerScoreTimer (dealerCards s))]
    else q in
  let signal := touchedPlayer && blackjackSignal s in
  let q := if touchedPlayer then cancel isBlackjackOff q else q in
  let q := if signal then q ++ [(2400%N, BlackjackOff)] else q in
  let s' := bustEffect s in
  (* if (!game) setGame({ id: 1, status: "NEW", ... }) *)
  let s' := match game s with
            | None => setGame (Some initialGame) s'
            | Some _ => s'
            end in
  let s' := if signal then setIsBlackjack true s' else s' in
  (s', q).

(** ** The event loop

    [pending] holds the timers still to fire with the time left to each, in
    the order they were started; [clock] counts the milliseconds elapsed. *)
Record World : Type := mkWorld {
  ui : State;
  pending : list (N * Task);
  alerts : list string;
  clock : N
}.

(** A render: the handler's timers are started first, then the effects
    run. *)
Definition render (u : Update) (w : World) : World :=
  let '(s, q) :=
    runEffects (touchedPlayer u) (touchedDealer u) (next u)
      (pending w ++ spawned u) in
  mkWorld s q (alerts w) (clock w).

Inductive UserEvent : Type :=
  | ClickStart
  | ClickBet (amount : Z)
  | ClickHit
  | ClickDouble
  | ClickStand
  | ClickReset.

Definition handle (e : UserEvent) (s : State) : Reaction :=
  match e with
  | ClickStart => Rendered (mkUpdate (setShowChips true s) [] false false)
  | ClickBet amount => handleBet amount s
  | ClickHit => handleHit s
  | ClickDouble => handleDouble s
  | ClickStand => handleStand s
  | ClickReset => handleReset s
  end.

Definition click (e : UserEvent) (w : World) : World :=
  match handle e (ui w) with
  | Ignored => w
  | Alerted message =>
      mkWorld (ui w) (pending w) (alerts w ++ [message]) (clock w)
  | Rendered u => render u w
  end.

(** The controls the page offers: the action buttons are rendered in
    PLAYER_TURN while no result is shown and are disabled by the busy
    flags ([Double] also unless the player holds two cards); the reset
    button comes with the result; the chips are clickable once shown. *)
Definition offered (e : UserEvent) (s : State) : bool :=
  let noResult := match result s with None => true | Some _ => false end in
  let busy := isBetting s || isPlayerActing s || isDealerActing s in
  match e with
  | ClickStart =>
      match game s with
      | Some g => (match status g with NEW => true | BET => false end)
                  && negb (showChips s)
      | None => false
      end
  | ClickBet amount =>
      existsb (Z.eqb amount) [100; 500; 1000; 5000]
      && showChips s && noResult
      && negb (isBetting s || Stage_eqb (stage s) PLAYER_TURN)
  | ClickHit | ClickStand =>
      Stage_eqb (stage s) PLAYER_TURN && noResult && negb busy
  | ClickDouble =>
      Stage_eqb (stage s) PLAYER_TURN && noResult && negb busy
      && (List.length (playerCards s) =? 2)%nat
  | ClickReset => negb noResult
  end.

(** The delay of the next timer to fire. *)
Fixpoint soonest (q : list (N * Task)) : option N :=
  match q with
  | [] => None
  | (d, _) :: rest =>
      match soonest rest with
      | None => Some d
      | Some m => Some (N.min d m)
      end
  end.

(** Take out the first timer whose delay is [m]. *)
Fixpoint takeDue (m : N) (q : list (N * Task))
  : option (Task * list (N * Task)) :=
  match q with
  | [] => None
  | (d, t) :: rest =>
      if (d =? m)%N then Some (t, rest)
      else
        match takeDue m rest with
        | Some (t', rest') => Some (t', (d, t) :: rest')
        | None => None
        end
  end.

Definition elapse (m : N) (q : list (N * Task)) : list (N * Task) :=
  map (fun e => ((fst e - m)%N, snd e)) q.

(** Let time pass until the next timer fires and run it. *)
Definition step (w : World) : option World :=
  match soonest (pending w) with
  | None => None
  | Some m =>
      match takeDue m (pending w) with
      | None => None
      | Some (t, rest) =>
          Some (render (runTask t (ui w))
                  (mkWorld (ui w) (elapse m rest) (alerts w)
                     (clock w + m)%N))
      end
  end.

(** [n] timer firings (fewer when nothing is pending). *)
Fixpoint steps (n : nat) (w : World) : World :=
  match n with
  | O => w
  | S k =>
      match step w with
      | Some w' => steps k w'
      | None => w
      end
  end.

(** Let [d] ms pass: every timer due by then fires, in order.  [None] when
    [fuel] firings were not enough. *)
Fixpoint wait (fuel : nat) (d : N) (w : World) : option World :=
  let idle :=
    Some (mkWorld (ui w) (elapse d (pending w)) (alerts w) (clock w + d)%N) in
  match soonest (pending w) with
  | None => idle
  | Some m =>
      if (m <=? d)%N then
        match fuel with
        | O => None
        | S fuel' =>
            match step w with
            | Some w' => wait fuel' (d - m)%N w'
            | None => None
            end
        end
      else idle
  end.

(** The page as mounted: all cells at their initial values, the store
    filled by the first effect, the two score timers running. *)
Definition blankState : State :=
  mkState false None false false [] [] None None READY None false false
    None 0 0.

Definition mount : World :=
  render (mkUpdate blankState [] true true) (mkWorld blankState [] [] 0%N).

(** ** Dealer auto-play, timers aside

    The loop of [runDealerTurn] as a function of the local hand, the last
    dealer value and the draw index. *)

(** One pass of the loop body: the next card of the mock deck comes in face
    down and is flipped. *)
Definition dealerDraw (localDealerCards : list UICard) (idx : nat)
  : list UICard :=
  flipLast
    (localDealerCards
       ++ [parseCard
             (nth (idx mod List.length mockDealerDeck) mockDealerDeck
                EmptyString) true]).

(** [dealerValue = calculateHandValue(localDealerCards) ?? dealerValue]
    after the pass. *)
Definition dealerRevalue (localDealerCards : list UICard) (dealerValue : Z)
    (idx : nat) : Z :=
  orElse (calculateHandValue (dealerDraw localDealerCards idx)) dealerValue.

(** [while (dealerValue < 17) { ... }]; [None] when [fuel] passes were not
    enough. *)
Fixpoint dealerAutoPlay (fuel : nat) (localDealerCards : list UICard)
    (dealerValue : Z) (idx : nat) : option (list UICard * Z * nat) :=
  if dealerValue <? 17 then
    match fuel with
    | O => None
    | S fuel' =>
        dealerAutoPlay fuel' (dealerDraw localDealerCards idx)
          (dealerRevalue localDealerCards dealerValue idx) (S idx)
    end
  else Some (localDealerCards, dealerValue, idx).

(** The hand and the value at the head of the loop after [k] passes. *)
Fixpoint dealerHandAfter (k : nat) (localDealerCards : list UICard)
    (idx : nat) : list UICard :=
  match k with
  | O => localDealerCards
  | S k' => dealerHandAfter k' (dealerDraw localDealerCards idx) (S idx)
  end.

Fixpoint dealerValueAfter (k : nat) (localDealerCards : list UICard)
    (dealerValue : Z) (idx : nat) : Z :=
  match k with
  | O => dealerValue
  | S k' =>
      dealerValueAfter k' (dealerDraw localDealerCards idx)
        (dealerRevalue localDealerCards dealerValue idx) (S idx)
  end.

(** The worlds the page can be in: as mounted, after a click, after a timer
    has fired, after some time has passed. *)
Inductive reachable : World -> Prop :=
  | reach_mount : reachable mount
  | reach_click (e : UserEvent) (w : World) :
      reachable w -> reachable (click e w)
  | reach_step (w w' : World) :
      reachable w -> step w = Some w' -> reachable w'
  | reach_wait (fuel : nat) (d : N) (w w' : World) :
      reachable w -> wait fuel d w = Some w' -> reachable w'.

(** ** Notions used in the statements *)

(** The value of a hand with [aces] aces over non-aces worth [total]. *)
Definition handTotal (aces : nat) (total : Z) : Z :=
  match aces with
  | O => total
  | S _ =>
      if total + Z.of_nat aces + 10 <=? 21
      then total + Z.of_nat aces + 10
      else total + Z.of_nat aces
  end.

(** Every revealed card of the hand has one of the thirteen ranks. *)
Definition cardHand (cards : list UICard) : Prop :=
  Forall (fun c => isCardRank (rank c) = true) (revealed cards).

(** Every card of the hand, hidden ones included, has one of the thirteen
    ranks. *)
Definition cardRanked (cards : list UICard) : Prop :=
  Forall (fun c => isCardRank (rank c) = true) cards.

(** The card the dealer draws at index [idx]. *)
Definition dealerCardAt (idx : nat) : UICard :=
  parseCard (nth (idx mod List.length mockDealerDeck) mockDealerDeck
               EmptyString) true.

(** The points of the revealed non-aces of a hand. *)
Definition nonAceSum (l : list UICard) : Z :=
  sumNonAces specPoints (map rank (revealed l)).

(** Timers that only refresh a score or drop the blackjack signal. *)
Definition inert (t : Task) : bool :=
  match t with
  | PlayerScoreTimer _ | DealerScoreTimer _ | BlackjackOff => true
  | _ => false
  end.

(** The pending tasks that are not inert, in order. *)
Definition chainPart (q : list (N * Task)) : list Task :=
  map snd (filter (fun e => negb (inert (snd e))) q).

(** The cells that inert timers leave alone. *)
Definition core (s : State) :=
  (showChips s, selectedBet s, isBetting s, playerCards s, dealerCards s,
   stage s, result s, isPlayerActing s, isDealerActing s, game s,
   playerDrawIndexRef s, dealerDrawIndexRef s).

(** The cells a dealer turn leaves alone. *)
Definition samePlayerSide (s s' : State) : Prop :=
  playerCards s' = playerCards s
  /\ selectedBet s' = selectedBet s
  /\ isPlayerActing s' = isPlayerActing s
  /\ isBetting s' = isBetting s
  /\ playerDrawIndexRef s' = playerDrawIndexRef s.

(** [c] is the task at the head of the dealer loop, with local hand [l],
    dealer value [dv] and player value [pv]. *)
Definition headOf (c : Task) (l : list UICard) (dv pv : Z) (g : Game)
  : Prop :=
  (exists ps,
     c = DealerReveal l ps (Some g)
     /\ dv = orElse (calculateHandValue l) 0
     /\ pv = orElse (calculateHandValue (revealed ps)) 0)
  \/ (exists dv0,
        c = DealerNext l dv0 pv (Some g)
        /\ dv = orElse (calculateHandValue l) dv0).

(** The round as the dealer turn leaves it. *)
Definition dealerDone (pv dv : Z) (g : Game) (l : list UICard) (idx : nat)
    (s : State) (w' : World) : Prop :=
  chainPart (pending w') = []
  /\ stage (ui w') = RESULT
  /\ result (ui w') = Some (decideOutcome pv dv)
  /\ game (ui w') = calculatePayout (Some g) (decideOutcome pv dv)
  /\ dealerCards (ui w') = l
  /\ dealerDrawIndexRef (ui w') = idx
  /\ isDealerActing (ui w') = false
  /\ samePlayerSide s (ui w').

(** What does not change while the dealer plays. *)
Definition dealerPlaying (s s' : State) : Prop :=
  stage s' = DEALER_TURN /\ result s' = result s /\ game s' = game s.

(** A world in which the player may act: PLAYER_TURN, no busy flag, and
    only score and blackjack timers pending. *)
Definition playerMayAct (w : World) : Prop :=
  chainPart (pending w) = [] /\ stage (ui w) = PLAYER_TURN
  /\ isBetting (ui w) = false /\ isPlayerActing (ui w) = false
  /\ isDealerActing (ui w) = false.

(** The blackjack timer that may be running beside the others. *)
Definition withSignal (signal : bool) (d : N) : list (N * Task) :=
  if signal then [(d, BlackjackOff)] else [].

(** The timers a click on Double clears: the player's score timer and the
    blackjack timer. *)
Definition playerTimers (q : list (N * Task)) : Prop :=
  Forall (fun e => isPlayerScoreTimer (snd e) || isBlackjackOff (snd e) = true)
    q.

End Round.

(** * The rest of the page

    Beside the rules of the round: the picture of a card, and the notions
    used to state what the draws, the bet and its deal, a hit and the score
    and blackjack effects keep true. *)

(** ** The card picture *)

(** [suit.split("/")]. *)
Fixpoint splitSlash (s : string) : list string :=
  match s with
  | EmptyString => [EmptyString]
  | String c r =>
      if (c =? "/")%char then EmptyString :: splitSlash r
      else
        match splitSlash r with
        | [] => [String c EmptyString]
        | x :: xs => String c x :: xs
        end
  end.

(** An element of a destructured array inside a template literal: a
    missing one prints as [undefined]. *)
Definition printed (i : nat) (parts : list string) : string :=
  nth i parts "undefined".

Inductive CardSize : Type := small | normal | large.

(** The [Image] element that [Card] returns. *)
Record CardImage : Type := mkImage {
  src : string;
  alt : string;
  className : string
}.

(** [Card({ rank, suit, size })]; [None] is the [null] of an empty suit. *)
Definition Card (rank suit : string) (size : CardSize) : option CardImage :=
  match suit with
  | EmptyString => None
  | _ =>
      let parts := splitSlash suit in
      let folder := printed 0 parts in
      let fileSuit := printed 1 parts in
      let path :=
        ("/cards/" ++ folder ++ "/" ++ rank ++ "_" ++ fileSuit
         ++ ".png")%string in
      let sizeClass :=
        match size with
        | small => "w-28 h-40"
        | large => "w-36 h-52"
        | normal => "w-32 h-48"
        end in
      Some (mkImage path (rank ++ " of " ++ fileSuit)%string
              ("object-cover rounded-2xl shadow-2xl " ++ sizeClass)%string)
  end.

(** The four suit symbols. *)
Definition suitSymbols : list string := ["♠"; "♥"; "♦"; "♣"].

(** The suits [parseCard] builds from them. *)
Definition suitPaths : list string :=
  ["spades/spade"; "hearts/heart"; "diamonds/diamond"; "clubs/club"].

(** The ranks worth ten. *)
Definition tenRanks : list string := ["10"; "J"; "Q"; "K"].

(** ** What every world of the page satisfies *)

(** A card the page can draw: one of the thirteen ranks and one of the four
    picture suits. *)
Definition pictureCard (c : UICard) : Prop :=
  isCardRank (rank c) = true /\ In (suit c) suitPaths.

(** The game of this table: the one the page installs, up to the player's
    seat and the status. *)
Definition houseGame (g : option Game) : Prop :=
  exists g0, g = Some g0 /\ id g0 = 1 /\ dealerChips (dealer g0) = 999999.

(** What a pending task captured is sound. *)
Definition taskSound (t : Task) : Prop :=
  match t with
  | PlayerScoreTimer cards | DealerScoreTimer cards => Forall pictureCard cards
  | BetDeal _ g => houseGame (Some g)
  | DealP1 card | DealD1 card | DealP2 card | DealD2 card =>
      pictureCard (parseCard card true)
  | DoubleFlip lp ds gs | DoubleDone lp ds gs =>
      Forall pictureCard lp /\ Forall pictureCard ds /\ houseGame gs
  | DealerReveal ld ps gs =>
      Forall pictureCard ld /\ Forall pictureCard ps /\ houseGame gs
  | DealerFlip ld _ _ gs | DealerNext ld _ _ gs =>
      Forall pictureCard ld /\ houseGame gs
  | _ => True
  end.

Definition stateSound (s : State) : Prop :=
  houseGame (game s)
  /\ Forall pictureCard (playerCards s)
  /\ Forall pictureCard (dealerCards s).

Definition queueSound (q : list (N * Task)) : Prop :=
  Forall (fun e => taskSound (snd e)) q.

Definition sound (w : World) : Prop :=
  stateSound (ui w) /\ queueSound (pending w).

(** What one piece of code hands to the render is sound. *)
Definition updateSound (u : Update) : Prop :=
  stateSound (next u) /\ queueSound (spawned u).

(** ** The busy flags *)

(** A busy flag of the page with the continuations that lower it: those of
    [handleBet], of [handleHit] and [handleDouble], and of
    [runDealerTurn]. *)
Inductive Busy : Type := Betting | PlayerActing | DealerActing.

Definition flagOf (b : Busy) (s : State) : bool :=
  match b with
  | Betting => isBetting s
  | PlayerActing => isPlayerActing s
  | DealerActing => isDealerActing s
  end.

Definition lowers (b : Busy) (t : Task) : bool :=
  match b, t with
  | Betting, BetDeal _ _ => true
  | PlayerActing, (HitFlip | HitDone | DoubleFlip _ _ _ | DoubleDone _ _ _) =>
      true
  | DealerActing,
    (DealerReveal _ _ _ | DealerFlip _ _ _ _ | DealerNext _ _ _ _) => true
  | _, _ => false
  end.

(** A continuation that will lower the flag is pending. *)
Definition owed (b : Busy) (q : list (N * Task)) : bool :=
  existsb (fun e => lowers b (snd e)) q.

(** The reply of the mocked server to a bet. *)
Definition mockedGame (amount : Z) (g : Game) : Game :=
  mkGame (id g) BET
    (mkPlayer (chips (player g)) ["A♥"; "K♠"] amount)
    (mkDealer (dealerChips (dealer g)) ["10♦"; "7♣"]).

(** The timers of the deal as [handleBet] starts them, with the two score
    timers of the render that emptied the hands. *)
Definition dealTimers : list (N * Task) :=
  [(0%N, DealP1 "A♥"); (900%N, DealD1 "10♦"); (1800%N, DealP2 "K♠");
   (2700%N, DealD2 "7♣"); (3200%N, ToPlayerTurn);
   (320%N, PlayerScoreTimer []); (320%N, DealerScoreTimer [])].

Section Page.

Context {NM : NumberModel}.

(** ** The score cells *)

(** A side of the table, as the two score effects see it: the hand, the
    score cell, the timer of the effect and the flag of the update that
    re-runs it. *)
Record Side : Type := mkSide {
  cardsOf : State -> list UICard;
  scoreOf : State -> option Z;
  timerOf : list UICard -> Task;
  isTimerOf : Task -> bool;
  touchedOf : Update -> bool
}.

Definition playerSide : Side :=
  mkSide playerCards playerScore PlayerScoreTimer isPlayerScoreTimer
    touchedPlayer.

Definition dealerSide : Side :=
  mkSide dealerCards dealerScore DealerScoreTimer isDealerScoreTimer
    touchedDealer.

(** The score timers of a side that are pending. *)
Definition scoreTimers (side : Side) (q : list (N * Task)) : list (N * Task) :=
  filter (fun e => isTimerOf side (snd e)) q.

(** The score cell of a side is in step with the hand: either no score
    timer is pending and the cell holds the value of the hand, or one is,
    due within 320 ms, and it carries the hand. *)
Definition inStep (side : Side) (w : World) : Prop :=
  match scoreTimers side (pending w) with
  | [] => scoreOf side (ui w) = calculateHandValue (cardsOf side (ui w))
  | [(d, t)] => t = timerOf side (cardsOf side (ui w)) /\ (d <= 320)%N
  | _ => False
  end.

(** An update that did not set the hand of a side left its hand and its
    score cell as they were. *)
Definition quiet (side : Side) (u : Update) (s : State) : Prop :=
  touchedOf side u = true
  \/ (cardsOf side (next u) = cardsOf side s
      /\ scoreOf side (next u) = scoreOf side s).

(** ** A round in progress *)

(** The worlds a round passes through after [w] as long as reset is not
    clicked: any other click, any timer, any lapse of time. *)
Inductive roundGoesOn (w : World) : World -> Prop :=
  | goes_here : roundGoesOn w w
  | goes_click (e : UserEvent) (w' : World) :
      roundGoesOn w w' -> e <> ClickReset -> roundGoesOn w (click e w')
  | goes_step (w' w'' : World) :
      roundGoesOn w w' -> step w' = Some w'' -> roundGoesOn w w''
  | goes_wait (fuel : nat) (d : N) (w' w'' : World) :
      roundGoesOn w w' -> wait fuel d w' = Some w'' -> roundGoesOn w w''.

End Page.

(** * Concrete hands and rounds

    Hands and worlds at the decimal reading of ranks: the mocked deal and
    two tables set by hand. *)

(** The claim C10 as it is worded: [s + a + 10] whenever that is at most
    21, aces or not. *)
Definition acesClosedForm (ranks : list string) : Z :=
  let s := sumNonAces specPoints ranks in
  let a := Z.of_nat (countAces ranks) in
  if s + a + 10 <=? 21 then s + a + 10 else s + a.

Definition sampleHand : list UICard :=
  [mkCard "A" "hearts/heart" false; mkCard "K" "spades/spade" true;
   mkCard "9" "diamonds/diamond" false; mkCard "A" "clubs/club" false].

Definition tenOfSpades : UICard := mkCard "10" "spades/spade" false.
Definition nineOfDiamonds : UICard := mkCard "9" "diamonds/diamond" false.

(** The dealer of the mocked deal, 10 up and 7 down, and a dealer who has
    to draw, 4 up and 5 down. *)
Definition standingDealer : list UICard :=
  [mkCard "10" "diamonds/diamond" false; mkCard "7" "clubs/club" true].

Definition drawingDealer : list UICard :=
  [mkCard "4" "diamonds/diamond" false; mkCard "5" "clubs/club" true].

Definition tableGame (chips : Z) : Game :=
  mkGame 1 BET (mkPlayer chips ["10♠"; "9♦"] 100) (mkDealer 999999 []).

(** PLAYER_TURN with 10 and 9 for the player, a bet of 100, no timer
    pending. *)
Definition table (dealerCards : list UICard) (dealerScore : Z) (chips : Z)
  : World :=
  mkWorld
    (mkState true (Some 100) false false [tenOfSpades; nineOfDiamonds]
       dealerCards (Some 19) (Some dealerScore) PLAYER_TURN None false false
       (Some (tableGame chips)) 0 0)
    [] [] 0%N.

(** The mocked round as the player's turn begins, 3850 ms after a bet of
    100: the blackjack timer is still running. *)
Definition dealt : World :=
  match
    wait 100 3850
      (click (ClickBet 100)
         (click ClickStart mount))
  with
  | Some w => w
  | None => mount end.

(** The mocked round while the cards are still being dealt. *)
Definition dealing : World :=
  click (ClickBet 100)
    (click ClickStart mount).

(** The player at 10, 9 and a revealed 5, the score cell still at 19 and
    its timer 170 ms from firing. *)
Definition bustHand : list UICard :=
  [tenOfSpades; nineOfDiamonds; mkCard "5" "clubs/club" false].

Definition aboutToBust : World :=
  mkWorld
    (mkState true (Some 100) false false bustHand standingDealer (Some 19)
       (Some 10) PLAYER_TURN None false false (Some (tableGame 10000)) 1 0)
    [(170%N, PlayerScoreTimer bustHand)] [] 0%N.

Definition dealtGame : Game :=
  mkGame 1 BET (mkPlayer 10000 ["A♥"; "K♠"] 100)
    (mkDealer 999999 ["10♦"; "7♣"]).

(** The mocked round after a stand: RESULT, 10100 chips. *)
Definition settledRound : World :=
  steps 2 (click ClickStand dealt).

Definition settledGame : Game :=
  mkGame 1 BET (mkPlayer 10100 ["A♥"; "K♠"] 100)
    (mkDealer 999999 ["10♦"; "7♣"]).

(** * Properties *)

Section Properties.

Context {NM : NumberModel}.

(** ** The hand evaluator *)

Lemma countRank_fold (ranks : list string) (total : Z) (aces : nat) :
  fold_left countRank ranks (total, aces)
  = (total + sumNonAces rankPoints ranks, (aces + countAces ranks)%nat).
Proof.
  revert total aces.
  induction ranks as [|r ranks IH]; intros total aces.
  - cbn. f_equal; [lia | now rewrite Nat.add_0_r].
  - cbn [fold_left].
    assert (Hstep : countRank (total, aces) r
                    = if isAce r then (total, S aces)
                      else (total + rankPoints r, aces)).
    { unfold countRank, isAce, rankPoints.
      destruct (r =? "A")%string; [reflexivity|].
      destruct (existsb (String.eqb r) faceRanks); reflexivity. }
    rewrite Hstep. unfold sumNonAces, countAces in *.
    cbn [fold_right filter].
    destruct (isAce r); rewrite IH; cbn [List.length]; f_equal; lia.
Qed.

Lemma resolveAces_total (aces : nat) (total : Z) :
  0 <= total -> resolveAces aces total = handTotal aces total.
Proof.
  revert total.
  induction aces as [|k IH]; intros total Hpos; [reflexivity|].
  cbn [resolveAces].
  destruct (total + 11 + Z.of_nat k <=? 21) eqn:Hfit.
  - rewrite IH by lia. apply Z.leb_le in Hfit.
    unfold handTotal. destruct k as [|k'].
    + replace (total + Z.of_nat 1 + 10 <=? 21) with true
        by (symmetry; apply Z.leb_le; lia).
      lia.
    + replace (total + 11 + Z.of_nat (S k') + 10 <=? 21) with false
        by (symmetry; apply Z.leb_gt; lia).
      replace (total + Z.of_nat (S (S k')) + 10 <=? 21) with true
        by (symmetry; apply Z.leb_le; lia).
      lia.
  - rewrite IH by lia. apply Z.leb_gt in Hfit.
    unfold handTotal. destruct k as [|k'].
    + replace (total + Z.of_nat 1 + 10 <=? 21) with false
        by (symmetry; apply Z.leb_gt; lia).
      lia.
    + replace (total + 1 + Z.of_nat (S k') + 10 <=? 21) with false
        by (symmetry; apply Z.leb_gt; lia).
      replace (total + Z.of_nat (S (S k')) + 10 <=? 21) with false
        by (symmetry; apply Z.leb_gt; lia).
      lia.
Qed.


Lemma isCardRank_In (r : string) : isCardRank r = true -> In r cardRanks.
Proof.
  unfold isCardRank. intros H.
  apply existsb_exists in H. destruct H as [x [Hin Heq]].
  apply String.eqb_eq in Heq. now subst.
Qed.

(** On a card rank other than the ace, the code's points are the
    specification's. *)
Lemma rankPoints_card (r : string) :
  isCardRank r = true -> isAce r = false -> rankPoints r = specPoints r.
Proof.
  intros Hr Hace. apply isCardRank_In in Hr.
  unfold cardRanks, faceRanks, numericRanks in Hr. simpl in Hr.
  repeat (destruct Hr as [<- | Hr];
    [ first [ discriminate Hace
            | reflexivity
            | unfold rankPoints; simpl;
              apply Number_decimal; [reflexivity | reflexivity] ] | ]).
  contradiction.
Qed.

Lemma specPoints_card (r : string) :
  isCardRank r = true -> 0 <= specPoints r <= 10.
Proof.
  intros Hr. apply isCardRank_In in Hr.
  unfold cardRanks, faceRanks, numericRanks in Hr. simpl in Hr.
  repeat (destruct Hr as [<- | Hr]; [vm_compute; split; discriminate |]).
  contradiction.
Qed.

Lemma sumNonAces_card (ranks : list string) :
  Forall (fun r => isCardRank r = true) ranks ->
  sumNonAces rankPoints ranks = sumNonAces specPoints ranks
  /\ 0 <= sumNonAces specPoints ranks.
Proof.
  induction 1 as [|r ranks Hr _ [IHeq IHpos]]; simpl; [split; [reflexivity|lia]|].
  destruct (isAce r) eqn:Hace; [now split|].
  rewrite (rankPoints_card r Hr Hace), IHeq.
  pose proof (specPoints_card r Hr). split; [reflexivity | lia].
Qed.

Lemma cardHand_ranks (cards : list UICard) :
  cardHand cards ->
  Forall (fun r => isCardRank r = true) (map rank (revealed cards)).
Proof.
  unfold cardHand. intros H. apply Forall_map. exact H.
Qed.

(** The value the code returns, in closed form. *)
Lemma calculateHandValue_total (cards : list UICard) :
  cardHand cards ->
  calculateHandValue cards
  = match revealed cards with
    | [] => None
    | _ =>
        Some (handTotal (countAces (map rank (revealed cards)))
                (sumNonAces specPoints (map rank (revealed cards))))
    end.
Proof.
  intros Hcards. apply cardHand_ranks in Hcards.
  unfold calculateHandValue.
  destruct (sumNonAces_card _ Hcards) as [Heq Hpos].
  rewrite countRank_fold, Heq. simpl.
  destruct (revealed cards) as [|c rest]; [reflexivity|].
  cbn [map List.length Nat.eqb].
  now rewrite resolveAces_total.
Qed.

Lemma revealed_idem (cards : list UICard) :
  revealed (revealed cards) = revealed cards.
Proof.
  unfold revealed. induction cards as [|c cards IH]; [reflexivity|].
  cbn [filter]. destruct (negb (isFaceDown c)) eqn:Hc; [|exact IH].
  cbn [filter]. now rewrite Hc, IH.
Qed.

Lemma handTotal_if (aces : nat) (total : Z) :
  handTotal aces total
  = if (1 <=? Z.of_nat aces) && (total + Z.of_nat aces + 10 <=? 21)
    then total + Z.of_nat aces + 10
    else total + Z.of_nat aces.
Proof.
  destruct aces as [|k].
  - cbn. lia.
  - unfold handTotal.
    replace (1 <=? Z.of_nat (S k)) with true
      by (symmetry; apply Z.leb_le; lia).
    reflexivity.
Qed.

Lemma revealed_Permutation (cards cards' : list UICard) :
  Permutation cards cards' -> Permutation (revealed cards) (revealed cards').
Proof.
  unfold revealed.
  induction 1 as [|c l l' _ IH|c d l|l l' l'' _ IH1 _ IH2]; cbn [filter].
  - constructor.
  - destruct (negb (isFaceDown c)); [now constructor | exact IH].
  - destruct (negb (isFaceDown c)), (negb (isFaceDown d));
      try apply Permutation_refl.
    apply perm_swap.
  - now transitivity (filter (fun c => negb (isFaceDown c)) l').
Qed.

Lemma sumNonAces_Permutation (pts : string -> Z) (l l' : list string) :
  Permutation l l' -> sumNonAces pts l = sumNonAces pts l'.
Proof.
  unfold sumNonAces.
  induction 1 as [|r l l' _ IH|r q l|l l' l'' _ IH1 _ IH2]; cbn [fold_right].
  - reflexivity.
  - now rewrite IH.
  - destruct (isAce r), (isAce q); lia.
  - congruence.
Qed.

Lemma countAces_Permutation (l l' : list string) :
  Permutation l l' -> countAces l = countAces l'.
Proof.
  unfold countAces.
  induction 1 as [|r l l' _ IH|r q l|l l' l'' _ IH1 _ IH2]; cbn [filter].
  - reflexivity.
  - destruct (isAce r); cbn [List.length]; now rewrite IH.
  - destruct (isAce r), (isAce q); reflexivity.
  - congruence.
Qed.

(** ** Claims about the evaluator and the payout *)


(** C10 (amended). For every hand with at least one revealed card (ranks
    among the thirteen), writing [s] for the sum of the non-ace values and
    [a] for the number of aces, [calculateHandValue] returns [s + a + 10]
    when there is an ace and [s + a + 10 <= 21], and [s + a] otherwise: at
    most one ace counts 11, and the value does not depend on the order of
    the cards. *)
Theorem calculateHandValue_aces (cards : list UICard) :
  cardHand cards ->
  revealed cards <> [] ->
  let ranks := map rank (revealed cards) in
  let s := sumNonAces specPoints ranks in
  let a := Z.of_nat (countAces ranks) in
  calculateHandValue cards
  = Some (if (1 <=? a) && (s + a + 10 <=? 21) then s + a + 10 else s + a)
  /\ forall cards',
       Permutation cards cards' ->
       calculateHandValue cards' = calculateHandValue cards.
Proof.
  intros Hcards Hsome ranks s a. split.
  - rewrite (calculateHandValue_total cards Hcards).
    subst ranks s a.
    destruct (revealed cards) as [|c rest]; [contradiction|].
    now rewrite handTotal_if.
  - intros cards' Hperm.
    pose proof (revealed_Permutation _ _ Hperm) as Hrev.
    assert (Hcards' : cardHand cards').
    { unfold cardHand in *.
      eapply Permutation_Forall; [exact Hrev | exact Hcards]. }
    rewrite (calculateHandValue_total cards Hcards),
      (calculateHandValue_total cards' Hcards').
    pose proof (Permutation_map rank Hrev) as Hranks.
    rewrite <- (sumNonAces_Permutation specPoints _ _ Hranks),
      <- (countAces_Permutation _ _ Hranks).
    destruct (revealed cards) as [|c rest]; [contradiction|].
    destruct (revealed cards') as [|c' rest']; [|reflexivity].
    apply Permutation_length in Hrev. discriminate Hrev.
Qed.


(** ** Claims about the handlers *)

Lemma Stage_eqb_eq (a b : Stage) : Stage_eqb a b = true <-> a = b.
Proof.
  destruct a, b; cbn; split; intros H; try reflexivity; discriminate H.
Qed.

Lemma actionBlocked_true (s : State) :
  stage s <> PLAYER_TURN \/ isBetting s = true
  \/ isPlayerActing s = true \/ isDealerActing s = true ->
  actionBlocked s = true.
Proof.
  unfold actionBlocked. intros [H | [H | [H | H]]].
  - destruct (Stage_eqb (stage s) PLAYER_TURN) eqn:E; [|reflexivity].
    apply Stage_eqb_eq in E. contradiction.
  - rewrite H. now rewrite orb_true_r.
  - rewrite H. now rewrite !orb_true_r.
  - rewrite H. now rewrite !orb_true_r.
Qed.

(** C8. A hit, stand or double requested outside PLAYER_TURN, or while a
    busy flag (betting, player acting, dealer acting) is set, is ignored:
    the handler returns before any update, nothing is rendered, no timer
    starts and no alert is shown. *)
Theorem blocked_action_ignored (e : UserEvent) (w : World) :
  e = ClickHit \/ e = ClickStand \/ e = ClickDouble ->
  stage (ui w) <> PLAYER_TURN \/ isBetting (ui w) = true
  \/ isPlayerActing (ui w) = true \/ isDealerActing (ui w) = true ->
  handle e (ui w) = Ignored /\ click e w = w.
Proof.
  intros He Hblocked. apply actionBlocked_true in Hblocked.
  assert (Hh : handle e (ui w) = Ignored).
  { destruct He as [-> | [-> | ->]]; cbn [handle];
      unfold handleHit, handleStand, handleDouble; now rewrite Hblocked. }
  split; [exact Hh|]. unfold click. now rewrite Hh.
Qed.

(** C6. In PLAYER_TURN a double is rejected without any change of state
    (stage, bet, hands, chips and everything else as before, no timer
    started) when the player does not hold exactly two revealed cards or
    when the doubled bet exceeds the chips; the one visible trace is the
    warning, shown in the second case. *)
Theorem double_rejected (w : World) :
  stage (ui w) = PLAYER_TURN ->
  List.length (revealed (playerCards (ui w))) <> 2%nat
  \/ (exists g, game (ui w) = Some g
                /\ chips (player g) < currentBet g (selectedBet (ui w)) * 2) ->
  (handleDouble (ui w) = Ignored
   \/ handleDouble (ui w) = Alerted "籌碼不足，不能雙倍！")
  /\ ui (click ClickDouble w) = ui w
  /\ pending (click ClickDouble w) = pending w
  /\ (List.length (revealed (playerCards (ui w))) <> 2%nat ->
      click ClickDouble w = w).
Proof.
  intros _ Hwhy.
  assert (Hcases :
    (handleDouble (ui w) = Ignored
     \/ handleDouble (ui w) = Alerted "籌碼不足，不能雙倍！")
    /\ (List.length (revealed (playerCards (ui w))) <> 2%nat ->
        handleDouble (ui w) = Ignored)).
  { unfold handleDouble.
    destruct (actionBlocked (ui w)); [now split; [left|]|].
    destruct (game (ui w)) as [g|] eqn:Hg; [|now split; [left|]].
    destruct (List.length (revealed (playerCards (ui w))) =? 2)%nat eqn:Hlen.
    - apply Nat.eqb_eq in Hlen. cbn [negb].
      destruct Hwhy as [Hne | [g' [Hg' Hchips]]]; [contradiction|].
      injection Hg' as <-.
      replace (currentBet g (selectedBet (ui w)) * 2 >? chips (player g))
        with true by (symmetry; apply Z.gtb_lt; lia).
      split; [now right | intros Hne; contradiction].
    - now split; [left|]. }
  destruct Hcases as [Hreact Hcards].
  split; [exact Hreact|].
  unfold click; cbn [handle].
  repeat split.
  - destruct Hreact as [-> | ->]; reflexivity.
  - destruct Hreact as [-> | ->]; reflexivity.
  - intros Hne. now rewrite (Hcards Hne).
Qed.

(** C9. From RESULT, reset empties both hands, clears both scores, the
    selected bet and the outcome, and puts the round back in READY; the
    game keeps its chips (only the bet goes back to 0 and the status to
    NEW). *)
Theorem reset_clears_round (w : World) (g : Game) :
  stage (ui w) = RESULT ->
  game (ui w) = Some g ->
  let s' := ui (click ClickReset w) in
  playerCards s' = [] /\ dealerCards s' = []
  /\ playerScore s' = None /\ dealerScore s' = None
  /\ selectedBet s' = None /\ result s' = None
  /\ stage s' = READY
  /\ game s'
     = Some (mkGame (id g) NEW
               (mkPlayer (chips (player g)) (cards (player g)) 0)
               (dealer g)).
Proof.
  intros _ Hg. unfold click, handle, handleReset, render.
  rewrite Hg. cbn. repeat split; reflexivity.
Qed.







(** ** Dealer auto-play *)

Lemma flipAt_app (l : list UICard) (c : UICard) (idx : nat) :
  flipAt (idx + List.length l + 1) idx (l ++ [c]) = l ++ [faceUp c].
Proof.
  revert idx. induction l as [|x l IH]; intros idx; cbn [app flipAt List.length].
  - replace (S idx =? idx + 0 + 1)%nat with true
      by (symmetry; apply Nat.eqb_eq; lia).
    reflexivity.
  - replace (S idx =? idx + S (List.length l) + 1)%nat with false
      by (symmetry; apply Nat.eqb_neq; lia).
    f_equal.
    replace (idx + S (List.length l) + 1)%nat
      with (S idx + List.length l + 1)%nat by lia.
    apply IH.
Qed.

Lemma flipLast_app (l : list UICard) (c : UICard) :
  flipLast (l ++ [c]) = l ++ [faceUp c].
Proof.
  unfold flipLast. rewrite length_app. cbn [List.length].
  apply (flipAt_app l c 0).
Qed.

Lemma revealed_app (l l' : list UICard) :
  revealed (l ++ l') = revealed l ++ revealed l'.
Proof.
  unfold revealed. apply filter_app.
Qed.

Lemma sumNonAces_app (pts : string -> Z) (l l' : list string) :
  sumNonAces pts (l ++ l') = sumNonAces pts l + sumNonAces pts l'.
Proof.
  unfold sumNonAces. induction l as [|r l IH]; cbn [app fold_right].
  - lia.
  - destruct (isAce r); lia.
Qed.

Lemma dealerDraw_app (l : list UICard) (idx : nat) :
  dealerDraw l idx = l ++ [faceUp (dealerCardAt idx)].
Proof.
  unfold dealerDraw. apply flipLast_app.
Qed.

(** Every card of the dealer's mock deck is a numeric rank worth 2 or more. *)
Lemma dealerCardAt_rank (idx : nat) :
  isCardRank (rank (dealerCardAt idx)) = true
  /\ isAce (rank (dealerCardAt idx)) = false
  /\ 2 <= specPoints (rank (dealerCardAt idx)).
Proof.
  unfold dealerCardAt. cbn [mockDealerDeck List.length].
  pose proof (Nat.mod_upper_bound idx 5 ltac:(discriminate)) as Hlt.
  destruct (idx mod 5)%nat as [|[|[|[|[|n]]]]];
    try (vm_compute; repeat split; discriminate).
  lia.
Qed.

Lemma cardHand_dealerDraw (l : list UICard) (idx : nat) :
  cardHand l ->
  cardHand (dealerDraw l idx)
  /\ nonAceSum l + 2 <= nonAceSum (dealerDraw l idx)
  /\ revealed (dealerDraw l idx) <> [].
Proof.
  intros Hl. rewrite dealerDraw_app.
  destruct (dealerCardAt_rank idx) as [Hrank [Hace Hpts]].
  unfold cardHand, nonAceSum in *. rewrite revealed_app.
  cbn [revealed filter faceUp isFaceDown negb].
  repeat split.
  - apply Forall_app. split; [exact Hl|]. now constructor.
  - rewrite map_app, sumNonAces_app. cbn [map sumNonAces fold_right].
    change (rank (faceUp (dealerCardAt idx))) with (rank (dealerCardAt idx)).
    rewrite Hace. lia.
  - intros H. now apply app_eq_nil in H as [_ H].
Qed.

Lemma handTotal_ge (aces : nat) (total : Z) : total <= handTotal aces total.
Proof.
  rewrite handTotal_if.
  destruct ((1 <=? Z.of_nat aces) && (total + Z.of_nat aces + 10 <=? 21));
    lia.
Qed.

Lemma calculateHandValue_ge (l : list UICard) :
  cardHand l ->
  revealed l <> [] ->
  exists v, calculateHandValue l = Some v /\ nonAceSum l <= v.
Proof.
  intros Hl Hsome. rewrite (calculateHandValue_total l Hl).
  unfold nonAceSum.
  destruct (revealed l) as [|c rest]; [contradiction|].
  eexists. split; [reflexivity | apply handTotal_ge].
Qed.

Lemma nonAceSum_nonneg (l : list UICard) : cardHand l -> 0 <= nonAceSum l.
Proof.
  intros Hl. apply cardHand_ranks in Hl.
  now destruct (sumNonAces_card _ Hl).
Qed.

(** The loop ends after at most [fuel] passes once [fuel] covers the points
    missing to 17, every pass adding at least 2. *)
Lemma dealerAutoPlay_runs (fuel : nat) :
  forall (l : list UICard) (dv : Z) (idx : nat),
    cardHand l ->
    17 <= nonAceSum l + 2 * Z.of_nat fuel ->
    (dv < 17 -> (1 <= fuel)%nat) ->
    exists k,
      (k <= fuel)%nat
      /\ dealerAutoPlay fuel l dv idx
         = Some (dealerHandAfter k l idx, dealerValueAfter k l dv idx,
                 (idx + k)%nat)
      /\ 17 <= dealerValueAfter k l dv idx
      /\ forall j, (j < k)%nat -> dealerValueAfter j l dv idx < 17.
Proof.
  induction fuel as [|fuel IH]; intros l dv idx Hl Hsum Hdv.
  - exists O. cbn [dealerAutoPlay dealerHandAfter dealerValueAfter].
    destruct (dv <? 17) eqn:E.
    + apply Z.ltb_lt in E. specialize (Hdv E). lia.
    + apply Z.ltb_ge in E. rewrite Nat.add_0_r.
      repeat split; [lia | lia | intros j Hj; lia].
  - cbn [dealerAutoPlay]. destruct (dv <? 17) eqn:E.
    + apply Z.ltb_lt in E.
      destruct (cardHand_dealerDraw l idx Hl) as [Hl' [Hgrow Hsome]].
      destruct (calculateHandValue_ge _ Hl' Hsome) as [v [Hv Hge]].
      destruct (IH (dealerDraw l idx) (dealerRevalue l dv idx) (S idx) Hl')
        as [k [Hk [Hrun [Hend Hbelow]]]].
      * lia.
      * unfold dealerRevalue. rewrite Hv. cbn [orElse]. lia.
      * exists (S k). cbn [dealerHandAfter dealerValueAfter].
        replace (idx + S k)%nat with (S idx + k)%nat by lia.
        repeat split; [lia | exact Hrun | exact Hend |].
        intros [|j] Hj; cbn [dealerValueAfter]; [exact E|].
        apply Hbelow. lia.
    + apply Z.ltb_ge in E. exists O.
      cbn [dealerHandAfter dealerValueAfter]. rewrite Nat.add_0_r.
      repeat split; [lia | exact E | intros j Hj; lia].
Qed.

(** Nine passes always suffice. *)
Lemma dealerAutoPlay_nine (l : list UICard) (dv : Z) (idx : nat) :
  cardHand l ->
  exists k,
    (k <= 9)%nat
    /\ dealerAutoPlay 9 l dv idx
       = Some (dealerHandAfter k l idx, dealerValueAfter k l dv idx,
               (idx + k)%nat)
    /\ 17 <= dealerValueAfter k l dv idx
    /\ forall j, (j < k)%nat -> dealerValueAfter j l dv idx < 17.
Proof.
  intros Hl. apply dealerAutoPlay_runs; [exact Hl | |lia].
  pose proof (nonAceSum_nonneg l Hl). lia.
Qed.

Lemma dealerHandAfter_revealed (k : nat) :
  forall (l : list UICard) (idx : nat),
    revealed l = l -> revealed (dealerHandAfter k l idx) = dealerHandAfter k l idx.
Proof.
  induction k as [|k IH]; intros l idx Hl; cbn [dealerHandAfter]; [exact Hl|].
  apply IH. rewrite dealerDraw_app, revealed_app, Hl. reflexivity.
Qed.

Lemma revealed_faceUp (l : list UICard) :
  revealed (map faceUp l) = map faceUp l.
Proof.
  unfold revealed. induction l as [|c l IH]; [reflexivity|].
  cbn [map filter faceUp isFaceDown negb]. now rewrite IH.
Qed.

(** ** The dealer turn in the event loop *)

Lemma bustEffect_off (s : State) : stage s <> PLAYER_TURN -> bustEffect s = s.
Proof.
  intros H. unfold bustEffect, bustEnabled.
  destruct (Stage_eqb (stage s) PLAYER_TURN) eqn:E; [|reflexivity].
  apply Stage_eqb_eq in E. contradiction.
Qed.

(** A render outside PLAYER_TURN that leaves the player's hand alone only
    restarts the dealer's score timer. *)
Lemma render_quiet (u : Update) (w : World) (g0 : Game) :
  stage (next u) <> PLAYER_TURN ->
  game (next u) = Some g0 ->
  touchedPlayer u = false ->
  render u w
  = mkWorld (next u)
      (if touchedDealer u
       then cancel isDealerScoreTimer (pending w ++ spawned u)
              ++ [(320%N, DealerScoreTimer (dealerCards (next u)))]
       else pending w ++ spawned u)
      (alerts w) (clock w).
Proof.
  intros Hstage Hgame Hplayer. unfold render, runEffects.
  rewrite Hplayer, Hgame, (bustEffect_off _ Hstage). reflexivity.
Qed.

(** A render in which the bust effect stays off. *)
Lemma render_settled (u : Update) (w : World) (g0 : Game) :
  bustEnabled (next u) = false ->
  game (next u) = Some g0 ->
  render u w
  = let q := pending w ++ spawned u in
    let q :=
      if touchedPlayer u
      then cancel isPlayerScoreTimer q
             ++ [(320%N, PlayerScoreTimer (playerCards (next u)))]
      else q in
    let q :=
      if touchedDealer u
      then cancel isDealerScoreTimer q
             ++ [(320%N, DealerScoreTimer (dealerCards (next u)))]
      else q in
    let signal := touchedPlayer u && blackjackSignal (next u) in
    let q := if touchedPlayer u then cancel isBlackjackOff q else q in
    let q := if signal then q ++ [(2400%N, BlackjackOff)] else q in
    mkWorld (if signal then setIsBlackjack true (next u) else next u) q
      (alerts w) (clock w).
Proof.
  intros Hoff Hgame. unfold render, runEffects, bustEffect.
  rewrite Hoff, Hgame. reflexivity.
Qed.


(** *** Inert timers beside one live task *)

Lemma chainPart_app (q q' : list (N * Task)) :
  chainPart (q ++ q') = chainPart q ++ chainPart q'.
Proof.
  unfold chainPart. now rewrite filter_app, map_app.
Qed.

Lemma chainPart_elapse (m : N) (q : list (N * Task)) :
  chainPart (elapse m q) = chainPart q.
Proof.
  unfold chainPart, elapse. induction q as [|[d t] q IH]; [reflexivity|].
  cbn [map filter fst snd]. destruct (negb (inert t)); cbn [map snd];
    now rewrite IH.
Qed.

Lemma chainPart_cancel (kind : Task -> bool) (q : list (N * Task)) :
  (forall t, kind t = true -> inert t = true) ->
  chainPart (cancel kind q) = chainPart q.
Proof.
  intros Hkind. unfold chainPart, cancel.
  induction q as [|[d t] q IH]; [reflexivity|].
  cbn [filter snd]. destruct (kind t) eqn:Hk; cbn [negb].
  - rewrite (Hkind t Hk). cbn [negb]. exact IH.
  - cbn [filter snd]. destruct (negb (inert t)); cbn [map]; now rewrite IH.
Qed.

Lemma soonest_takeDue (q : list (N * Task)) (m : N) :
  soonest q = Some m -> exists t rest, takeDue m q = Some (t, rest).
Proof.
  revert m. induction q as [|[d t] q IH]; intros m Hm; [discriminate|].
  cbn [soonest] in Hm. cbn [takeDue].
  destruct (d =? m)%N eqn:Hd; [now eexists _, _|].
  apply N.eqb_neq in Hd.
  destruct (soonest q) as [m'|]; [|congruence].
  injection Hm as Hm.
  assert (m' = m) by lia. subst m'.
  destruct (IH m eq_refl) as (t' & rest & Htake).
  rewrite Htake. now eexists _, _.
Qed.

Lemma takeDue_length (m : N) (q : list (N * Task)) (t : Task)
    (rest : list (N * Task)) :
  takeDue m q = Some (t, rest) -> List.length q = S (List.length rest).
Proof.
  revert rest. induction q as [|[d t'] q IH]; intros rest H; [discriminate|].
  cbn [takeDue] in H. destruct (d =? m)%N.
  - now injection H as <- <-.
  - destruct (takeDue m q) as [[t1 rest1]|]; [|discriminate].
    injection H as <- <-. cbn [List.length]. f_equal. now apply IH.
Qed.

Lemma chainPart_cons (d : N) (t : Task) (q : list (N * Task)) :
  chainPart ((d, t) :: q)
  = if inert t then chainPart q else t :: chainPart q.
Proof.
  unfold chainPart. cbn [filter snd]. now destruct (inert t).
Qed.

Lemma takeDue_chainPart (m : N) (q : list (N * Task)) (t : Task)
    (rest : list (N * Task)) :
  takeDue m q = Some (t, rest) ->
  if inert t then chainPart rest = chainPart q
  else exists pre post,
         chainPart q = pre ++ t :: post /\ chainPart rest = pre ++ post.
Proof.
  revert rest. induction q as [|[d t'] q IH]; intros rest H; [discriminate|].
  cbn [takeDue] in H. destruct (d =? m)%N.
  - injection H as <- <-. rewrite chainPart_cons.
    destruct (inert t'); [reflexivity|]. now exists [], (chainPart q).
  - destruct (takeDue m q) as [[t1 rest1]|]; [|discriminate].
    injection H as <- <-. specialize (IH rest1 eq_refl).
    rewrite !chainPart_cons.
    destruct (inert t1) eqn:Ht.
    + now rewrite IH.
    + destruct IH as (pre & post & Hq & Hrest). rewrite Hq, Hrest.
      destruct (inert t'); [now exists pre, post|].
      now exists (t' :: pre), post.
Qed.

(** Taking a timer out of a queue whose only live task is [c]. *)
Lemma takeDue_chain (m : N) (q : list (N * Task)) (t c : Task)
    (rest : list (N * Task)) :
  takeDue m q = Some (t, rest) ->
  chainPart q = [c] ->
  (inert t = true /\ chainPart rest = [c])
  \/ (t = c /\ chainPart rest = []).
Proof.
  intros H Hc. pose proof (takeDue_chainPart m q t rest H) as Hpart.
  destruct (inert t).
  - left. split; [reflexivity | congruence].
  - right. destruct Hpart as (pre & post & Hq & Hrest).
    rewrite Hc in Hq. destruct pre as [|x pre].
    + injection Hq as -> <-. now split.
    + injection Hq as _ Hq. now destruct pre.
Qed.

(** A queue with no live task stays so. *)
Lemma takeDue_inert (m : N) (q : list (N * Task)) (t : Task)
    (rest : list (N * Task)) :
  takeDue m q = Some (t, rest) ->
  chainPart q = [] ->
  inert t = true /\ chainPart rest = [].
Proof.
  intros H Hc. pose proof (takeDue_chainPart m q t rest H) as Hpart.
  destruct (inert t).
  - split; [reflexivity | congruence].
  - destruct Hpart as (pre & post & Hq & _). rewrite Hc in Hq.
    now destruct pre.
Qed.

Lemma core_fields (s s' : State) :
  core s' = core s ->
  selectedBet s' = selectedBet s /\ isBetting s' = isBetting s
  /\ playerCards s' = playerCards s /\ dealerCards s' = dealerCards s
  /\ stage s' = stage s /\ result s' = result s
  /\ isPlayerActing s' = isPlayerActing s
  /\ isDealerActing s' = isDealerActing s /\ game s' = game s
  /\ playerDrawIndexRef s' = playerDrawIndexRef s
  /\ dealerDrawIndexRef s' = dealerDrawIndexRef s.
Proof.
  unfold core. intros H. injection H as H1 H2 H3 H4 H5 H6 H7 H8 H9 H10 H11 H12.
  now repeat split.
Qed.

Lemma inert_fires (t : Task) (s : State) (g0 : Game) (w : World) :
  inert t = true ->
  stage s <> PLAYER_TURN ->
  game s = Some g0 ->
  ui w = s ->
  exists s1,
    render (runTask t s) w = mkWorld s1 (pending w) (alerts w) (clock w)
    /\ core s1 = core s.
Proof.
  intros Ht Hstage Hgame Hui.
  destruct t; try discriminate Ht; cbn [runTask];
    (rewrite (render_quiet _ _ g0);
       [| exact Hstage | exact Hgame | reflexivity]);
    cbn [next touchedDealer spawned]; rewrite app_nil_r;
    eexists; (split; [reflexivity|]); reflexivity.
Qed.

Lemma soonest_nonempty (q : list (N * Task)) :
  q <> [] -> exists m, soonest q = Some m.
Proof.
  destruct q as [|[d t] q]; [contradiction|]. intros _. cbn [soonest].
  destruct (soonest q); now eexists.
Qed.

(** With one live task [c] pending outside PLAYER_TURN, the inert timers
    due before it fire without touching the round, and then [c] runs. *)
Lemma live_task_fires (len : nat) :
  forall (w : World) (c : Task) (g0 : Game),
    List.length (pending w) = len ->
    chainPart (pending w) = [c] ->
    stage (ui w) <> PLAYER_TURN ->
    game (ui w) = Some g0 ->
    exists n w0,
      core (ui w0) = core (ui w)
      /\ chainPart (pending w0) = []
      /\ alerts w0 = alerts w
      /\ steps (S n) w = render (runTask c (ui w0)) w0
      /\ forall m, (m <= n)%nat -> core (ui (steps m w)) = core (ui w).
Proof.
  induction len as [|len IH]; intros w c g0 Hlen Hchain Hstage Hgame.
  - destruct (pending w); [discriminate Hchain | discriminate Hlen].
  - assert (Hne : pending w <> []) by (intros E; rewrite E in Hlen; discriminate).
    destruct (soonest_nonempty _ Hne) as [m Hm].
    destruct (soonest_takeDue _ _ Hm) as (t & rest & Htake).
    assert (Hstep : step w
                    = Some (render (runTask t (ui w))
                              (mkWorld (ui w) (elapse m rest) (alerts w)
                                 (clock w + m)%N)))
      by (unfold step; now rewrite Hm, Htake).
    destruct (takeDue_chain _ _ _ _ _ Htake Hchain)
      as [[Hinert Hrest] | [-> Hrest]].
    + destruct (inert_fires t (ui w) g0
                  (mkWorld (ui w) (elapse m rest) (alerts w) (clock w + m)%N)
                  Hinert Hstage Hgame eq_refl) as (s1 & Hrender & Hcore).
      cbn [pending alerts clock] in Hrender.
      destruct (core_fields _ _ Hcore)
        as (_ & _ & _ & _ & Hst & _ & _ & _ & Hg & _ & _).
      destruct (IH (mkWorld s1 (elapse m rest) (alerts w) (clock w + m)%N)
                  c g0) as (n & w0 & H1 & H2 & H3 & H4 & H5).
      * cbn [pending]. unfold elapse. rewrite length_map.
        apply takeDue_length in Htake. lia.
      * cbn [pending]. now rewrite chainPart_elapse.
      * cbn [ui]. now rewrite Hst.
      * cbn [ui]. now rewrite Hg.
      * exists (S n), w0. cbn [ui alerts] in *.
        split; [congruence|]. split; [exact H2|]. split; [exact H3|].
        split.
        -- change (steps (S (S n)) w)
             with (match step w with
                   | Some w' => steps (S n) w'
                   | None => w
                   end).
           rewrite Hstep, Hrender. exact H4.
        -- intros [|k] Hk; [reflexivity|]. cbn [steps].
           rewrite Hstep, Hrender. rewrite H5 by lia. exact Hcore.
    + exists O, (mkWorld (ui w) (elapse m rest) (alerts w) (clock w + m)%N).
      cbn [ui pending alerts].
      split; [reflexivity|]. split; [now rewrite chainPart_elapse|].
      split; [reflexivity|]. split.
      * cbn [steps]. now rewrite Hstep.
      * intros k Hk. replace k with O by lia. reflexivity.
Qed.

(** With only inert timers pending outside PLAYER_TURN, the round no
    longer moves. *)
Lemma round_stable (m : nat) :
  forall (w : World) (g0 : Game),
    chainPart (pending w) = [] ->
    stage (ui w) <> PLAYER_TURN ->
    game (ui w) = Some g0 ->
    core (ui (steps m w)) = core (ui w).
Proof.
  induction m as [|m IH]; intros w g0 Hchain Hstage Hgame; [reflexivity|].
  cbn [steps]. destruct (step w) as [w1|] eqn:Hstep; [|reflexivity].
  unfold step in Hstep.
  destruct (soonest (pending w)) as [d|]; [|discriminate].
  destruct (takeDue d (pending w)) as [[t rest]|] eqn:Htake; [|discriminate].
  injection Hstep as <-.
  destruct (takeDue_inert _ _ _ _ Htake Hchain) as [Hinert Hrest].
  destruct (inert_fires t (ui w) g0
              (mkWorld (ui w) (elapse d rest) (alerts w) (clock w + d)%N)
              Hinert Hstage Hgame eq_refl) as (s1 & Hrender & Hcore).
  rewrite Hrender. cbn [pending alerts clock].
  destruct (core_fields _ _ Hcore)
    as (_ & _ & _ & _ & Hst & _ & _ & _ & Hg & _ & _).
  rewrite (IH _ g0); cbn [ui pending].
  - exact Hcore.
  - now rewrite chainPart_elapse.
  - now rewrite Hst.
  - now rewrite Hg.
Qed.

Lemma steps_stuck (m : nat) (w : World) : step w = None -> steps m w = w.
Proof.
  intros H. destruct m as [|m]; [reflexivity|]. cbn [steps]. now rewrite H.
Qed.

Lemma steps_add (n m : nat) (w : World) :
  steps (n + m) w = steps m (steps n w).
Proof.
  revert w. induction n as [|n IH]; intros w; [reflexivity|].
  cbn [Nat.add steps]. destruct (step w) as [w1|] eqn:Hstep; [apply IH|].
  symmetry. now apply steps_stuck.
Qed.

Lemma headOf_runs (c : Task) (l : list UICard) (dv pv : Z) (g : Game)
    (s : State) :
  headOf c l dv pv g -> runTask c s = dealerLoop l dv pv (Some g) s.
Proof.
  intros [(ps & -> & -> & ->) | (dv0 & -> & ->)]; reflexivity.
Qed.

Lemma dealer_phase (k : nat) :
  forall (w : World) (c : Task) (l : list UICard) (dv : Z) (idx : nat)
         (pv : Z) (g g0 : Game),
    chainPart (pending w) = [c] ->
    headOf c l dv pv g ->
    stage (ui w) = DEALER_TURN ->
    game (ui w) = Some g0 ->
    dealerCards (ui w) = l ->
    dealerDrawIndexRef (ui w) = idx ->
    (forall j, (j < k)%nat -> dealerValueAfter j l dv idx < 17) ->
    17 <= dealerValueAfter k l dv idx ->
    exists n,
      dealerDone pv (dealerValueAfter k l dv idx) g (dealerHandAfter k l idx)
        (idx + k)%nat (ui w) (steps (S n) w)
      /\ forall m, (m <= n)%nat -> dealerPlaying (ui w) (ui (steps m w)).
Proof.
  induction k as [|k IH];
    intros w c l dv idx pv g g0 Hchain Hhead Hstage Hgame Hcards Hidx
      Hbelow Hend.
  - cbn [dealerValueAfter dealerHandAfter] in *.
    assert (Hw : stage (ui w) <> PLAYER_TURN) by (rewrite Hstage; discriminate).
    destruct (live_task_fires _ w c g0 eq_refl Hchain Hw Hgame)
      as (n & w0 & Hcore & Hq & Hal & Hsteps & Hbefore).
    destruct (core_fields _ _ Hcore)
      as (F1 & F2 & F3 & F4 & F5 & F6 & F7 & F8 & F9 & F10 & F11).
    exists n. split.
    + rewrite Hsteps, (headOf_runs _ _ _ _ _ _ Hhead). unfold dealerLoop.
      replace (dv <? 17) with false by (symmetry; apply Z.ltb_ge; exact Hend).
      erewrite render_quiet;
        [| cbn; discriminate | reflexivity | reflexivity].
      unfold dealerDone, samePlayerSide. cbn. rewrite app_nil_r, Nat.add_0_r.
      repeat split; first [exact Hq | congruence].
    + intros m Hm. destruct (core_fields _ _ (Hbefore m Hm))
        as (_ & _ & _ & _ & B5 & B6 & _ & _ & B9 & _ & _).
      unfold dealerPlaying. repeat split; congruence.
  - assert (Hlow : dv < 17) by (apply (Hbelow O); lia).
    assert (Hw : stage (ui w) <> PLAYER_TURN) by (rewrite Hstage; discriminate).
    destruct (live_task_fires _ w c g0 eq_refl Hchain Hw Hgame)
      as (n1 & w0 & Hcore & Hq & Hal & Hsteps & Hbefore).
    destruct (core_fields _ _ Hcore)
      as (F1 & F2 & F3 & F4 & F5 & F6 & F7 & F8 & F9 & F10 & F11).
    set (l1 := l ++ [parseCard (nth (idx mod List.length mockDealerDeck)
                                  mockDealerDeck EmptyString) true]).
    set (s1 := setDealerCards l1 (setDealerDrawIndexRef (S idx) (ui w0))).
    set (W1 := mkWorld s1
                 (cancel isDealerScoreTimer
                    (pending w0 ++ [(450%N, DealerFlip l1 dv pv (Some g))])
                    ++ [(320%N, DealerScoreTimer l1)])
                 (alerts w0) (clock w0)).
    assert (HW1 : steps (S n1) w = W1).
    { rewrite Hsteps, (headOf_runs _ _ _ _ _ _ Hhead).
      unfold dealerLoop, drawNextDealerCard.
      replace (dv <? 17) with true by (symmetry; apply Z.ltb_lt; exact Hlow).
      rewrite F11, Hidx. fold l1. fold s1.
      rewrite (render_quiet _ _ g0);
        [reflexivity | cbn; rewrite F5, Hstage; discriminate
        | cbn; congruence | reflexivity]. }
    assert (Hchain1 : chainPart (pending W1)
                      = [DealerFlip l1 dv pv (Some g)]).
    { subst W1. cbn [pending].
      rewrite chainPart_app, chainPart_cancel, chainPart_app, Hq;
        [reflexivity|].
      intros t Ht. now destruct t. }
    assert (Hs1 : stage s1 <> PLAYER_TURN)
      by (subst s1; cbn; rewrite F5, Hstage; discriminate).
    assert (Hg1 : game s1 = Some g0) by (subst s1; cbn; congruence).
    destruct (live_task_fires _ W1 _ g0 eq_refl Hchain1 Hs1 Hg1)
      as (n2 & w1 & Hcore1 & Hq1 & Hal1 & Hsteps1 & Hbefore1).
    destruct (core_fields _ _ Hcore1)
      as (G1 & G2 & G3 & G4 & G5 & G6 & G7 & G8 & G9 & G10 & G11).
    change (ui W1) with s1 in G1, G2, G3, G4, G5, G6, G7, G8, G9, G10, G11,
      Hbefore1.
    set (l2 := flipLast l1) in *.
    set (s2 := setDealerCards l2 (ui w1)).
    set (W2 := mkWorld s2
                 (cancel isDealerScoreTimer
                    (pending w1 ++ [(450%N, DealerNext l2 dv pv (Some g))])
                    ++ [(320%N, DealerScoreTimer l2)])
                 (alerts w1) (clock w1)).
    assert (HW2 : steps (S n2) W1 = W2).
    { rewrite Hsteps1. cbn [runTask]. fold l2. fold s2.
      rewrite (render_quiet _ _ g0);
        [reflexivity | cbn; rewrite G5; exact Hs1
        | cbn; congruence | reflexivity]. }
    assert (Hchain2 : chainPart (pending W2)
                      = [DealerNext l2 dv pv (Some g)]).
    { subst W2. cbn [pending].
      rewrite chainPart_app, chainPart_cancel, chainPart_app, Hq1;
        [reflexivity|].
      intros t Ht. now destruct t. }
    assert (Hstage2 : stage (ui W2) = DEALER_TURN)
      by (subst W2 s2 s1; cbn in *; congruence).
    assert (Hgame2 : game (ui W2) = Some g0)
      by (subst W2 s2; cbn; congruence).
    assert (Hidx2 : dealerDrawIndexRef (ui W2) = S idx)
      by (subst W2 s2 s1; cbn in *; congruence).
    destruct (IH W2 _ (dealerDraw l idx) (dealerRevalue l dv idx) (S idx) pv
                g g0 Hchain2)
      as (n3 & Hdone & Hbefore3); try assumption.
    { right. exists dv. split; reflexivity. }
    { reflexivity. }
    { intros j Hj. apply (Hbelow (S j)). lia. }
    exists (n1 + S n2 + S n3)%nat.
    assert (Hall : steps (S (n1 + S n2 + S n3)) w = steps (S n3) W2).
    { replace (S (n1 + S n2 + S n3)) with (S n1 + (S n2 + S n3))%nat by lia.
      now rewrite steps_add, HW1, steps_add, HW2. }
    split.
    + rewrite Hall. cbn [dealerValueAfter dealerHandAfter].
      replace (idx + S k)%nat with (S idx + k)%nat by lia.
      assert (Hside : samePlayerSide (ui w) (ui W2)).
      { unfold samePlayerSide. subst W2 s2 s1. cbn in *.
        repeat split; congruence. }
      destruct Hside as (S1 & S2 & S3 & S4 & S5).
      destruct Hdone as (D1 & D2 & D3 & D4 & D5 & D6 & D7 & D8).
      destruct D8 as (P1 & P2 & P3 & P4 & P5).
      unfold dealerDone, samePlayerSide.
      repeat split; congruence.
    + intros m Hm. unfold dealerPlaying.
      destruct (Nat.le_gt_cases m n1) as [H1 | H1].
      { destruct (core_fields _ _ (Hbefore m H1))
          as (_ & _ & _ & _ & B5 & B6 & _ & _ & B9 & _ & _).
        repeat split; congruence. }
      destruct (Nat.le_gt_cases m (n1 + S n2)) as [H2 | H2].
      { replace m with (S n1 + (m - S n1))%nat by lia.
        rewrite steps_add, HW1.
        destruct (core_fields _ _ (Hbefore1 (m - S n1)%nat ltac:(lia)))
          as (_ & _ & _ & _ & B5 & B6 & _ & _ & B9 & _ & _).
        subst s1. cbn in B5, B6, B9. repeat split; congruence. }
      replace m with (S n1 + (S n2 + (m - S n1 - S n2)))%nat by lia.
      rewrite steps_add, HW1, steps_add, HW2.
      destruct (Hbefore3 (m - S n1 - S n2)%nat ltac:(lia)) as (B5 & B6 & B9).
      assert (Hview : result (ui W2) = result (ui w)
                      /\ game (ui W2) = game (ui w)).
      { subst W2 s2 s1. cbn in *. split; congruence. }
      destruct Hview as (V1 & V2).
      repeat split; congruence.
Qed.

(** ** Stand *)

Lemma cardHand_faceUp (cards : list UICard) :
  cardRanked cards -> cardHand (map faceUp cards).
Proof.
  unfold cardRanked, cardHand. rewrite revealed_faceUp. intros H.
  apply Forall_map. exact H.
Qed.

Lemma playerMayAct_unblocked (w : World) :
  playerMayAct w -> actionBlocked (ui w) = false.
Proof.
  intros (_ & Hstage & Hb & Hp & Hd). unfold actionBlocked.
  now rewrite Hstage, Hb, Hp, Hd.
Qed.

Lemma steps_succ_add (n m : nat) (w : World) :
  (S n <= m)%nat -> steps m w = steps (m - S n) (steps (S n) w).
Proof.
  intros H. rewrite <- steps_add. f_equal. lia.
Qed.

(** Stand: the dealer's hand is turned up at once, played as
    [dealerValueAfter] says and settled; nothing moves afterwards. *)
Lemma stand_runs (w : World) (g : Game) :
  playerMayAct w ->
  game (ui w) = Some g ->
  cardRanked (dealerCards (ui w)) ->
  let l0 := map faceUp (dealerCards (ui w)) in
  let dv0 := orElse (calculateHandValue l0) 0 in
  let pv := orElse (calculateHandValue (revealed (playerCards (ui w)))) 0 in
  let idx := dealerDrawIndexRef (ui w) in
  let W := click ClickStand w in
  stage (ui W) = DEALER_TURN
  /\ dealerCards (ui W) = l0
  /\ exists k n,
       (k <= 9)%nat
       /\ dealerAutoPlay 9 l0 dv0 idx
          = Some (dealerHandAfter k l0 idx, dealerValueAfter k l0 dv0 idx,
                  (idx + k)%nat)
       /\ 17 <= dealerValueAfter k l0 dv0 idx
       /\ (forall j, (j < k)%nat -> dealerValueAfter j l0 dv0 idx < 17)
       /\ (forall m, (m <= n)%nat -> dealerPlaying (ui w) (ui (steps m W)))
       /\ forall m,
            (S n <= m)%nat ->
            stage (ui (steps m W)) = RESULT
            /\ result (ui (steps m W))
               = Some (decideOutcome pv (dealerValueAfter k l0 dv0 idx))
            /\ game (ui (steps m W))
               = calculatePayout (Some g)
                   (decideOutcome pv (dealerValueAfter k l0 dv0 idx))
            /\ dealerCards (ui (steps m W)) = dealerHandAfter k l0 idx
            /\ dealerDrawIndexRef (ui (steps m W)) = (idx + k)%nat
            /\ samePlayerSide (ui w) (ui (steps m W)).
Proof.
  intros Hready Hgame Hranks l0 dv0 pv idx W.
  pose proof (playerMayAct_unblocked w Hready) as Hfree.
  destruct Hready as (Hpending & Hstage & _).
  set (sA := setDealerCards l0
               (setIsDealerActing true (setStage DEALER_TURN (ui w)))).
  set (c := DealerReveal l0 (playerCards (ui w)) (Some g)).
  assert (HW : W = mkWorld sA
                 (cancel isDealerScoreTimer (pending w ++ [(650%N, c)])
                    ++ [(320%N, DealerScoreTimer l0)])
                 (alerts w) (clock w)).
  { subst W. unfold click. cbn [handle]. unfold handleStand.
    rewrite Hfree, Hgame. unfold runDealerTurn.
    rewrite (render_quiet _ _ g);
      [reflexivity | cbn; discriminate | cbn; exact Hgame | reflexivity]. }
  assert (Hchain : chainPart (pending W) = [c]).
  { rewrite HW. cbn [pending].
    rewrite chainPart_app, chainPart_cancel, chainPart_app, Hpending;
      [reflexivity|].
    intros t Ht. now destruct t. }
  destruct (dealerAutoPlay_nine l0 dv0 idx (cardHand_faceUp _ Hranks))
    as [k [Hk [Hauto [Hend Hbelow]]]].
  destruct (dealer_phase k W c l0 dv0 idx pv g g Hchain)
    as (n & Hdone & Hbefore); try assumption;
    try (rewrite HW; reflexivity).
  { left. exists (playerCards (ui w)). repeat split. }
  { rewrite HW. cbn. exact Hgame. }
  split; [rewrite HW; reflexivity|]. split; [rewrite HW; reflexivity|].
  exists k, n.
  split; [exact Hk|]. split; [exact Hauto|].
  split; [exact Hend|]. split; [exact Hbelow|].
  assert (Hview : result (ui W) = result (ui w) /\ game (ui W) = game (ui w)
                  /\ samePlayerSide (ui w) (ui W)).
  { rewrite HW. unfold samePlayerSide. cbn. now repeat split. }
  destruct Hview as (V1 & V2 & V3 & V4 & V5 & V6 & V7).
  split.
  - intros m Hm. destruct (Hbefore m Hm) as (B1 & B2 & B3).
    unfold dealerPlaying. repeat split; congruence.
  - intros m Hm.
    destruct Hdone as (D1 & D2 & D3 & D4 & D5 & D6 & D7 & D8).
    destruct D8 as (P1 & P2 & P3 & P4 & P5).
    assert (Hstable : core (ui (steps m W)) = core (ui (steps (S n) W))).
    { rewrite (steps_succ_add n m W Hm).
      destruct (calculatePayout (Some g)
                  (decideOutcome pv (dealerValueAfter k l0 dv0 idx)))
        as [g1|] eqn:Hpay; [|discriminate Hpay].
      apply (round_stable _ _ g1); [exact D1 | | exact D4].
      rewrite D2. discriminate. }
    destruct (core_fields _ _ Hstable)
      as (F1 & F2 & F3 & F4 & F5 & F6 & F7 & F8 & F9 & F10 & F11).
    unfold samePlayerSide. repeat split; congruence.
Qed.

(** ** Double *)

Lemma calculateHandValue_revealed (l : list UICard) :
  calculateHandValue (revealed l) = calculateHandValue l.
Proof.
  unfold calculateHandValue. now rewrite revealed_idem.
Qed.

Lemma calculateHandValue_hidden (l : list UICard) (c : UICard) :
  isFaceDown c = true -> calculateHandValue (l ++ [c]) = calculateHandValue l.
Proof.
  intros Hc. rewrite <- (calculateHandValue_revealed (l ++ [c])),
    <- (calculateHandValue_revealed l), revealed_app.
  cbn [revealed filter]. rewrite Hc. cbn [negb]. now rewrite app_nil_r.
Qed.


Lemma step_score_first (s : State) (signal : bool) (a b : Task)
    (al : list string) (clk : N) :
  step (mkWorld s ([(450%N, a); (320%N, b)] ++ withSignal signal 2400) al clk)
  = Some (render (runTask b s)
            (mkWorld s ([(130%N, a)] ++ withSignal signal 2080) al
               (clk + 320)%N)).
Proof.
  destruct signal; reflexivity.
Qed.

Lemma step_flip_next (s : State) (signal : bool) (a : Task)
    (al : list string) (clk : N) :
  step (mkWorld s ([(130%N, a)] ++ withSignal signal 2080) al clk)
  = Some (render (runTask a s)
            (mkWorld s (withSignal signal 1950) al (clk + 130)%N)).
Proof.
  destruct signal; reflexivity.
Qed.

Lemma playerTimers_cleared (q : list (N * Task)) (a b : N * Task) :
  playerTimers q ->
  isPlayerScoreTimer (snd a) = false ->
  isBlackjackOff (snd a) = false ->
  isBlackjackOff (snd b) = false ->
  cancel isBlackjackOff (cancel isPlayerScoreTimer (q ++ [a]) ++ [b])
  = [a; b].
Proof.
  intros Hq Ha1 Ha2 Hb. unfold cancel.
  induction Hq as [|[d t] q Ht _ IH]; cbn [app filter snd] in *.
  - rewrite Ha1. cbn [negb app filter]. now rewrite Ha2, Hb.
  - destruct (isPlayerScoreTimer t); cbn [negb]; [exact IH|].
    cbn [app filter snd]. cbn [orb] in Ht. rewrite Ht. cbn [negb]. exact IH.
Qed.


Lemma dealerHandAfter_succ (j : nat) :
  forall (l : list UICard) (idx : nat),
    dealerHandAfter (S j) l idx
    = dealerHandAfter j l idx ++ [faceUp (dealerCardAt (idx + j))].
Proof.
  induction j as [|j IH]; intros l idx.
  - cbn [dealerHandAfter]. rewrite Nat.add_0_r. apply dealerDraw_app.
  - change (dealerHandAfter (S (S j)) l idx)
      with (dealerHandAfter (S j) (dealerDraw l idx) (S idx)).
    rewrite IH. cbn [dealerHandAfter].
    now replace (S idx + j)%nat with (idx + S j)%nat by lia.
Qed.


(** ** Claims about the dealer turn *)

(** C7. On stand the controller first turns up every card of the dealer,
    then draws and flips one card of the deck at a time while the dealer's
    value is below 17; the loop ends after at most nine draws (nine passes
    of fuel are enough for [dealerAutoPlay]), at the first value that is 17
    or more, whether or not it exceeds 21; the round is then in RESULT and
    the dealer's hand no longer changes. *)
Theorem dealer_draws_to_17 (w : World) (g : Game) :
  playerMayAct w ->
  game (ui w) = Some g ->
  cardRanked (dealerCards (ui w)) ->
  let l0 := map faceUp (dealerCards (ui w)) in
  let dv0 := orElse (calculateHandValue l0) 0 in
  let idx := dealerDrawIndexRef (ui w) in
  let W := click ClickStand w in
  (stage (ui W) = DEALER_TURN /\ dealerCards (ui W) = l0
   /\ revealed l0 = l0)
  /\ exists k n,
       (k <= 9)%nat
       /\ dealerAutoPlay 9 l0 dv0 idx
          = Some (dealerHandAfter k l0 idx, dealerValueAfter k l0 dv0 idx,
                  (idx + k)%nat)
       /\ (forall j, (j < k)%nat ->
              dealerValueAfter j l0 dv0 idx < 17
              /\ dealerHandAfter (S j) l0 idx
                 = dealerHandAfter j l0 idx
                     ++ [faceUp (dealerCardAt (idx + j))])
       /\ 17 <= dealerValueAfter k l0 dv0 idx
       /\ revealed (dealerHandAfter k l0 idx) = dealerHandAfter k l0 idx
       /\ (forall m, (m <= n)%nat -> stage (ui (steps m W)) = DEALER_TURN)
       /\ forall m,
            (S n <= m)%nat ->
            stage (ui (steps m W)) = RESULT
            /\ dealerCards (ui (steps m W)) = dealerHandAfter k l0 idx
            /\ dealerDrawIndexRef (ui (steps m W)) = (idx + k)%nat.
Proof.
  intros Hready Hgame Hranks l0 dv0 idx W.
  destruct (stand_runs w g Hready Hgame Hranks)
    as (Hstage & Hcards & k & n & Hk & Hauto & Hend & Hbelow & Hbefore
        & Hafter).
  fold l0 dv0 idx W in Hstage, Hcards, Hauto, Hend, Hbelow, Hbefore, Hafter.
  split; [repeat split; [exact Hstage | exact Hcards | apply revealed_faceUp]|].
  exists k, n.
  split; [exact Hk|]. split; [exact Hauto|]. split.
  { intros j Hj. split; [now apply Hbelow | apply dealerHandAfter_succ]. }
  split; [exact Hend|]. split.
  { apply dealerHandAfter_revealed, revealed_faceUp. }
  split.
  - intros m Hm. apply (Hbefore m Hm).
  - intros m Hm. destruct (Hafter m Hm) as (A1 & _ & _ & A4 & A5 & _).
    now repeat split.
Qed.



End Properties.

(** * The claims at concrete hands and rounds *)

(** A lone five is worth 5, not 15. *)
Lemma closed_form_fails_without_ace :
  calculateHandValue [mkCard "5" "clubs/club" false] = Some 5
  /\ acesClosedForm ["5"] = 15
  /\ calculateHandValue [mkCard "5" "clubs/club" false]
     <> Some (acesClosedForm ["5"]).
Proof.
  repeat split; try reflexivity. vm_compute. discriminate.
Qed.

Lemma sampleHand_cards : cardHand sampleHand.
Proof.
  unfold cardHand. repeat constructor.
Qed.


Lemma calculateHandValue_aces_witness :
  cardHand sampleHand
  /\ revealed sampleHand <> []
  /\ calculateHandValue sampleHand = Some (9 + 2 + 10).
Proof.
  split; [exact sampleHand_cards|].
  split; [discriminate|].
  exact (proj1 (calculateHandValue_aces sampleHand sampleHand_cards
                  (fun H => eq_ind (revealed sampleHand)
                      (fun l => match l with [] => False | _ => True end)
                      I [] H))).
Defined.

Lemma table_ready (ds : list UICard) (d c : Z) : playerMayAct (table ds d c).
Proof.
  repeat split.
Qed.




Lemma drawingDealer_ranked : cardRanked drawingDealer.
Proof.
  repeat constructor.
Qed.

(** Scenario A: the mocked deal gives the player A K (21) against 10 and a
    hidden 7; on stand the dealer shows 17 and stops, and the player wins
    the bet. *)
Example mocked_round_stand :
  pending dealt = [(1450%N, BlackjackOff)]
  /\ playerScore (ui dealt) = Some 21
  /\ (let w := steps 2 (click ClickStand dealt) in
      stage (ui w) = RESULT
      /\ result (ui w) = Some (mkResult WIN "點數較高")
      /\ option_map (fun g => chips (player g)) (game (ui w)) = Some 10100).
Proof.
  vm_compute. repeat split; reflexivity.
Qed.

(** Scenario B: the score cell reaches 24 in PLAYER_TURN; the round goes to
    RESULT with LOSE (bust) and the bet is taken. *)
Example bust_in_player_turn :
  match step aboutToBust with
  | Some w =>
      playerScore (ui w) = Some 24 /\ stage (ui w) = RESULT
      /\ result (ui w) = Some (mkResult LOSE "爆牌")
      /\ option_map (fun g => chips (player g)) (game (ui w)) = Some 9900
  | None => False
  end.
Proof.
  vm_compute. repeat split; reflexivity.
Qed.

(** Scenario C: a double on 10 and 9 draws the 5; the round goes through
    DEALER_TURN and ends LOSE by the dealer-turn rule.  The payout is on the
    game captured at the click: 100, not 200. *)
Example double_into_bust :
  let w := click ClickDouble (table standingDealer 10 10000) in
  option_map (fun g => bet (player g)) (game (ui w)) = Some 200
  /\ stage (ui (steps 3 w)) = DEALER_TURN
  /\ playerScore (ui (steps 4 w)) = Some 24
  /\ result (ui (steps 5 w)) = None
  /\ result (ui (steps 6 w)) = Some (mkResult LOSE "玩家爆牌")
  /\ game (ui (steps 6 w))
     = Some (mkGame 1 BET (mkPlayer 9900 ["10♠"; "9♦"] 100)
               (mkDealer 999999 [])).
Proof.
  vm_compute. repeat split; reflexivity.
Qed.

(** A dealer at 9 draws 3, 4 and 9 and ends at 25. *)
Example dealer_draws_past_21 :
  let w := click ClickStand (table drawingDealer 4 10000) in
  map rank (dealerCards (ui (steps 14 w)))
  = ["4"; "5"; "3"; "4"; "9"]
  /\ dealerValueAfter 2
       (map faceUp drawingDealer) 9 0 = 16
  /\ dealerValueAfter 3
       (map faceUp drawingDealer) 9 0 = 25
  /\ result (ui (steps 14 w))
     = Some (mkResult WIN "莊家爆牌").
Proof.
  vm_compute. repeat split; reflexivity.
Qed.

(** The score cell follows the hand 320 ms after a flip, the busy flag
    drops 150 ms after it: 600 ms after a hit that takes the hand to 25 the
    cell still reads 16 and a further hit is accepted. *)
Example hit_before_score_refresh :
  match wait 10 600 (click ClickHit dealt) with
  | Some w1 =>
      match wait 10 600 (click ClickHit w1) with
      | Some w2 =>
          calculateHandValue (playerCards (ui w2)) = Some 25
          /\ playerScore (ui w2) = Some 16
          /\ offered ClickHit (ui w2) = true
          /\ List.length (playerCards (ui (click ClickHit w2)))
             = 5%nat
      | None => False
      end
  | None => False
  end.
Proof.
  vm_compute. repeat split; reflexivity.
Qed.




Lemma double_rejected_witness :
  stage (ui (table standingDealer 10 150)) = PLAYER_TURN
  /\ (List.length (revealed (playerCards (ui (table standingDealer 10 150))))
      <> 2%nat
      \/ exists g,
           game (ui (table standingDealer 10 150)) = Some g
           /\ chips (player g)
              < currentBet g (selectedBet (ui (table standingDealer 10 150)))
                * 2)
  /\ ui (click ClickDouble (table standingDealer 10 150))
     = ui (table standingDealer 10 150)
  /\ alerts (click ClickDouble (table standingDealer 10 150))
     = ["籌碼不足，不能雙倍！"].
Proof.
  assert (Hwhy :
    List.length (revealed (playerCards (ui (table standingDealer 10 150))))
    <> 2%nat
    \/ exists g,
         game (ui (table standingDealer 10 150)) = Some g
         /\ chips (player g)
            < currentBet g (selectedBet (ui (table standingDealer 10 150)))
              * 2).
  { right. exists (tableGame 150). split; [reflexivity|]. reflexivity. }
  split; [reflexivity|]. split; [exact Hwhy|].
  split; [|reflexivity].
  exact (proj1 (proj2
           (double_rejected (table standingDealer 10 150)
              eq_refl Hwhy))).
Defined.

Lemma dealer_draws_to_17_witness :
  playerMayAct (table drawingDealer 4 10000)
  /\ game (ui (table drawingDealer 4 10000)) = Some (tableGame 10000)
  /\ cardRanked (dealerCards (ui (table drawingDealer 4 10000)))
  /\ stage (ui (click ClickStand (table drawingDealer 4 10000)))
     = DEALER_TURN
  /\ dealerCards
       (ui (click ClickStand (table drawingDealer 4 10000)))
     = map faceUp drawingDealer.
Proof.
  split; [apply table_ready|].
  split; [reflexivity|].
  split; [exact drawingDealer_ranked|].
  destruct (dealer_draws_to_17 (table drawingDealer 4 10000) (tableGame 10000)
              (table_ready _ _ _) eq_refl drawingDealer_ranked)
    as [(Hstage & Hcards & _) _].
  split; [exact Hstage | exact Hcards].
Defined.

Lemma blocked_action_ignored_witness :
  (ClickHit = ClickHit \/ ClickHit = ClickStand \/ ClickHit = ClickDouble)
  /\ (stage (ui dealing) <> PLAYER_TURN \/ isBetting (ui dealing) = true
      \/ isPlayerActing (ui dealing) = true
      \/ isDealerActing (ui dealing) = true)
  /\ click ClickHit dealing = dealing.
Proof.
  assert (Hblocked :
    stage (ui dealing) <> PLAYER_TURN \/ isBetting (ui dealing) = true
    \/ isPlayerActing (ui dealing) = true
    \/ isDealerActing (ui dealing) = true)
    by (right; left; reflexivity).
  split; [left; reflexivity|]. split; [exact Hblocked|].
  exact (proj2 (blocked_action_ignored ClickHit dealing
                  (or_introl eq_refl) Hblocked)).
Defined.

Lemma reset_clears_round_witness :
  stage (ui settledRound) = RESULT
  /\ game (ui settledRound) = Some settledGame
  /\ stage (ui (click ClickReset settledRound)) = READY
  /\ game (ui (click ClickReset settledRound))
     = Some (mkGame 1 NEW (mkPlayer 10100 ["A♥"; "K♠"] 0)
               (mkDealer 999999 ["10♦"; "7♣"])).
Proof.
  split; [reflexivity|]. split; [reflexivity|].
  destruct (reset_clears_round settledRound settledGame
              eq_refl eq_refl)
    as (_ & _ & _ & _ & _ & _ & Hstage & Hgame).
  split; [exact Hstage | exact Hgame].
Defined.

(** * Further properties of the page *)

(** ** Cards and their pictures *)

Lemma allContinuation_app (a b : string) :
  allContinuation (a ++ b)%string = allContinuation a && allContinuation b.
Proof.
  induction a as [|c a IH]; cbn; [reflexivity|].
  now rewrite IH, andb_assoc.
Qed.

(** A string followed by one character splits at that character. *)
Lemma splitLast_app (r : string) (c : ascii) (rest : string) :
  isContinuation c = false ->
  allContinuation rest = true ->
  splitLast (r ++ String c rest)%string = (r, String c rest).
Proof.
  intros Hc Hrest. induction r as [|x r IH].
  - cbn [String.append splitLast]. now rewrite Hrest.
  - cbn [String.append splitLast].
    rewrite allContinuation_app. cbn [allContinuation]. rewrite Hc.
    rewrite andb_false_l, andb_false_r. now rewrite IH.
Qed.

Lemma splitLast_suit (r sym : string) :
  In sym suitSymbols -> splitLast (r ++ sym)%string = (r, sym).
Proof.
  intros H. unfold suitSymbols in H. cbn [In] in H.
  destruct H as [<-|[<-|[<-|[<-|[]]]]]; now apply splitLast_app.
Qed.

Lemma folderMap_ascii (a : ascii) :
  (N_of_ascii a < 128)%N ->
  folderMap (String a EmptyString) = "undefined"
  /\ fileMap (String a EmptyString) = "undefined".
Proof.
  intros _. unfold folderMap, fileMap. cbn [String.eqb].
  repeat match goal with
         | |- context [Ascii.eqb ?x ?y] => destruct (Ascii.eqb x y)
         end; split; reflexivity.
Qed.

Lemma isContinuation_ascii (a : ascii) :
  (N_of_ascii a < 128)%N -> isContinuation a = false.
Proof.
  intros H. unfold isContinuation.
  destruct (128 <=? N_of_ascii a)%N eqn:E; [|reflexivity].
  apply N.leb_le in E. lia.
Qed.

(** X1. [parseCard] splits a card string at its last character: for every
    rank text it returns that text as the rank and the folder and file name
    of the suit, for each of the four suit symbols.  A string that ends in
    an ASCII character instead, and the empty string, get the suit
    [undefined/undefined], the two missing keys printed by the template. *)
Theorem parseCard_reads_suit (r : string) (faceDown : bool) :
  parseCard (r ++ "♠") faceDown = mkCard r "spades/spade" faceDown
  /\ parseCard (r ++ "♥") faceDown = mkCard r "hearts/heart" faceDown
  /\ parseCard (r ++ "♦") faceDown = mkCard r "diamonds/diamond" faceDown
  /\ parseCard (r ++ "♣") faceDown = mkCard r "clubs/club" faceDown
  /\ (forall a : ascii,
        (N_of_ascii a < 128)%N ->
        parseCard (r ++ String a EmptyString) faceDown
        = mkCard r "undefined/undefined" faceDown)
  /\ parseCard EmptyString faceDown
     = mkCard EmptyString "undefined/undefined" faceDown.
Proof.
  repeat split.
  1-4: unfold parseCard; rewrite splitLast_suit;
       [reflexivity | cbn; tauto].
  - intros a Ha. unfold parseCard.
    rewrite splitLast_app;
      [|now apply isContinuation_ascii|reflexivity].
    destruct (folderMap_ascii a Ha) as [-> ->]. reflexivity.
Qed.

Lemma splitSlash_suitPaths (sym : string) :
  In sym suitSymbols ->
  splitSlash (folderMap sym ++ "/" ++ fileMap sym)
  = [folderMap sym; fileMap sym]
  /\ In (folderMap sym ++ "/" ++ fileMap sym)%string suitPaths.
Proof.
  intros H. unfold suitSymbols in H. cbn [In] in H.
  destruct H as [<-|[<-|[<-|[<-|[]]]]]; vm_compute; split; tauto.
Qed.

(** X2. The picture of a parsed card: for every rank text and suit
    symbol, [Card] applied to what [parseCard] returns is never [null]; its
    source is [/cards/<folder>/<rank>_<file>.png] and its alternative text
    [<rank> of <file>]. *)
Theorem Card_of_parsed (r sym : string) (faceDown : bool) (size : CardSize) :
  In sym suitSymbols ->
  let c := parseCard (r ++ sym) faceDown in
  In (suit c) suitPaths
  /\ exists img,
       Card (rank c) (suit c) size = Some img
       /\ src img
          = ("/cards/" ++ folderMap sym ++ "/" ++ r ++ "_" ++ fileMap sym
             ++ ".png")%string
       /\ alt img = (r ++ " of " ++ fileMap sym)%string.
Proof.
  intros Hsym. cbv zeta. unfold parseCard. rewrite (splitLast_suit r sym Hsym).
  cbn [rank suit]. destruct (splitSlash_suitPaths sym Hsym) as [Hsplit Hin].
  split; [exact Hin|].
  unfold Card. rewrite Hsplit.
  destruct (folderMap sym ++ "/" ++ fileMap sym)%string eqn:E.
  - exfalso. unfold suitSymbols in Hsym. cbn [In] in Hsym.
    destruct Hsym as [<-|[<-|[<-|[<-|[]]]]]; discriminate E.
  - eexists. split; [reflexivity|]. split; reflexivity.
Qed.

Lemma deck_card_parses (card : string) :
  In card mockPlayerDeck \/ In card mockDealerDeck ->
  isCardRank (rank (parseCard card true)) = true
  /\ In (suit (parseCard card true)) suitPaths.
Proof.
  unfold mockPlayerDeck, mockDealerDeck. cbn [In].
  intros [H|H];
    repeat (destruct H as [<-|H]; [vm_compute; split; tauto|]);
    destruct H.
Qed.

(** X3. A draw never runs off its deck: whatever the index, the card
    returned is a card of the mock deck, the index goes up by one, the same
    card comes back six draws later for the player and five for the dealer,
    and the card parses into one of the thirteen ranks and a picture
    suit. *)
Theorem draw_wraps_around (s : State) :
  (In (fst (drawNextPlayerCard s)) mockPlayerDeck
   /\ fst (drawNextPlayerCard
             (setPlayerDrawIndexRef (playerDrawIndexRef s + 6) s))
      = fst (drawNextPlayerCard s)
   /\ playerDrawIndexRef (snd (drawNextPlayerCard s))
      = S (playerDrawIndexRef s))
  /\ (In (fst (drawNextDealerCard s)) mockDealerDeck
      /\ fst (drawNextDealerCard
                (setDealerDrawIndexRef (dealerDrawIndexRef s + 5) s))
         = fst (drawNextDealerCard s)
      /\ dealerDrawIndexRef (snd (drawNextDealerCard s))
         = S (dealerDrawIndexRef s))
  /\ (forall card,
        card = fst (drawNextPlayerCard s)
        \/ card = fst (drawNextDealerCard s) ->
        isCardRank (rank (parseCard card true)) = true
        /\ In (suit (parseCard card true)) suitPaths).
Proof.
  assert (Hp : In (fst (drawNextPlayerCard s)) mockPlayerDeck).
  { unfold drawNextPlayerCard. cbn [fst]. apply nth_In.
    apply Nat.mod_upper_bound. discriminate. }
  assert (Hd : In (fst (drawNextDealerCard s)) mockDealerDeck).
  { unfold drawNextDealerCard. cbn [fst]. apply nth_In.
    apply Nat.mod_upper_bound. discriminate. }
  repeat split; try assumption.
  - unfold drawNextPlayerCard. cbn [fst playerDrawIndexRef setPlayerDrawIndexRef].
    change (List.length mockPlayerDeck) with 6%nat.
    replace (playerDrawIndexRef s + 6)%nat
      with (playerDrawIndexRef s + 1 * 6)%nat by lia.
    now rewrite Nat.Div0.mod_add.
  - unfold drawNextDealerCard. cbn [fst dealerDrawIndexRef setDealerDrawIndexRef].
    change (List.length mockDealerDeck) with 5%nat.
    replace (dealerDrawIndexRef s + 5)%nat
      with (dealerDrawIndexRef s + 1 * 5)%nat by lia.
    now rewrite Nat.Div0.mod_add.
  - destruct H as [-> | ->]; apply deck_card_parses; tauto.
  - destruct H as [-> | ->]; apply deck_card_parses; tauto.
Qed.


(** X5. The outcome rule by totals: a push exactly when the totals are
    equal, also above 21; a win exactly when the player is within 21 and
    the dealer is bust or lower, or when both are bust and the player is
    higher; a loss in the mirrored cases.  So a player above 21 still wins
    against a dealer above 21 with a smaller total. *)
Theorem decideOutcome_by_totals (p d : Z) :
  (outcome (decideOutcome p d) = PUSH <-> p = d)
  /\ (outcome (decideOutcome p d) = WIN
      <-> (p <= 21 /\ (21 < d \/ d < p)) \/ (21 < d /\ d < p))
  /\ (outcome (decideOutcome p d) = LOSE
      <-> (d <= 21 /\ (21 < p \/ p < d)) \/ (21 < p /\ p < d)).
Proof.
  unfold decideOutcome.
  destruct (d >? 21) eqn:E1; destruct (p <=? 21) eqn:E2;
    destruct (p >? 21) eqn:E3; destruct (d <=? 21) eqn:E4;
    destruct (p =? d) eqn:E5; destruct (p >? d) eqn:E6; cbn;
    rewrite ?Z.gtb_ltb in *;
    repeat match goal with
           | H : (_ <? _) = true |- _ => apply Z.ltb_lt in H
           | H : (_ <? _) = false |- _ => apply Z.ltb_ge in H
           | H : (_ <=? _) = true |- _ => apply Z.leb_le in H
           | H : (_ <=? _) = false |- _ => apply Z.leb_gt in H
           | H : (_ =? _) = true |- _ => apply Z.eqb_eq in H
           | H : (_ =? _) = false |- _ => apply Z.eqb_neq in H
           end;
    repeat split; intros; try discriminate; try lia; try reflexivity.
Qed.

Section Coverage.

Context {NM : NumberModel}.

(** ** The value of a hand as it grows *)

Lemma countAces_app (l l' : list string) :
  countAces (l ++ l') = (countAces l + countAces l')%nat.
Proof.
  unfold countAces. now rewrite filter_app, length_app.
Qed.

Lemma specPoints_nonAce (r : string) :
  isCardRank r = true -> isAce r = false -> 2 <= specPoints r <= 10.
Proof.
  intros H Hace. apply isCardRank_In in H. unfold cardRanks in H.
  cbn [faceRanks numericRanks app In] in H.
  repeat (destruct H as [<-|H]; [first [discriminate Hace | vm_compute; split; discriminate]|]).
  destruct H.
Qed.

(** The value of a hand to which one revealed card is added. *)
Lemma calculateHandValue_snoc (cards : list UICard) (c : UICard) (v : Z) :
  cardHand cards ->
  isCardRank (rank c) = true ->
  isFaceDown c = false ->
  calculateHandValue cards = Some v ->
  let p := if isAce (rank c) then 1 else specPoints (rank c) in
  exists v',
    calculateHandValue (cards ++ [c]) = Some v'
    /\ v + p - 10 <= v' <= v + p + (if isAce (rank c) then 10 else 0)
    /\ (21 < v -> v' = v + p).
Proof.
  intros Hhand Hrank Hup Hv. cbv zeta.
  assert (Hhand' : cardHand (cards ++ [c])).
  { unfold cardHand. rewrite revealed_app. apply Forall_app. split; [exact Hhand|].
    unfold revealed. cbn [filter]. rewrite Hup. cbn [negb].
    constructor; [exact Hrank|constructor]. }
  rewrite (calculateHandValue_total _ Hhand').
  rewrite (calculateHandValue_total _ Hhand) in Hv.
  rewrite revealed_app.
  replace (revealed [c]) with [c]
    by (unfold revealed; cbn [filter]; now rewrite Hup).
  destruct (revealed cards) as [|c0 l] eqn:Hrev; [discriminate|].
  rewrite <- Hrev in *. clear Hrev.
  destruct (revealed cards ++ [c]) eqn:E;
    [now destruct (revealed cards)|].
  rewrite <- E. clear E.
  injection Hv as <-.
  rewrite map_app, countAces_app, sumNonAces_app. cbn [map].
  pose proof (cardHand_ranks _ Hhand) as Hranks.
  destruct (sumNonAces_card _ Hranks) as [_ Hs].
  set (s := sumNonAces specPoints (map rank (revealed cards))) in *.
  set (a := countAces (map rank (revealed cards))) in *.
  eexists. split; [reflexivity|].
  rewrite !handTotal_if.
  unfold countAces, sumNonAces. cbn [filter fold_right List.length].
  destruct (isAce (rank c)) eqn:Hace; cbn [List.length].
  - replace (Z.of_nat (a + 1)) with (Z.of_nat a + 1) by lia.
    destruct (1 <=? Z.of_nat a) eqn:E1;
      destruct (s + Z.of_nat a + 10 <=? 21) eqn:E2;
      destruct (1 <=? Z.of_nat a + 1) eqn:E3;
      destruct (s + 0 + (Z.of_nat a + 1) + 10 <=? 21) eqn:E4; cbn [andb];
      repeat match goal with
             | H : (_ <=? _) = true |- _ => apply Z.leb_le in H
             | H : (_ <=? _) = false |- _ => apply Z.leb_gt in H
             end; lia.
  - pose proof (specPoints_nonAce _ Hrank Hace) as Hp.
    replace (Z.of_nat (a + 0)) with (Z.of_nat a) by lia.
    destruct (1 <=? Z.of_nat a) eqn:E1;
      destruct (s + Z.of_nat a + 10 <=? 21) eqn:E2;
      destruct (s + (specPoints (rank c) + 0) + Z.of_nat a + 10 <=? 21) eqn:E4;
      cbn [andb];
      repeat match goal with
             | H : (_ <=? _) = true |- _ => apply Z.leb_le in H
             | H : (_ <=? _) = false |- _ => apply Z.leb_gt in H
             end; lia.
Qed.

(** X6. One more revealed card moves the value of a hand by at least -9
    (an ace falling back from 11 to 1) and at most +11, and a hand above 21
    only grows: no card brings it back. *)
Theorem bust_stays_bust (cards : list UICard) (c : UICard) (v : Z) :
  cardHand cards ->
  isCardRank (rank c) = true ->
  isFaceDown c = false ->
  calculateHandValue cards = Some v ->
  exists v',
    calculateHandValue (cards ++ [c]) = Some v'
    /\ v - 9 <= v' <= v + 11
    /\ (21 < v -> v < v').
Proof.
  intros Hhand Hrank Hup Hv.
  destruct (calculateHandValue_snoc cards c v Hhand Hrank Hup Hv)
    as [v' [Hv' [Hbounds Hbust]]].
  exists v'. split; [exact Hv'|].
  destruct (isAce (rank c)) eqn:Hace.
  - split; [lia|]. intros H. specialize (Hbust H). lia.
  - pose proof (specPoints_nonAce _ Hrank Hace).
    split; [lia|]. intros H0. specialize (Hbust H0). lia.
Qed.

Lemma two_card_blackjack (r1 r2 : string) :
  isCardRank r1 = true ->
  isCardRank r2 = true ->
  handTotal (countAces [r1; r2]) (sumNonAces specPoints [r1; r2]) = 21
  <-> (r1 = "A" /\ In r2 tenRanks) \/ (In r1 tenRanks /\ r2 = "A").
Proof.
  intros H1 H2. apply isCardRank_In in H1. apply isCardRank_In in H2.
  unfold cardRanks in H1, H2. cbn [faceRanks numericRanks app In] in H1, H2.
  unfold tenRanks. cbn [In].
  repeat (destruct H1 as [<-|H1]); try destruct H1;
    repeat (destruct H2 as [<-|H2]); try destruct H2;
    vm_compute; split; intros H;
    first [ discriminate H
          | tauto
          | (repeat match goal with
                    | H : _ \/ _ |- _ => destruct H
                    | H : _ /\ _ |- _ => destruct H
                    | H : False |- _ => destruct H
                    end); discriminate ].
Qed.

Lemma cardHand_revealed (cards : list UICard) :
  cardHand cards -> cardHand (revealed cards).
Proof.
  unfold cardHand. now rewrite revealed_idem.
Qed.

Lemma cancel_none (kind : Task -> bool) (q : list (N * Task)) :
  filter (fun e => kind (snd e)) (cancel kind q) = [].
Proof.
  unfold cancel. induction q as [|e q IH]; [reflexivity|].
  cbn [filter]. destruct (kind (snd e)) eqn:E; cbn [negb filter];
    [exact IH|]. now rewrite E.
Qed.

(** X7. The blackjack effect: the signal is raised exactly when the open
    cards are two, an ace and a card worth ten, in either order.  A render
    that set the player's hand leaves one 2400 ms timer pending when the
    signal is raised and none otherwise, and it never lowers the flag: a
    flag that is up when the hand changes stays up. *)
Theorem blackjack_signal (s : State) :
  cardHand (playerCards s) ->
  (blackjackSignal s = true
   <-> exists c1 c2,
         revealed (playerCards s) = [c1; c2]
         /\ ((rank c1 = "A" /\ In (rank c2) tenRanks)
             \/ (In (rank c1) tenRanks /\ rank c2 = "A")))
  /\ forall (u : Update) (w : World),
       next u = s ->
       touchedPlayer u = true ->
       filter (fun e => isBlackjackOff (snd e)) (pending (render u w))
       = (if blackjackSignal s then [(2400%N, BlackjackOff)] else [])
       /\ isBlackjack (ui (render u w)) = blackjackSignal s || isBlackjack s.
Proof.
  intros Hhand. split.
  - unfold blackjackSignal.
    rewrite (calculateHandValue_total _ (cardHand_revealed _ Hhand)).
    rewrite revealed_idem.
    unfold cardHand in Hhand.
    destruct (revealed (playerCards s)) as [|c1 [|c2 [|c3 l]]] eqn:Hrev;
      cbn [List.length Nat.eqb andb].
    1, 2, 4: split; [discriminate|]; intros (x & y & H & _); discriminate H.
    inversion Hhand as [|? ? H1 Hrest]; subst.
    inversion Hrest as [|? ? H2 _]; subst.
    cbn [map].
    pose proof (two_card_blackjack (rank c1) (rank c2) H1 H2) as Hbj.
    split.
    + intros H. apply Z.eqb_eq in H. exists c1, c2.
      split; [reflexivity|]. now apply Hbj.
    + intros (x & y & Hxy & H). injection Hxy as <- <-.
      apply Z.eqb_eq. now apply Hbj.
  - intros u w <- Htouched. unfold render, runEffects. rewrite Htouched.
    cbn [andb].
    destruct (blackjackSignal (next u)) eqn:Hsig; cbn [pending ui orb].
    + split.
      * rewrite filter_app, cancel_none. reflexivity.
      * now destruct (game (next u)).
    + split.
      * apply cancel_none.
      * unfold bustEffect.
        destruct (bustEnabled (next u)); [|now destruct (game (next u))].
        now destruct (game (next u)).
Qed.

Lemma offered_action (s : State) :
  Stage_eqb (stage s) PLAYER_TURN
  && match result s with None => true | Some _ => false end
  && negb (isBetting s || isPlayerActing s || isDealerActing s) = true ->
  actionBlocked s = false /\ result s = None.
Proof.
  unfold actionBlocked. intros H.
  apply andb_true_iff in H. destruct H as [H Hbusy].
  apply andb_true_iff in H. destruct H as [Hstage Hres].
  rewrite Hstage. apply negb_true_iff in Hbusy.
  apply orb_false_iff in Hbusy. destruct Hbusy as [Hbusy Hd].
  apply orb_false_iff in Hbusy. destruct Hbusy as [Hb Hp].
  rewrite Hb, Hp, Hd. split; [reflexivity|].
  now destruct (result s).
Qed.

Lemma unblocked_offered (s : State) :
  actionBlocked s = false ->
  result s = None ->
  offered ClickHit s = true /\ offered ClickStand s = true.
Proof.
  unfold actionBlocked, offered. intros H ->.
  apply orb_false_iff in H. destruct H as [H Hd].
  apply orb_false_iff in H. destruct H as [H Hp].
  apply orb_false_iff in H. destruct H as [Hs Hb].
  apply negb_false_iff in Hs. rewrite Hs, Hb, Hp, Hd. split; reflexivity.
Qed.

(** X8. The buttons and the guards agree: an enabled Hit or Stand button
    always acts; an enabled Double button, with every card face up, either
    acts or raises the alert for missing chips; and while no result is
    shown the handlers of Hit and Stand act exactly when their buttons are
    enabled. *)
Theorem enabled_button_acts (s : State) :
  (offered ClickHit s = true -> exists u, handleHit s = Rendered u)
  /\ (offered ClickStand s = true -> exists u, handleStand s = Rendered u)
  /\ (offered ClickDouble s = true ->
      revealed (playerCards s) = playerCards s ->
      forall g,
        game s = Some g ->
        if currentBet g (selectedBet s) * 2 >? chips (player g)
        then handleDouble s = Alerted "籌碼不足，不能雙倍！"
        else exists u, handleDouble s = Rendered u)
  /\ (result s = None ->
      (handleHit s <> Ignored <-> offered ClickHit s = true)
      /\ (handleStand s <> Ignored <-> offered ClickStand s = true)).
Proof.
  split; [|split; [|split]].
  - intros H. apply offered_action in H. destruct H as [H _].
    unfold handleHit. rewrite H. destruct (drawNextPlayerCard _).
    eexists. reflexivity.
  - intros H. apply offered_action in H. destruct H as [H _].
    unfold handleStand. rewrite H. eexists. reflexivity.
  - intros H Hopen g Hg. unfold offered in H.
    apply andb_true_iff in H. destruct H as [H Hlen].
    apply offered_action in H. destruct H as [H _].
    unfold handleDouble. rewrite H, Hg, Hopen, Hlen. cbn [negb].
    destruct (currentBet g (selectedBet s) * 2 >? chips (player g));
      [reflexivity|].
    destruct (drawNextPlayerCard _). eexists. reflexivity.
  - intros Hres. split; split.
    + intros H. apply unblocked_offered; [|exact Hres].
      unfold handleHit in H. destruct (actionBlocked s); [now destruct H|reflexivity].
    + intros H. apply offered_action in H. destruct H as [H _].
      unfold handleHit. rewrite H. now destruct (drawNextPlayerCard _).
    + intros H. apply unblocked_offered; [|exact Hres].
      unfold handleStand in H. destruct (actionBlocked s); [now destruct H|reflexivity].
    + intros H. apply offered_action in H. destruct H as [H _].
      unfold handleStand. now rewrite H.
Qed.

(** ** Invariants of the reachable worlds *)

(** Induction over the reachable worlds, by what produces a world. *)
Lemma reachable_invariant (P : World -> Prop) :
  P mount ->
  (forall e w u, P w -> handle e (ui w) = Rendered u -> P (render u w)) ->
  (forall w message,
      P w -> P (mkWorld (ui w) (pending w) (alerts w ++ [message]) (clock w))) ->
  (forall w m t rest,
      P w ->
      takeDue m (pending w) = Some (t, rest) ->
      P (render (runTask t (ui w))
           (mkWorld (ui w) (elapse m rest) (alerts w) (clock w + m)%N))) ->
  (forall w d,
      P w ->
      P (mkWorld (ui w) (elapse d (pending w)) (alerts w) (clock w + d)%N)) ->
  forall w, reachable w -> P w.
Proof.
  intros Hmount Hclick Halert Hstep Hidle.
  assert (Hstep' : forall w w', P w -> step w = Some w' -> P w').
  { intros w w' Hw H. unfold step in H.
    destruct (soonest (pending w)) as [m|]; [|discriminate].
    destruct (takeDue m (pending w)) as [[t rest]|] eqn:E; [|discriminate].
    injection H as <-. now apply Hstep. }
  assert (Hwait : forall fuel d w w', P w -> wait fuel d w = Some w' -> P w').
  { induction fuel as [|fuel IH]; intros d w w' Hw H; cbn [wait] in H.
    - destruct (soonest (pending w)) as [m|].
      + destruct (m <=? d)%N; [discriminate|]. injection H as <-. now apply Hidle.
      + injection H as <-. now apply Hidle.
    - destruct (soonest (pending w)) as [m|].
      + destruct (m <=? d)%N.
        * destruct (step w) as [w1|] eqn:E; [|discriminate].
          apply (IH _ _ _ (Hstep' _ _ Hw E) H).
        * injection H as <-. now apply Hidle.
      + injection H as <-. now apply Hidle. }
  induction 1 as [|e w _ IH|w w' _ IH H|fuel d w w' _ IH H].
  - exact Hmount.
  - unfold click. destruct (handle e (ui w)) eqn:E.
    + exact IH.
    + now apply Halert.
    + now apply (Hclick e).
  - exact (Hstep' _ _ IH H).
  - exact (Hwait _ _ _ _ IH H).
Qed.

(** ** Every card on the table is a card of the decks *)

Lemma pictureCard_faceUp (c : UICard) : pictureCard c -> pictureCard (faceUp c).
Proof. intros H. exact H. Qed.

Lemma pictureCards_faceUp (l : list UICard) :
  Forall pictureCard l -> Forall pictureCard (map faceUp l).
Proof.
  intros H. apply Forall_map. eapply Forall_impl; [|exact H].
  intros c Hc. exact Hc.
Qed.

Lemma pictureCards_flipAt (len : nat) (l : list UICard) :
  forall idx, Forall pictureCard l -> Forall pictureCard (flipAt len idx l).
Proof.
  induction l as [|c l IH]; intros idx H; cbn [flipAt]; [constructor|].
  inversion H; subst. constructor; [|now apply IH].
  now destruct (S idx =? len)%nat.
Qed.

Lemma pictureCards_flipIndex (target : nat) (l : list UICard) :
  forall idx, Forall pictureCard l -> Forall pictureCard (flipIndex target idx l).
Proof.
  induction l as [|c l IH]; intros idx H; cbn [flipIndex]; [constructor|].
  inversion H; subst. constructor; [|now apply IH].
  now destruct (idx =? target)%nat.
Qed.

Lemma pictureCards_flipHidden (l : list UICard) :
  Forall pictureCard l -> Forall pictureCard (flipHidden l).
Proof.
  intros H. unfold flipHidden. apply Forall_map.
  eapply Forall_impl; [|exact H]. intros c Hc. now destruct (isFaceDown c).
Qed.

Lemma pictureCards_snoc (l : list UICard) (c : UICard) :
  Forall pictureCard l -> pictureCard c -> Forall pictureCard (l ++ [c]).
Proof.
  intros Hl Hc. apply Forall_app. split; [exact Hl|]. now constructor.
Qed.

Lemma pictureCard_player_draw (s : State) :
  pictureCard (parseCard (fst (drawNextPlayerCard s)) true).
Proof.
  apply deck_card_parses. left. unfold drawNextPlayerCard. cbn [fst].
  apply nth_In. apply Nat.mod_upper_bound. discriminate.
Qed.

Lemma pictureCard_dealer_draw (s : State) :
  pictureCard (parseCard (fst (drawNextDealerCard s)) true).
Proof.
  apply deck_card_parses. right. unfold drawNextDealerCard. cbn [fst].
  apply nth_In. apply Nat.mod_upper_bound. discriminate.
Qed.

Lemma houseGame_payout (g : option Game) (r : GameResult) :
  houseGame g -> houseGame (calculatePayout g r).
Proof.
  intros (g0 & -> & Hid & Hd). cbn. eexists. split; [reflexivity|].
  now split.
Qed.

Lemma queueSound_cancel (kind : Task -> bool) (q : list (N * Task)) :
  queueSound q -> queueSound (cancel kind q).
Proof.
  unfold queueSound, cancel. intros H. rewrite Forall_forall in *.
  intros e He. apply filter_In in He. now apply H.
Qed.

Lemma queueSound_elapse (m : N) (q : list (N * Task)) :
  queueSound q -> queueSound (elapse m q).
Proof.
  unfold queueSound, elapse. intros H. apply Forall_map.
  eapply Forall_impl; [|exact H]. intros e He. exact He.
Qed.

Lemma queueSound_takeDue (m : N) (q : list (N * Task)) :
  forall (t : Task) (rest : list (N * Task)),
    takeDue m q = Some (t, rest) ->
    queueSound q -> taskSound t /\ queueSound rest.
Proof.
  unfold queueSound.
  induction q as [|[d x] q IH]; intros t rest H Hq; cbn [takeDue] in H;
    [discriminate|].
  inversion Hq as [|? ? Hx Hq']; subst. cbn [snd] in Hx.
  destruct (d =? m)%N.
  - injection H as <- <-. now split.
  - destruct (takeDue m q) as [[t' rest']|]; [|discriminate].
    injection H as <- <-. destruct (IH _ _ eq_refl Hq') as [Ht Hrest].
    split; [exact Ht|]. now constructor.
Qed.

Lemma render_sound (u : Update) (w : World) :
  updateSound u -> queueSound (pending w) -> sound (render u w).
Proof.
  intros [[Hgame [Hp Hd]] Hspawn] Hq. unfold render, runEffects, sound.
  cbn [ui pending]. split.
  - assert (Hb : stateSound (bustEffect (next u))).
    { unfold bustEffect. destruct (bustEnabled (next u)); [|now repeat split].
      destruct Hgame as (g0 & Hg & Hid & Hdc). rewrite Hg.
      repeat split; cbn; try assumption.
      eexists. split; [reflexivity|]. now split. }
    destruct Hgame as (g0 & Hg & _). rewrite Hg.
    destruct (touchedPlayer u && blackjackSignal (next u))%bool;
      [|exact Hb].
    destruct Hb as (H1 & H2 & H3). now repeat split.
  - assert (H0 : queueSound (pending w ++ spawned u))
      by (apply Forall_app; now split).
    set (q0 := pending w ++ spawned u) in *.
    assert (H1 : queueSound
                   (if touchedPlayer u
                    then cancel isPlayerScoreTimer q0
                           ++ [(320%N, PlayerScoreTimer (playerCards (next u)))]
                    else q0)).
    { destruct (touchedPlayer u); [|exact H0].
      apply Forall_app. split; [now apply queueSound_cancel|].
      constructor; [exact Hp|constructor]. }
    set (q1 := if touchedPlayer u then _ else _) in *.
    assert (H2 : queueSound
                   (if touchedDealer u
                    then cancel isDealerScoreTimer q1
                           ++ [(320%N, DealerScoreTimer (dealerCards (next u)))]
                    else q1)).
    { destruct (touchedDealer u); [|exact H1].
      apply Forall_app. split; [now apply queueSound_cancel|].
      constructor; [exact Hd|constructor]. }
    set (q2 := if touchedDealer u then _ else _) in *.
    assert (H3 : queueSound
                   (if touchedPlayer u then cancel isBlackjackOff q2 else q2)).
    { destruct (touchedPlayer u); [now apply queueSound_cancel|exact H2]. }
    destruct (touchedPlayer u && blackjackSignal (next u))%bool; [|exact H3].
    apply Forall_app. split; [exact H3|]. constructor; [exact I|constructor].
Qed.

Lemma houseGame_seat (g : Game) (st : Status) (seat : PlayerSeat) :
  houseGame (Some g) -> houseGame (Some (mkGame (id g) st seat (dealer g))).
Proof.
  intros (g0 & Hg & Hid & Hd). injection Hg as <-.
  eexists. split; [reflexivity|]. now split.
Qed.

Ltac sound_parts :=
  unfold updateSound, stateSound, queueSound;
  cbn [next spawned game playerCards dealerCards setShowChips setSelectedBet
       setIsBetting setIsBlackjack setPlayerCards setDealerCards
       setPlayerScore setDealerScore setStage setResult setIsPlayerActing
       setIsDealerActing setGame setPlayerDrawIndexRef setDealerDrawIndexRef];
  refine (conj (conj _ (conj _ _)) _).

Lemma handle_sound (e : UserEvent) (s : State) (u : Update) :
  stateSound s -> handle e s = Rendered u -> updateSound u.
Proof.
  intros (Hgame & Hp & Hd) H. destruct e; cbn [handle] in H.
  - injection H as <-. sound_parts; try assumption. constructor.
  - unfold handleBet in H. destruct (game s) as [g|] eqn:Hg; [|discriminate].
    destruct (isBetting s || isTruthy (selectedBet s)); [discriminate|].
    injection H as <-. sound_parts; try assumption.
    + apply (houseGame_seat g BET _ Hgame).
    + constructor; [exact Hgame|constructor].
  - unfold handleHit in H. destruct (actionBlocked s); [discriminate|].
    pose proof (pictureCard_player_draw (setIsPlayerActing true s)) as Hc.
    destruct (drawNextPlayerCard (setIsPlayerActing true s)) as [card s1] eqn:E.
    injection H as <-. unfold drawNextPlayerCard in E. injection E as <- <-.
    cbn [fst] in Hc.
    sound_parts; try assumption.
    + now apply pictureCards_snoc.
    + constructor; [exact I|constructor].
  - unfold handleDouble in H. destruct (actionBlocked s); [discriminate|].
    destruct (game s) as [g|] eqn:Hg; [|discriminate].
    destruct (negb (List.length (revealed (playerCards s)) =? 2)%nat);
      [discriminate|].
    destruct (currentBet g (selectedBet s) * 2 >? chips (player g));
      [discriminate|].
    match type of H with
    | context [drawNextPlayerCard ?x] =>
        pose proof (pictureCard_player_draw x) as Hc;
        destruct (drawNextPlayerCard x) as [card s1] eqn:E
    end.
    injection H as <-. unfold drawNextPlayerCard in E. injection E as <- <-.
    cbn [fst] in Hc.
    sound_parts; try assumption.
    + apply (houseGame_seat g (status g) _ Hgame).
    + now apply pictureCards_snoc.
    + constructor; [|constructor]. cbn [snd taskSound].
      split; [now apply pictureCards_snoc|]. now split.
  - unfold handleStand in H. destruct (actionBlocked s); [discriminate|].
    injection H as <-. unfold runDealerTurn. sound_parts; try assumption.
    + now apply pictureCards_faceUp.
    + constructor; [|constructor]. cbn [snd taskSound].
      split; [now apply pictureCards_faceUp|]. now split.
  - unfold handleReset in H. injection H as <-.
    destruct (game s) as [g|] eqn:Hg; sound_parts;
      try assumption; try constructor.
    + apply (houseGame_seat g NEW _ Hgame).
    + now rewrite Hg.
Qed.

Lemma dealerLoop_sound (l : list UICard) (dv pv : Z) (gs : option Game)
    (s : State) :
  Forall pictureCard l -> houseGame gs -> stateSound s ->
  updateSound (dealerLoop l dv pv gs s).
Proof.
  intros Hl Hgs (Hgame & Hp & Hd). unfold dealerLoop.
  destruct (dv <? 17).
  - pose proof (pictureCard_dealer_draw s) as Hc.
    destruct (drawNextDealerCard s) as [card s1] eqn:E.
    unfold drawNextDealerCard in E. injection E as <- <-. cbn [fst] in Hc.
    sound_parts; try assumption.
    + now apply pictureCards_snoc.
    + constructor; [|constructor]. cbn [snd taskSound].
      split; [now apply pictureCards_snoc|exact Hgs].
  - sound_parts; try assumption; [|constructor].
    now apply houseGame_payout.
Qed.

Lemma runTask_sound (t : Task) (s : State) :
  taskSound t -> stateSound s -> updateSound (runTask t s).
Proof.
  intros Ht Hs. pose proof Hs as (Hgame & Hp & Hd).
  destruct t; cbn [runTask taskSound] in *.
  - sound_parts; try assumption. constructor.
  - sound_parts; try assumption. constructor.
  - sound_parts; try assumption. constructor.
  - unfold betDeal. sound_parts.
    + destruct Ht as (g0 & Hg & Hid & Hdc). injection Hg as <-.
      eexists. split; [reflexivity|]. now split.
    + constructor.
    + constructor.
    + cbn [nth cards player dealerHand dealer].
      repeat (constructor; [vm_compute; tauto|]). constructor.
  - sound_parts; try assumption.
    + constructor; [exact Ht|constructor].
    + constructor; [exact I|constructor].
  - sound_parts; try assumption; [|constructor].
    now apply pictureCards_faceUp.
  - sound_parts; try assumption.
    + constructor; [exact Ht|constructor].
    + constructor; [exact I|constructor].
  - sound_parts; try assumption; [|constructor].
    now apply pictureCards_faceUp.
  - sound_parts; try assumption.
    + now apply pictureCards_snoc.
    + constructor; [exact I|constructor].
  - sound_parts; try assumption; [|constructor].
    now apply pictureCards_flipIndex.
  - sound_parts; try assumption; [|constructor].
    now apply pictureCards_snoc.
  - sound_parts; try assumption. constructor.
  - sound_parts; try assumption.
    + now apply pictureCards_flipHidden.
    + constructor; [exact I|constructor].
  - sound_parts; try assumption. constructor.
  - destruct Ht as (Hl & Hds & Hgs). sound_parts; try assumption.
    + now apply pictureCards_flipAt.
    + constructor; [|constructor]. cbn [snd taskSound].
      split; [now apply pictureCards_flipAt|]. now split.
  - destruct Ht as (Hl & Hds & Hgs). unfold runDealerTurn.
    sound_parts; try assumption.
    + now apply pictureCards_faceUp.
    + constructor; [|constructor]. cbn [snd taskSound].
      split; [now apply pictureCards_faceUp|]. now split.
  - destruct Ht as (Hl & Hps & Hgs). now apply dealerLoop_sound.
  - destruct Ht as (Hl & Hgs). sound_parts; try assumption.
    + now apply pictureCards_flipAt.
    + constructor; [|constructor]. cbn [snd taskSound].
      split; [now apply pictureCards_flipAt|exact Hgs].
  - destruct Ht as (Hl & Hgs). now apply dealerLoop_sound.
Qed.

Lemma mount_sound : sound mount.
Proof.
  unfold sound, mount, render, runEffects. cbn.
  split.
  - split; [|split; constructor].
    exists initialGame. repeat split.
  - repeat constructor.
Qed.

Lemma reachable_sound (w : World) : reachable w -> sound w.
Proof.
  apply reachable_invariant.
  - exact mount_sound.
  - intros e w0 u [Hs Hq] H. apply render_sound; [|exact Hq].
    now apply (handle_sound e (ui w0)).
  - intros w0 message H. exact H.
  - intros w0 m t rest [Hs Hq] H.
    destruct (queueSound_takeDue _ _ _ _ H Hq) as [Ht Hrest].
    apply render_sound; [now apply runTask_sound|].
    now apply queueSound_elapse.
  - intros w0 d [Hs Hq]. split; [exact Hs|]. now apply queueSound_elapse.
Qed.

Lemma pictureCards_ranked (l : list UICard) :
  Forall pictureCard l -> cardRanked l /\ cardHand l.
Proof.
  intros H. assert (Hr : cardRanked l).
  { unfold cardRanked. eapply Forall_impl; [|exact H]. now intros c [Hc _]. }
  split; [exact Hr|]. unfold cardHand, revealed. unfold cardRanked in Hr.
  rewrite Forall_forall in *. intros c Hc. apply filter_In in Hc. now apply Hr.
Qed.

(** X9. In every world the page can reach, every card in either hand has
    one of the thirteen ranks and one of the four picture suits, so the
    evaluator never meets a rank it cannot value and [Card] draws every
    card. *)
Theorem table_cards_are_deck_cards (w : World) :
  reachable w ->
  forall c,
    In c (playerCards (ui w)) \/ In c (dealerCards (ui w)) ->
    isCardRank (rank c) = true
    /\ In (suit c) suitPaths
    /\ (forall size, exists img, Card (rank c) (suit c) size = Some img).
Proof.
  intros Hw c Hc. destruct (reachable_sound w Hw) as [(_ & Hp & Hd) _].
  assert (H : pictureCard c).
  { rewrite Forall_forall in Hp, Hd. destruct Hc; [now apply Hp|now apply Hd]. }
  destruct H as [Hrank Hsuit]. repeat split; try assumption.
  intros size. unfold suitPaths in Hsuit. cbn [In] in Hsuit.
  destruct Hsuit as [<-|[<-|[<-|[<-|[]]]]]; eexists; reflexivity.
Qed.

(** X10. In every world the page can reach the store holds a game, with the
    id and the dealer's chips of the game installed at mount: no handler
    and no settlement clears the store or touches the dealer's seat, and
    the guard of [calculatePayout] for a missing game is never taken. *)
Theorem store_keeps_house_game (w : World) :
  reachable w ->
  exists g,
    game (ui w) = Some g /\ id g = 1 /\ dealerChips (dealer g) = 999999
    /\ forall r, calculatePayout (game (ui w)) r <> None.
Proof.
  intros Hw. destruct (reachable_sound w Hw) as [((g & Hg & Hid & Hd) & _) _].
  exists g. repeat split; try assumption. intros r. now rewrite Hg.
Qed.

(** ** The score cells follow the hands *)

Lemma takeDue_split (m : N) (q : list (N * Task)) :
  forall (t : Task) (rest : list (N * Task)),
    takeDue m q = Some (t, rest) ->
    exists pre post, q = pre ++ (m, t) :: post /\ rest = pre ++ post.
Proof.
  induction q as [|[d x] q IH]; intros t rest H; cbn [takeDue] in H;
    [discriminate|].
  destruct (d =? m)%N eqn:E.
  - apply N.eqb_eq in E. subst d. injection H as <- <-.
    exists [], q. now split.
  - destruct (takeDue m q) as [[t' rest']|]; [|discriminate].
    injection H as <- <-. destruct (IH _ _ eq_refl) as (pre & post & -> & ->).
    exists ((d, x) :: pre), post. now split.
Qed.

Lemma scoreTimers_app (side : Side) (q q' : list (N * Task)) :
  scoreTimers side (q ++ q') = scoreTimers side q ++ scoreTimers side q'.
Proof. apply filter_app. Qed.

Lemma scoreTimers_elapse (side : Side) (m : N) (q : list (N * Task)) :
  scoreTimers side (elapse m q) = elapse m (scoreTimers side q).
Proof.
  unfold scoreTimers, elapse. induction q as [|e q IH]; [reflexivity|].
  cbn [map filter snd]. destruct (isTimerOf side (snd e)); cbn [map];
    now rewrite IH.
Qed.

Lemma scoreTimers_cancel_other (side : Side) (kind : Task -> bool)
    (q : list (N * Task)) :
  (forall t, isTimerOf side t = true -> kind t = false) ->
  scoreTimers side (cancel kind q) = scoreTimers side q.
Proof.
  intros H. unfold scoreTimers, cancel.
  induction q as [|e q IH]; [reflexivity|]. cbn [filter].
  destruct (kind (snd e)) eqn:Ek; cbn [negb filter].
  - destruct (isTimerOf side (snd e)) eqn:Et; [|exact IH].
    apply H in Et. congruence.
  - now rewrite IH.
Qed.

Lemma scoreTimers_cancel_own (side : Side) (q : list (N * Task)) :
  scoreTimers side (cancel (isTimerOf side) q) = [].
Proof. apply cancel_none. Qed.

Lemma bustEffect_cells (s : State) :
  playerCards (bustEffect s) = playerCards s
  /\ dealerCards (bustEffect s) = dealerCards s
  /\ playerScore (bustEffect s) = playerScore s
  /\ dealerScore (bustEffect s) = dealerScore s.
Proof.
  unfold bustEffect. destruct (bustEnabled s); [|now repeat split].
  destruct (game s); now repeat split.
Qed.

(** What a render does to a side: its timer is restarted when the hand was
    set, and the effects leave the hand and the score cell alone. *)
Lemma render_side (side : Side) (u : Update) (w : World) :
  side = playerSide \/ side = dealerSide ->
  scoreTimers side (pending (render u w))
  = (if touchedOf side u
     then [(320%N, timerOf side (cardsOf side (next u)))]
     else scoreTimers side (pending w ++ spawned u))
  /\ cardsOf side (ui (render u w)) = cardsOf side (next u)
  /\ scoreOf side (ui (render u w)) = scoreOf side (next u).
Proof.
  intros Hside.
  destruct (bustEffect_cells (next u)) as (Hpc & Hdc & Hps & Hds).
  assert (Hstate :
            cardsOf side (ui (render u w)) = cardsOf side (next u)
            /\ scoreOf side (ui (render u w)) = scoreOf side (next u)).
  { unfold render, runEffects. cbn [ui].
    destruct Hside as [-> | ->]; cbn [cardsOf scoreOf playerSide dealerSide];
      destruct (game (next u));
      destruct (touchedPlayer u && blackjackSignal (next u))%bool;
      cbn; now split. }
  split; [|exact Hstate].
  unfold render, runEffects. cbn [pending].
  set (q0 := pending w ++ spawned u).
  destruct Hside as [-> | ->];
    cbn [touchedOf timerOf cardsOf playerSide dealerSide];
    destruct (touchedPlayer u), (touchedDealer u),
      (blackjackSignal (next u)); cbn [andb];
    repeat first
      [ rewrite scoreTimers_app
      | rewrite scoreTimers_cancel_own
      | rewrite scoreTimers_cancel_other
          by (intros [] Ht; first [discriminate Ht | reflexivity])
      | rewrite app_nil_r ];
    try reflexivity.
Qed.

Ltac side_cases Hside :=
  destruct Hside as [-> | ->];
  unfold quiet, scoreTimers;
  cbn [touchedOf cardsOf scoreOf isTimerOf playerSide dealerSide].

Lemma handle_quiet (side : Side) (e : UserEvent) (s : State) (u : Update) :
  side = playerSide \/ side = dealerSide ->
  handle e s = Rendered u ->
  quiet side u s /\ scoreTimers side (spawned u) = [].
Proof.
  intros Hside H. destruct e; cbn [handle] in H.
  - injection H as <-. side_cases Hside; split; try reflexivity; now right.
  - unfold handleBet in H. destruct (game s); [|discriminate].
    destruct (isBetting s || isTruthy (selectedBet s)); [discriminate|].
    injection H as <-. side_cases Hside; split; try reflexivity; now right.
  - unfold handleHit in H. destruct (actionBlocked s); [discriminate|].
    unfold drawNextPlayerCard in H. injection H as <-.
    side_cases Hside; split; try reflexivity; [now left|now right].
  - unfold handleDouble in H. destruct (actionBlocked s); [discriminate|].
    destruct (game s); [|discriminate].
    destruct (negb (List.length (revealed (playerCards s)) =? 2)%nat);
      [discriminate|].
    destruct (currentBet _ _ * 2 >? _); [discriminate|].
    unfold drawNextPlayerCard in H. injection H as <-.
    side_cases Hside; split; try reflexivity; [now left|now right].
  - unfold handleStand in H. destruct (actionBlocked s); [discriminate|].
    injection H as <-.
    side_cases Hside; split; try reflexivity; [now right|now left].
  - unfold handleReset in H. injection H as <-.
    side_cases Hside; split; try reflexivity; now left.
Qed.

Lemma runTask_quiet (side : Side) (t : Task) (s : State) :
  side = playerSide \/ side = dealerSide ->
  isTimerOf side t = false ->
  quiet side (runTask t s) s /\ scoreTimers side (spawned (runTask t s)) = [].
Proof.
  intros Hside Ht.
  destruct t; cbn [runTask]; unfold betDeal, runDealerTurn, dealerLoop,
    drawNextDealerCard;
    try match goal with
        | |- context [if ?b then _ else _] => destruct b
        end;
    side_cases Hside; try discriminate Ht;
    (split; [first [now left | now right]|reflexivity]).
Qed.

Lemma inStep_idle (side : Side) (w : World) (q : list (N * Task)) (m : N)
    (al : list string) (clk : N) :
  inStep side w ->
  scoreTimers side q = scoreTimers side (pending w) ->
  inStep side (mkWorld (ui w) (elapse m q) al clk).
Proof.
  unfold inStep. cbn [ui pending]. intros H Hq.
  rewrite scoreTimers_elapse, Hq.
  destruct (scoreTimers side (pending w)) as [|[d t] [|e l]]; cbn [elapse map];
    try exact H.
  cbn [fst snd]. destruct H as [-> Hd]. split; [reflexivity|lia].
Qed.

Lemma render_inStep (side : Side) (u : Update) (w : World) :
  side = playerSide \/ side = dealerSide ->
  touchedOf side u = true
  \/ (cardsOf side (next u) = cardsOf side (ui w)
      /\ scoreOf side (next u) = scoreOf side (ui w)
      /\ inStep side w) ->
  scoreTimers side (spawned u) = [] ->
  inStep side (render u w).
Proof.
  intros Hside H Hspawn.
  destruct (render_side side u w Hside) as (Hq & Hcards & Hscore).
  unfold inStep. rewrite Hq, Hcards, Hscore.
  destruct (touchedOf side u) eqn:Ht.
  - split; [reflexivity|lia].
  - destruct H as [H|(Hc & Hs & Hw)]; [discriminate|].
    rewrite scoreTimers_app, Hspawn, app_nil_r, Hc, Hs. exact Hw.
Qed.

Lemma timer_of_side (side : Side) (t : Task) :
  side = playerSide \/ side = dealerSide ->
  isTimerOf side t = true ->
  exists cards,
    t = timerOf side cards
    /\ forall s,
         touchedOf side (runTask t s) = false
         /\ spawned (runTask t s) = []
         /\ cardsOf side (next (runTask t s)) = cardsOf side s
         /\ scoreOf side (next (runTask t s)) = calculateHandValue cards.
Proof.
  intros [-> | ->] H; destruct t; try discriminate H;
    eexists; (split; [reflexivity|]); intros s; now repeat split.
Qed.

Lemma step_inStep (side : Side) (w : World) (m : N) (t : Task)
    (rest : list (N * Task)) :
  side = playerSide \/ side = dealerSide ->
  inStep side w ->
  takeDue m (pending w) = Some (t, rest) ->
  inStep side
    (render (runTask t (ui w))
       (mkWorld (ui w) (elapse m rest) (alerts w) (clock w + m)%N)).
Proof.
  intros Hside Hw Htake.
  destruct (takeDue_split _ _ _ _ Htake) as (pre & post & Hq & Hrest).
  destruct (isTimerOf side t) eqn:Ht.
  - destruct (timer_of_side side t Hside Ht) as (cards & -> & Hrun).
    destruct (Hrun (ui w)) as (Htouch & Hspawn & Hcards & Hscore).
    destruct (render_side side (runTask (timerOf side cards) (ui w))
                (mkWorld (ui w) (elapse m rest) (alerts w) (clock w + m)%N)
                Hside) as (Hq' & Hc' & Hs').
    unfold inStep in *. rewrite Hq', Hc', Hs', Htouch, Hspawn, app_nil_r.
    cbn [pending]. rewrite scoreTimers_elapse, Hrest, scoreTimers_app.
    rewrite Hq, scoreTimers_app in Hw. unfold scoreTimers at 2 in Hw.
    cbn [filter snd] in Hw. rewrite Ht in Hw. fold (scoreTimers side post) in Hw.
    destruct (scoreTimers side pre) as [|e l]; cbn [app] in Hw.
    + destruct (scoreTimers side post) as [|e l]; [|destruct Hw].
      destruct Hw as [Heq _]. cbn [app elapse map].
      rewrite Hcards, Hscore.
      destruct Hside as [-> | ->]; cbn [timerOf playerSide dealerSide] in Heq;
        now injection Heq as ->.
    + destruct e as [d0 t0]. destruct l; destruct Hw.
  - destruct (runTask_quiet side t (ui w) Hside Ht) as [Hquiet Hspawn].
    apply render_inStep; [exact Hside| |exact Hspawn].
    destruct Hquiet as [H|[Hc Hs]]; [now left|right].
    cbn [ui]. split; [exact Hc|]. split; [exact Hs|].
    apply inStep_idle; [exact Hw|].
    rewrite Hrest, Hq, !scoreTimers_app. f_equal.
    unfold scoreTimers at 2. cbn [filter snd]. now rewrite Ht.
Qed.

Lemma reachable_inStep (side : Side) (w : World) :
  side = playerSide \/ side = dealerSide -> reachable w -> inStep side w.
Proof.
  intros Hside. apply reachable_invariant.
  - destruct Hside as [-> | ->]; unfold inStep, mount, render, runEffects;
      cbn; (split; [reflexivity|lia]).
  - intros e w0 u Hw H.
    destruct (handle_quiet side e (ui w0) u Hside H) as [Hq Hspawn].
    apply render_inStep; [exact Hside| |exact Hspawn].
    destruct Hq as [Hq|[Hc Hs]]; [now left|right]. now repeat split.
  - intros w0 message H. exact H.
  - intros w0 m t rest Hw H. now apply step_inStep.
  - intros w0 d Hw. now apply inStep_idle.
Qed.

(** X11. The score cells follow the hands: in every world the page can
    reach, for the player and for the dealer, either no score timer is
    pending and the cell holds [calculateHandValue] of the hand, or exactly
    one is pending, due within 320 ms, and it carries the hand as it is
    now. *)
Theorem score_cells_follow_hands (w : World) :
  reachable w ->
  inStep playerSide w /\ inStep dealerSide w
  /\ (scoreTimers playerSide (pending w) = [] ->
      playerScore (ui w) = calculateHandValue (playerCards (ui w)))
  /\ (scoreTimers dealerSide (pending w) = [] ->
      dealerScore (ui w) = calculateHandValue (dealerCards (ui w))).
Proof.
  intros Hw.
  pose proof (reachable_inStep playerSide w (or_introl eq_refl) Hw) as Hp.
  pose proof (reachable_inStep dealerSide w (or_intror eq_refl) Hw) as Hd.
  repeat split; try assumption.
  - intros H. unfold inStep in Hp. now rewrite H in Hp.
  - intros H. unfold inStep in Hd. now rewrite H in Hd.
Qed.

(** ** A hit *)

Lemma step_done_first (s : State) (signal : bool) (a b : Task)
    (al : list string) (clk : N) :
  step (mkWorld s ([(150%N, a); (320%N, b)] ++ withSignal signal 2400) al clk)
  = Some (render (runTask a s)
            (mkWorld s ([(170%N, b)] ++ withSignal signal 2250) al
               (clk + 150)%N)).
Proof.
  destruct signal; reflexivity.
Qed.

Lemma step_score_last (s : State) (signal : bool) (b : Task)
    (al : list string) (clk : N) :
  step (mkWorld s ([(170%N, b)] ++ withSignal signal 2250) al clk)
  = Some (render (runTask b s)
            (mkWorld s (withSignal signal 2080) al (clk + 170)%N)).
Proof.
  destruct signal; reflexivity.
Qed.

Lemma withSignal_flag (signal : bool) (s : State) :
  (if signal then setIsBlackjack true s else s)
  = setIsBlackjack (signal || isBlackjack s) s.
Proof.
  destruct signal; [reflexivity|]. now destruct s.
Qed.

(** X12. A hit in PLAYER_TURN, with only the player's score and blackjack
    timers pending and a hand within 21: the next card of the deck comes in
    face down and the busy flag goes up; 600 ms later the card is face up
    and the flag is down, while the score cell still shows the value before
    the hit, so Hit and Stand are offered again; 770 ms after the click the
    cell shows the value of the hand, and if that is above 21 the round is
    in RESULT with LOSE and the payout on the current game, else it is
    still the player's turn. *)
Theorem hit_draws_one_card (w : World) (g : Game) :
  playerTimers (pending w) ->
  actionBlocked (ui w) = false ->
  bustEnabled (ui w) = false ->
  result (ui w) = None ->
  game (ui w) = Some g ->
  (forall v, calculateHandValue (playerCards (ui w)) = Some v -> v <= 21) ->
  let pc := playerCards (ui w) in
  let idx := playerDrawIndexRef (ui w) in
  let c :=
    parseCard (nth (idx mod List.length mockPlayerDeck) mockPlayerDeck
                 EmptyString) true in
  let hand := flipHidden (pc ++ [c]) in
  let W := click ClickHit w in
  (playerCards (ui W) = pc ++ [c]
   /\ playerDrawIndexRef (ui W) = S idx
   /\ isPlayerActing (ui W) = true)
  /\ (forall m,
        (m <= 3)%nat ->
        stage (ui (steps m W)) = PLAYER_TURN
        /\ result (ui (steps m W)) = None
        /\ game (ui (steps m W)) = Some g
        /\ ((m < 3)%nat -> isPlayerActing (ui (steps m W)) = true))
  /\ (let w3 := steps 3 W in
      clock w3 = (clock w + 600)%N
      /\ playerCards (ui w3) = hand
      /\ playerScore (ui w3) = calculateHandValue pc
      /\ offered ClickHit (ui w3) = true
      /\ offered ClickStand (ui w3) = true)
  /\ (let w4 := steps 4 W in
      clock w4 = (clock w + 770)%N
      /\ playerCards (ui w4) = hand
      /\ playerScore (ui w4) = calculateHandValue hand
      /\ if match calculateHandValue hand with
            | Some v => v >? 21
            | None => false
            end
         then stage (ui w4) = RESULT
              /\ result (ui w4) = Some (mkResult LOSE "爆牌")
              /\ game (ui w4)
                 = calculatePayout (Some g) (mkResult LOSE "爆牌")
         else stage (ui w4) = PLAYER_TURN
              /\ result (ui w4) = None
              /\ game (ui w4) = Some g
              /\ actionBlocked (ui w4) = false).
Proof.
  intros Hq Hfree Hoff Hres Hgame Hpc pc idx c hand W.
  set (s := ui w) in *.
  assert (Hflags : stage s = PLAYER_TURN /\ isBetting s = false
                   /\ isPlayerActing s = false /\ isDealerActing s = false).
  { unfold actionBlocked in Hfree.
    apply orb_false_iff in Hfree. destruct Hfree as [Hfree Hd].
    apply orb_false_iff in Hfree. destruct Hfree as [Hfree Hp].
    apply orb_false_iff in Hfree. destruct Hfree as [Hs Hb].
    apply negb_false_iff, Stage_eqb_eq in Hs. now repeat split. }
  destruct Hflags as (Hstage & Hbet & Hact & Hdeal).
  assert (Hc : isFaceDown c = true) by (subst c; unfold parseCard; now destruct (splitLast _)).
  set (lp1 := pc ++ [c]).
  assert (Hlp1 : calculateHandValue lp1 = calculateHandValue pc)
    by (apply calculateHandValue_hidden; exact Hc).
  (* the click *)
  set (s0 := setPlayerCards lp1
               (setPlayerDrawIndexRef (S idx) (setIsPlayerActing true s))).
  assert (Hhit : handleHit s = Rendered (mkUpdate s0 [(450%N, HitFlip)] true false)).
  { unfold handleHit. rewrite Hfree. reflexivity. }
  set (sig := blackjackSignal s0).
  set (sA := setIsBlackjack (sig || isBlackjack s0) s0).
  set (W0 := mkWorld sA
               ([(450%N, HitFlip); (320%N, PlayerScoreTimer lp1)]
                  ++ withSignal sig 2400) (alerts w) (clock w)).
  assert (E0 : W = W0).
  { subst W. unfold click. cbn [handle]. fold s. rewrite Hhit.
    rewrite (render_settled _ _ g); [| exact Hoff | exact Hgame].
    cbn [next touchedPlayer touchedDealer spawned andb]. fold sig.
    change (playerCards s0) with lp1.
    rewrite (playerTimers_cleared (pending w) (450%N, HitFlip)
               (320%N, PlayerScoreTimer lp1) Hq) by reflexivity.
    subst W0 sA. rewrite <- withSignal_flag. now destruct sig. }
  (* the score timer of the click: the new card is still hidden *)
  set (s1 := setPlayerScore (calculateHandValue lp1) sA).
  assert (Hoff1 : bustEnabled s1 = false).
  { unfold bustEnabled. subst s1 sA s0. cbn. rewrite Hstage, Hres, Hlp1. cbn.
    destruct (calculateHandValue pc) as [v|] eqn:Hv; [|reflexivity].
    rewrite andb_true_r. specialize (Hpc v Hv).
    rewrite Z.gtb_ltb. apply Z.ltb_ge. exact Hpc. }
  set (W1 := mkWorld s1 ([(130%N, HitFlip)] ++ withSignal sig 2080)
               (alerts w) (clock w + 320)%N).
  assert (E1 : step W0 = Some W1).
  { subst W0 W1. rewrite step_score_first. cbn [runTask].
    rewrite (render_settled _ _ g);
      [| exact Hoff1 | subst s1 sA s0; cbn; exact Hgame].
    cbn [next touchedPlayer touchedDealer spawned pending alerts clock andb].
    now rewrite app_nil_r. }
  (* the flip *)
  set (s2 := setPlayerCards hand s1).
  assert (Hoff2 : bustEnabled s2 = false) by exact Hoff1.
  set (sig2 := blackjackSignal s2).
  set (sB := setIsBlackjack (sig2 || isBlackjack s2) s2).
  set (W2 := mkWorld sB
               ([(150%N, HitDone); (320%N, PlayerScoreTimer hand)]
                  ++ withSignal sig2 2400) (alerts w) (clock w + 320 + 130)%N).
  assert (E2 : step W1 = Some W2).
  { subst W1 W2. rewrite step_flip_next. cbn [runTask].
    change (setPlayerCards (flipHidden (playerCards s1)) s1) with s2.
    rewrite (render_settled _ _ g);
      [| exact Hoff2 | subst s2 s1 sA s0; cbn; exact Hgame].
    cbn [next touchedPlayer touchedDealer spawned pending alerts clock andb].
    change (playerCards s2) with hand. change (blackjackSignal s2) with sig2.
    subst sB. rewrite <- withSignal_flag.
    destruct sig, sig2; reflexivity. }
  (* the busy flag drops *)
  set (s3 := setIsPlayerActing false sB).
  assert (Hoff3 : bustEnabled s3 = false) by exact Hoff1.
  set (W3 := mkWorld s3 ([(170%N, PlayerScoreTimer hand)]
                           ++ withSignal sig2 2250)
               (alerts w) (clock w + 320 + 130 + 150)%N).
  assert (E3 : step W2 = Some W3).
  { subst W2 W3. rewrite step_done_first. cbn [runTask].
    rewrite (render_settled _ _ g);
      [| exact Hoff3 | subst s3 sB s2 s1 sA s0; cbn; exact Hgame].
    cbn [next touchedPlayer touchedDealer spawned pending alerts clock andb].
    now rewrite app_nil_r. }
  (* the score follows *)
  set (s4 := setPlayerScore (calculateHandValue hand) s3).
  set (W4 := mkWorld (bustEffect s4) (withSignal sig2 2080)
               (alerts w) (clock w + 320 + 130 + 150 + 170)%N).
  assert (E4 : step W3 = Some W4).
  { subst W3 W4. rewrite step_score_last. cbn [runTask]. fold s4.
    unfold render, runEffects.
    cbn [next touchedPlayer touchedDealer spawned pending alerts clock andb].
    replace (game s4) with (Some g)
      by (subst s4 s3 sB s2 s1 sA s0; cbn; now rewrite Hgame).
    now rewrite app_nil_r. }
  rewrite E0.
  split; [|split; [|split]].
  - subst W0 sA s0. cbn. repeat split.
  - intros m Hm. destruct m as [|[|[|[|m]]]]; [| | | |lia];
      cbn [steps]; rewrite ?E1, ?E2, ?E3;
      subst W0 W1 W2 W3 s3 sB s2 s1 sA s0; cbn;
      (repeat split; try assumption; try reflexivity; intros; lia).
  - cbv zeta. cbn [steps]. rewrite E1, E2, E3.
    subst W3. cbn [clock ui].
    split; [lia|]. split; [reflexivity|]. split; [exact Hlp1|].
    unfold offered. subst s3 sB s2 s1 sA s0. cbn.
    rewrite Hstage, Hres, Hbet, Hdeal. split; reflexivity.
  - cbv zeta. cbn [steps]. rewrite E1, E2, E3, E4.
    subst W4. cbn [clock ui].
    split; [lia|].
    assert (Hcells : playerCards (bustEffect s4) = hand
                     /\ playerScore (bustEffect s4) = calculateHandValue hand).
    { destruct (bustEffect_cells s4) as (H1 & _ & H2 & _).
      rewrite H1, H2. split; reflexivity. }
    destruct Hcells as [H1 H2]. split; [exact H1|]. split; [exact H2|].
    unfold bustEffect, bustEnabled.
    replace (stage s4) with PLAYER_TURN
      by (subst s4 s3 sB s2 s1 sA s0; cbn; now rewrite Hstage).
    replace (result s4) with (@None GameResult)
      by (subst s4 s3 sB s2 s1 sA s0; cbn; now rewrite Hres).
    replace (playerScore s4) with (calculateHandValue hand) by reflexivity.
    replace (game s4) with (Some g)
      by (subst s4 s3 sB s2 s1 sA s0; cbn; now rewrite Hgame).
    cbn [Stage_eqb andb]. rewrite andb_true_r.
    destruct (match calculateHandValue hand with
              | Some v => v >? 21
              | None => false
              end).
    + repeat split.
    + unfold actionBlocked. subst s4 s3 sB s2 s1 sA s0. cbn.
      rewrite Hstage, Hres, Hgame, Hbet, Hdeal. repeat split.
Qed.

(** ** A bet and its deal *)

(** The clock only counts: a run from time [clk] is the run from time 0,
    shifted. *)
Lemma steps_clock (n : nat) :
  forall (s : State) (q : list (N * Task)) (al : list string) (clk : N),
    steps n (mkWorld s q al clk)
    = let w0 := steps n (mkWorld s q al 0%N) in
      mkWorld (ui w0) (pending w0) (alerts w0) (clk + clock w0)%N.
Proof.
  induction n as [|n IH]; intros s q al clk; cbv zeta.
  - cbn [steps ui pending alerts clock]. now rewrite N.add_0_r.
  - cbn [steps]. unfold step. cbn [ui pending alerts clock].
    destruct (soonest q) as [m|];
      [|cbn [ui pending alerts clock]; now rewrite N.add_0_r].
    destruct (takeDue m q) as [[t rest]|];
      [|cbn [ui pending alerts clock]; now rewrite N.add_0_r].
    unfold render. cbn [ui pending alerts clock].
    destruct (runEffects _ _ _ _) as [s1 q1].
    rewrite (IH s1 q1 al (clk + m)%N), (IH s1 q1 al (0 + m)%N). cbv zeta.
    cbn [ui pending alerts clock]. f_equal. lia.
Qed.

Lemma deal_runs (sc bj pa da : bool) (amount : Z) (g : Game)
    (ps ds : option Z) (al : list string) (clk : N) :
  let sb :=
    mkState sc (Some amount) false bj [] [] ps ds DEALING None pa da
      (Some (mockedGame amount g)) 0 0 in
  let Wb := mkWorld sb dealTimers al clk in
  ui (steps 16 Wb)
  = mkState sc (Some amount) false true
      [mkCard "A" "hearts/heart" false; mkCard "K" "spades/spade" false]
      [mkCard "10" "diamonds/diamond" false; mkCard "7" "clubs/club" true]
      (Some 21) (Some (Number "10")) PLAYER_TURN None pa da
      (Some (mockedGame amount g)) 0 0
  /\ pending (steps 16 Wb) = [(1450%N, BlackjackOff)]
  /\ clock (steps 16 Wb) = (clk + 3200)%N
  /\ forall m,
       (m < 16)%nat ->
       stage (ui (steps m Wb)) = DEALING /\ result (ui (steps m Wb)) = None.
Proof.
  cbv zeta. split; [|split; [|split]].
  - vm_compute. reflexivity.
  - vm_compute. reflexivity.
  - rewrite steps_clock. cbv zeta. cbn [clock].
    apply (f_equal (N.add clk)). vm_compute. reflexivity.
  - intros m Hm.
    do 16 (destruct m as [|m]; [vm_compute; split; reflexivity|]). lia.
Qed.

Lemma cancel_app (kind : Task -> bool) (q q' : list (N * Task)) :
  cancel kind (q ++ q') = cancel kind q ++ cancel kind q'.
Proof. apply filter_app. Qed.

Lemma inert_cancelled (q : list (N * Task)) :
  chainPart q = [] ->
  cancel isBlackjackOff (cancel isDealerScoreTimer (cancel isPlayerScoreTimer q))
  = [].
Proof.
  unfold chainPart, cancel. induction q as [|[d t] q IH]; [reflexivity|].
  cbn [filter map snd]. intros H.
  destruct t; cbn [inert negb isPlayerScoreTimer isDealerScoreTimer
                   isBlackjackOff filter map snd] in *;
    first [discriminate H | now apply IH].
Qed.

Lemma soonest_least (q : list (N * Task)) (m d : N) (t : Task) :
  soonest q = Some m -> In (d, t) q -> (m <= d)%N.
Proof.
  revert m. induction q as [|[d0 t0] q IH]; intros m Hm Hin; [destruct Hin|].
  cbn [soonest] in Hm. destruct Hin as [Heq|Hin].
  - injection Heq as -> ->. destruct (soonest q); injection Hm as <-; lia.
  - destruct (soonest q) as [m0|] eqn:E.
    + injection Hm as <-. specialize (IH m0 eq_refl Hin). lia.
    + destruct q as [|[d1 t1] q]; [destruct Hin|].
      cbn [soonest] in E. destruct (soonest q); discriminate E.
Qed.

Lemma chainPart_inert (q : list (N * Task)) (d : N) (t : Task) :
  chainPart q = [] -> In (d, t) q -> inert t = true.
Proof.
  unfold chainPart. induction q as [|[d0 t0] q IH]; intros H Hin;
    [destruct Hin|].
  cbn [filter map snd] in H. destruct (inert t0) eqn:E; cbn [negb] in H.
  - destruct Hin as [Heq|Hin]; [|now apply IH].
    inversion Heq; subst. exact E.
  - discriminate H.
Qed.

(** A live task started with delay [d] runs [d] ms later, whatever inert
    timers fire before it. *)
Lemma live_task_fires_at (len : nat) :
  forall (w : World) (c : Task) (d : N) (g0 : Game),
    List.length (pending w) = len ->
    chainPart (pending w) = [c] ->
    In (d, c) (pending w) ->
    stage (ui w) <> PLAYER_TURN ->
    game (ui w) = Some g0 ->
    exists n w0,
      core (ui w0) = core (ui w)
      /\ chainPart (pending w0) = []
      /\ alerts w0 = alerts w
      /\ clock w0 = (clock w + d)%N
      /\ steps (S n) w = render (runTask c (ui w0)) w0
      /\ forall m, (m <= n)%nat -> core (ui (steps m w)) = core (ui w).
Proof.
  induction len as [|len IH]; intros w c d g0 Hlen Hchain Hin Hstage Hgame.
  - destruct (pending w); [discriminate Hchain | discriminate Hlen].
  - assert (Hne : pending w <> []) by (intros E; rewrite E in Hlen; discriminate).
    destruct (soonest_nonempty _ Hne) as [m Hm].
    destruct (soonest_takeDue _ _ Hm) as (t & rest & Htake).
    pose proof (soonest_least _ _ _ _ Hm Hin) as Hle.
    assert (Hstep : step w
                    = Some (render (runTask t (ui w))
                              (mkWorld (ui w) (elapse m rest) (alerts w)
                                 (clock w + m)%N)))
      by (unfold step; now rewrite Hm, Htake).
    destruct (takeDue_split _ _ _ _ Htake) as (pre & post & Hq & Hrest).
    assert (Hlive : inert c = false).
    { destruct (inert c) eqn:E; [|reflexivity].
      assert (Hc : In c (chainPart (pending w))) by (rewrite Hchain; now left).
      unfold chainPart in Hc. apply in_map_iff in Hc.
      destruct Hc as ([d1 c1] & Hc1 & Hc2). cbn [snd] in Hc1. subst c1.
      apply filter_In in Hc2. destruct Hc2 as [_ Hc2]. cbn [snd] in Hc2.
      rewrite E in Hc2. discriminate. }
    destruct (takeDue_chain _ _ _ _ _ Htake Hchain)
      as [[Hinert Hrest'] | [-> Hrest']].
    + destruct (inert_fires t (ui w) g0
                  (mkWorld (ui w) (elapse m rest) (alerts w) (clock w + m)%N)
                  Hinert Hstage Hgame eq_refl) as (s1 & Hrender & Hcore).
      cbn [pending alerts clock] in Hrender.
      destruct (core_fields _ _ Hcore)
        as (_ & _ & _ & _ & Hst & _ & _ & _ & Hg & _ & _).
      assert (Hin' : In ((d - m)%N, c) (elapse m rest)).
      { unfold elapse. apply in_map_iff. exists (d, c). split; [reflexivity|].
        rewrite Hrest. rewrite Hq in Hin. apply in_app_or in Hin.
        apply in_or_app. destruct Hin as [Hin|[Heq|Hin]];
          [now left | | now right].
        injection Heq as _ ->. rewrite Hinert in Hlive. discriminate. }
      destruct (IH (mkWorld s1 (elapse m rest) (alerts w) (clock w + m)%N)
                  c (d - m)%N g0) as (n & w0 & H1 & H2 & H3 & Hclk & H4 & H5).
      * cbn [pending]. unfold elapse. rewrite length_map.
        apply takeDue_length in Htake. lia.
      * cbn [pending]. now rewrite chainPart_elapse.
      * exact Hin'.
      * cbn [ui]. now rewrite Hst.
      * cbn [ui]. now rewrite Hg.
      * exists (S n), w0. cbn [ui alerts clock] in *.
        split; [congruence|]. split; [exact H2|]. split; [exact H3|].
        split; [lia|]. split.
        -- change (steps (S (S n)) w)
             with (match step w with
                   | Some w' => steps (S n) w'
                   | None => w
                   end).
           rewrite Hstep, Hrender. exact H4.
        -- intros [|k] Hk; [reflexivity|]. cbn [steps].
           rewrite Hstep, Hrender. rewrite H5 by lia. exact Hcore.
    + exists O, (mkWorld (ui w) (elapse m rest) (alerts w) (clock w + m)%N).
      cbn [ui pending alerts clock].
      split; [reflexivity|]. split; [now rewrite chainPart_elapse|].
      split; [reflexivity|]. split.
      * assert (Hpre : chainPart pre = [] /\ chainPart post = []).
        { rewrite Hq, chainPart_app, chainPart_cons, Hlive in Hchain.
          destruct (chainPart pre); [|now destruct l].
          cbn [app] in Hchain. injection Hchain as Hpost. now split. }
        destruct Hpre as [Hpre Hpost].
        rewrite Hq in Hin. apply in_app_or in Hin.
        destruct Hin as [Hin|[Heq|Hin]].
        -- apply (chainPart_inert _ _ _ Hpre) in Hin. congruence.
        -- now injection Heq as ->.
        -- apply (chainPart_inert _ _ _ Hpost) in Hin. congruence.
      * split; [cbn [steps]; now rewrite Hstep|].
        intros k Hk. replace k with O by lia. reflexivity.
Qed.

(** X13. A bet accepted with only score and blackjack timers pending,
    whatever the amount and the chips: the stage is DEALING and the bet is
    recorded with the chips untouched; no result and no other stage comes
    before the end of the deal; 3850 ms after the click the round is in
    PLAYER_TURN with the ace and the king face up, the dealer's ten face up
    and seven face down, the scores at 21 and 10, the blackjack flag up and
    its timer 1450 ms from firing. *)
Theorem bet_deals_the_round (w : World) (g : Game) (amount : Z) :
  chainPart (pending w) = [] ->
  game (ui w) = Some g ->
  isBetting (ui w) = false ->
  isTruthy (selectedBet (ui w)) = false ->
  let W := click (ClickBet amount) w in
  (stage (ui W) = DEALING
   /\ isBetting (ui W) = true
   /\ selectedBet (ui W) = Some amount
   /\ result (ui W) = None
   /\ game (ui W)
      = Some (mkGame (id g) BET
                (mkPlayer (chips (player g)) (cards (player g)) amount)
                (dealer g)))
  /\ exists n,
       (forall m,
           (m < n)%nat ->
           stage (ui (steps m W)) = DEALING
           /\ result (ui (steps m W)) = None)
       /\ ui (steps n W)
          = mkState (showChips (ui w)) (Some amount) false true
              [mkCard "A" "hearts/heart" false; mkCard "K" "spades/spade" false]
              [mkCard "10" "diamonds/diamond" false;
               mkCard "7" "clubs/club" true]
              (Some 21) (Some 10) PLAYER_TURN None
              (isPlayerActing (ui w)) (isDealerActing (ui w))
              (Some (mockedGame amount g)) 0 0
       /\ pending (steps n W) = [(1450%N, BlackjackOff)]
       /\ clock (steps n W) = (clock w + 3850)%N.
Proof.
  intros Hq Hgame Hbet Hsel W.
  set (s := ui w) in *.
  set (sBet :=
         setGame (Some (withStatus BET (withBet amount g)))
           (setDealerDrawIndexRef 0
              (setPlayerDrawIndexRef 0
                 (setResult None
                    (setStage DEALING
                       (setSelectedBet (Some amount)
                          (setIsBetting true s))))))).
  assert (HW : W = mkWorld sBet (pending w ++ [(650%N, BetDeal amount g)])
                     (alerts w) (clock w)).
  { subst W. unfold click. cbn [handle]. unfold handleBet. fold s.
    rewrite Hgame, Hbet, Hsel. cbn [orb].
    rewrite (render_quiet _ _ (withStatus BET (withBet amount g)));
      [reflexivity | cbn; discriminate | reflexivity | reflexivity]. }
  split; [rewrite HW; cbn; repeat split|].
  destruct (live_task_fires_at (List.length (pending W)) W (BetDeal amount g)
              650%N (withStatus BET (withBet amount g)) eq_refl)
    as (n & w0 & Hcore & Hq0 & Hal & Hclk & Hrun & Hbefore).
  { rewrite HW. cbn [pending]. rewrite chainPart_app, Hq. reflexivity. }
  { rewrite HW. cbn [pending]. apply in_or_app. right. now left. }
  { rewrite HW. cbn. discriminate. }
  { rewrite HW. reflexivity. }
  rewrite HW in Hcore. cbn [ui] in Hcore.
  destruct (ui w0) as [sc0 sb0 ib0 bj0 pc0 dc0 ps0 ds0 st0 r0 pa0 da0 g0 pi0 di0]
    eqn:Hui0.
  unfold core in Hcore. subst sBet. cbn in Hcore.
  injection Hcore as -> -> -> -> -> -> -> -> -> -> -> ->.
  (* the mocked reply arrives *)
  assert (Hb : steps (S n) W
               = mkWorld
                   (mkState (showChips s) (Some amount) false bj0 [] [] ps0 ds0
                      DEALING None (isPlayerActing s) (isDealerActing s)
                      (Some (mockedGame amount g)) 0 0)
                   dealTimers (alerts w0) (clock w0)).
  { rewrite Hrun. cbn [runTask]. unfold betDeal.
    rewrite (render_settled _ _ (mockedGame amount g));
      [| reflexivity | reflexivity].
    unfold blackjackSignal.
    cbn [next touchedPlayer touchedDealer spawned andb playerCards dealerCards
         setIsBetting setDealerCards setPlayerCards setGame nth cards player
         dealerHand dealer revealed filter List.length Nat.eqb].
    rewrite !cancel_app.
    rewrite (inert_cancelled _ Hq0). reflexivity. }
  exists (S n + 16)%nat. 
  pose proof (deal_runs (showChips s) bj0 (isPlayerActing s) (isDealerActing s)
                amount g ps0 ds0 (alerts w0) (clock w0)) as Hdeal.
  cbv zeta in Hdeal. rewrite <- Hb in Hdeal.
  destruct Hdeal as (Hend & Hpend & Hclock & Hduring).
  split; [|split; [|split]].
  - intros m Hm. destruct (Nat.le_gt_cases m n) as [Hle|Hgt].
    + specialize (Hbefore m Hle). rewrite HW in Hbefore. cbn [ui] in Hbefore.
      destruct (core_fields _ _ Hbefore)
        as (F1 & F2 & F3 & F4 & F5 & F6 & F7 & F8 & F9 & F10 & F11).
      rewrite <- HW in F5, F6. rewrite F5, F6. split; reflexivity.
    + rewrite (steps_succ_add n m W) by lia.
      apply Hduring. lia.
  - rewrite steps_add, Hend.
    rewrite (Number_decimal "10" 10); [reflexivity | reflexivity | reflexivity].
  - rewrite steps_add. exact Hpend.
  - rewrite steps_add, Hclock, Hclk, HW. cbn [clock]. lia.
Qed.

(** ** The total of the dealer *)

Lemma dealerCardAt_points (idx : nat) :
  isCardRank (rank (dealerCardAt idx)) = true
  /\ isAce (rank (dealerCardAt idx)) = false
  /\ 2 <= specPoints (rank (dealerCardAt idx)) <= 9.
Proof.
  unfold dealerCardAt.
  assert (H : (idx mod List.length mockDealerDeck < 5)%nat)
    by (apply Nat.mod_upper_bound; discriminate).
  destruct (idx mod List.length mockDealerDeck)%nat as [|[|[|[|[|n]]]]];
    try lia; vm_compute; repeat split; discriminate.
Qed.

(** One pass of the dealer's loop adds between 2 and 9 points, or takes
    off up to 8 when an ace falls back to 1. *)
Lemma dealerRevalue_bounds (l : list UICard) (idx : nat) :
  cardHand l ->
  let dv := orElse (calculateHandValue l) 0 in
  let dv' := dealerRevalue l dv idx in
  dv' = orElse (calculateHandValue (dealerDraw l idx)) 0
  /\ dv - 8 <= dv' <= dv + 9.
Proof.
  intros Hl. cbv zeta. unfold dealerRevalue. rewrite dealerDraw_app.
  destruct (dealerCardAt_points idx) as (Hrank & Hace & Hpts).
  set (c := faceUp (dealerCardAt idx)).
  assert (Hc : isCardRank (rank c) = true /\ isFaceDown c = false
               /\ isAce (rank c) = false /\ 2 <= specPoints (rank c) <= 9)
    by (subst c; cbn [faceUp rank isFaceDown]; now repeat split).
  destruct Hc as (Hcr & Hup & Hca & Hcp).
  destruct (calculateHandValue l) as [v|] eqn:Hv.
  - destruct (calculateHandValue_snoc l c v Hl Hcr Hup Hv)
      as (v' & Hv' & Hb & _).
    rewrite Hca in Hb. rewrite Hv'. cbn [orElse]. split; [reflexivity|lia].
  - assert (Hrev : revealed l = []).
    { rewrite (calculateHandValue_total l Hl) in Hv.
      now destruct (revealed l). }
    assert (Hhand : cardHand (l ++ [c])).
    { unfold cardHand. rewrite revealed_app, Hrev. cbn [app revealed filter].
      rewrite Hup. cbn [negb]. constructor; [exact Hcr|constructor]. }
    rewrite (calculateHandValue_total _ Hhand), revealed_app, Hrev.
    cbn [app revealed filter]. rewrite Hup. cbn [negb map orElse].
    unfold countAces, sumNonAces. cbn [filter fold_right]. rewrite Hca.
    cbn [List.length handTotal]. split; [reflexivity|lia].
Qed.

Lemma dealerAutoPlay_bounds (fuel : nat) :
  forall (l : list UICard) (idx : nat) (l' : list UICard) (v : Z) (idx' : nat),
    cardHand l ->
    dealerAutoPlay fuel l (orElse (calculateHandValue l) 0) idx
    = Some (l', v, idx') ->
    17 <= v
    /\ v = orElse (calculateHandValue l') 0
    /\ exists k,
         l' = dealerHandAfter k l idx /\ idx' = (idx + k)%nat
         /\ (k <= fuel)%nat
         /\ (k = O \/ v <= 25).
Proof.
  induction fuel as [|fuel IH]; intros l idx l' v idx' Hl H;
    cbn [dealerAutoPlay] in H;
    destruct (orElse (calculateHandValue l) 0 <? 17) eqn:E.
  - discriminate.
  - injection H as <- <- <-. apply Z.ltb_ge in E.
    split; [exact E|]. split; [reflexivity|].
    exists O. cbn [dealerHandAfter]. rewrite Nat.add_0_r.
    repeat split; try reflexivity; try lia; now left.
  - apply Z.ltb_lt in E.
    destruct (dealerRevalue_bounds l idx Hl) as [Hdv Hb]. cbv zeta in Hdv, Hb.
    destruct (cardHand_dealerDraw l idx Hl) as (Hl1 & _ & _).
    rewrite Hdv in H.
    destruct (IH _ _ _ _ _ Hl1 H) as (Hv & Hval & k & -> & -> & Hk & Hbound).
    split; [exact Hv|]. split; [exact Hval|].
    exists (S k). cbn [dealerHandAfter].
    repeat split; try reflexivity; try lia; right.
    destruct Hbound as [-> | Hle]; [|exact Hle].
    cbn [dealerHandAfter] in Hval. rewrite Hval, <- Hdv. lia.
  - injection H as <- <- <-. apply Z.ltb_ge in E.
    split; [exact E|]. split; [reflexivity|].
    exists O. cbn [dealerHandAfter]. rewrite Nat.add_0_r.
    repeat split; try reflexivity; try lia; now left.
Qed.

(** X14. The dealer's loop, started on the value of the hand: whenever it
    returns, the total is at least 17 and is the value of the hand
    returned, which is the first hand plus the next cards of the deck; and
    unless no card was drawn the total is at most 25. *)
Theorem dealer_stops_between_17_and_25 (fuel : nat) (l : list UICard)
    (idx : nat) (l' : list UICard) (v : Z) (idx' : nat) :
  cardHand l ->
  dealerAutoPlay fuel l (orElse (calculateHandValue l) 0) idx
  = Some (l', v, idx') ->
  17 <= v
  /\ v = orElse (calculateHandValue l') 0
  /\ exists k,
       l' = dealerHandAfter k l idx /\ idx' = (idx + k)%nat
       /\ (k = O \/ v <= 25).
Proof.
  intros Hl H.
  destruct (dealerAutoPlay_bounds fuel l idx l' v idx' Hl H)
    as (Hv & Hval & k & Hl' & Hidx & _ & Hb).
  split; [exact Hv|]. split; [exact Hval|]. now exists k.
Qed.

(** ** One bet per round *)

Lemma bustEffect_selectedBet (s : State) :
  selectedBet (bustEffect s) = selectedBet s.
Proof.
  unfold bustEffect. destruct (bustEnabled s); [|reflexivity].
  now destruct (game s).
Qed.

Lemma render_selectedBet (u : Update) (w : World) :
  selectedBet (ui (render u w)) = selectedBet (next u).
Proof.
  unfold render, runEffects. cbn [ui].
  pose proof (bustEffect_selectedBet (next u)) as H.
  destruct (game (next u)), (touchedPlayer u && blackjackSignal (next u))%bool;
    cbn; exact H.
Qed.

Lemma runTask_selectedBet (t : Task) (s : State) :
  selectedBet (next (runTask t s)) = selectedBet s.
Proof.
  destruct t; cbn [runTask]; unfold betDeal, runDealerTurn, dealerLoop,
    drawNextDealerCard;
    try match goal with
        | |- context [if ?b then _ else _] => destruct b
        end; reflexivity.
Qed.

Lemma step_selectedBet (w w' : World) :
  step w = Some w' -> selectedBet (ui w') = selectedBet (ui w).
Proof.
  unfold step. destruct (soonest (pending w)) as [m|]; [|discriminate].
  destruct (takeDue m (pending w)) as [[t rest]|]; [|discriminate].
  intros H. injection H as <-.
  now rewrite render_selectedBet, runTask_selectedBet.
Qed.

Lemma wait_selectedBet (fuel : nat) :
  forall (d : N) (w w' : World),
    wait fuel d w = Some w' -> selectedBet (ui w') = selectedBet (ui w).
Proof.
  induction fuel as [|fuel IH]; intros d w w' H; cbn [wait] in H.
  - destruct (soonest (pending w)) as [m|];
      [destruct (m <=? d)%N; [discriminate|]|]; now injection H as <-.
  - destruct (soonest (pending w)) as [m|]; [|now injection H as <-].
    destruct (m <=? d)%N; [|now injection H as <-].
    destruct (step w) as [w1|] eqn:E; [|discriminate].
    rewrite (IH _ _ _ H). now apply step_selectedBet.
Qed.

Lemma click_keeps_bet (e : UserEvent) (w : World) :
  e <> ClickReset ->
  isTruthy (selectedBet (ui w)) = true ->
  isTruthy (selectedBet (ui (click e w))) = true.
Proof.
  intros He Hsel. unfold click.
  destruct (handle e (ui w)) as [|message|u] eqn:E; try exact Hsel.
  rewrite render_selectedBet.
  destruct e; cbn [handle] in E.
  - injection E as <-. exact Hsel.
  - unfold handleBet in E. destruct (game (ui w)); [|discriminate].
    rewrite Hsel, orb_true_r in E. discriminate.
  - unfold handleHit in E. destruct (actionBlocked (ui w)); [discriminate|].
    unfold drawNextPlayerCard in E. injection E as <-. exact Hsel.
  - unfold handleDouble in E. destruct (actionBlocked (ui w)); [discriminate|].
    destruct (game (ui w)) as [g|]; [|discriminate].
    destruct (negb _); [discriminate|].
    destruct (currentBet g (selectedBet (ui w)) * 2 >? chips (player g));
      [discriminate|].
    unfold drawNextPlayerCard in E. injection E as <-.
    cbn [next selectedBet setPlayerCards setPlayerDrawIndexRef setSelectedBet
         isTruthy].
    unfold currentBet. rewrite Hsel.
    destruct (bet (player g) =? 0) eqn:Eb.
    + destruct (selectedBet (ui w)) as [v|]; [|discriminate Hsel].
      cbn [isTruthy orElse] in *. apply negb_true_iff, Z.eqb_neq in Hsel.
      apply negb_true_iff, Z.eqb_neq. lia.
    + apply Z.eqb_neq in Eb. apply negb_true_iff, Z.eqb_neq. lia.
  - unfold handleStand in E. destruct (actionBlocked (ui w)); [discriminate|].
    injection E as <-. exact Hsel.
  - now destruct He.
Qed.

(** X15. One bet per round: once a bet other than 0 is selected, no timer
    and no click but reset clears it (a double replaces it by twice the
    bet), so every further bet is ignored and changes nothing until the
    round is reset. *)
Theorem one_bet_per_round (w w' : World) (amount : Z) :
  isTruthy (selectedBet (ui w)) = true ->
  roundGoesOn w w' ->
  isTruthy (selectedBet (ui w')) = true
  /\ handleBet amount (ui w') = Ignored
  /\ click (ClickBet amount) w' = w'.
Proof.
  intros Hsel Hgo.
  assert (H : isTruthy (selectedBet (ui w')) = true).
  { induction Hgo as [|e w' _ IH He|w' w'' _ IH Hstep|fuel d w' w'' _ IH Hwait].
    - exact Hsel.
    - now apply click_keeps_bet.
    - now rewrite (step_selectedBet _ _ Hstep).
    - now rewrite (wait_selectedBet _ _ _ _ Hwait). }
  split; [exact H|].
  assert (Hbet : handleBet amount (ui w') = Ignored).
  { unfold handleBet. destruct (game (ui w')); [|reflexivity].
    now rewrite H, orb_true_r. }
  split; [exact Hbet|]. unfold click. cbn [handle]. now rewrite Hbet.
Qed.

(** ** The busy flags *)

Lemma owed_app (b : Busy) (q q' : list (N * Task)) :
  owed b (q ++ q') = owed b q || owed b q'.
Proof. apply existsb_app. Qed.

Lemma owed_elapse (b : Busy) (m : N) (q : list (N * Task)) :
  owed b (elapse m q) = owed b q.
Proof.
  unfold owed, elapse. induction q as [|e q IH]; [reflexivity|].
  cbn [map existsb snd]. now rewrite IH.
Qed.

Lemma owed_cancel (b : Busy) (kind : Task -> bool) (q : list (N * Task)) :
  (forall t, kind t = true -> lowers b t = false) ->
  owed b (cancel kind q) = owed b q.
Proof.
  intros H. unfold owed, cancel. induction q as [|e q IH]; [reflexivity|].
  cbn [filter existsb]. destruct (kind (snd e)) eqn:E; cbn [negb existsb].
  - rewrite (H _ E). exact IH.
  - now rewrite IH.
Qed.

Lemma bustEffect_flags (b : Busy) (s : State) :
  flagOf b (bustEffect s) = flagOf b s.
Proof.
  unfold bustEffect. destruct (bustEnabled s); [|reflexivity].
  destruct (game s), b; reflexivity.
Qed.

(** A render keeps the flags of its update and every continuation that
    lowers one. *)
Lemma render_flags (b : Busy) (u : Update) (w : World) :
  flagOf b (ui (render u w)) = flagOf b (next u)
  /\ owed b (pending (render u w)) = owed b (pending w) || owed b (spawned u).
Proof.
  split.
  - unfold render, runEffects. cbn [ui].
    pose proof (bustEffect_flags b (next u)) as H.
    destruct (game (next u)),
      (touchedPlayer u && blackjackSignal (next u))%bool, b; cbn; exact H.
  - unfold render, runEffects. cbn [pending].
    destruct (touchedPlayer u), (touchedDealer u),
      (blackjackSignal (next u)); cbn [andb];
      repeat first
        [ rewrite owed_app
        | rewrite owed_cancel
            by (intros [] Ht; first [discriminate Ht | now destruct b]) ];
      cbn [owed existsb snd]; destruct b; cbn [lowers];
      rewrite ?orb_false_r; reflexivity.
Qed.

Lemma handle_flags (b : Busy) (e : UserEvent) (s : State) (u : Update) :
  handle e s = Rendered u ->
  flagOf b (next u) = true ->
  owed b (spawned u) = true \/ flagOf b s = true.
Proof.
  intros H Hflag. destruct e; cbn [handle] in H.
  - injection H as <-. right. now destruct b.
  - unfold handleBet in H. destruct (game s); [|discriminate].
    destruct (isBetting s || isTruthy (selectedBet s)); [discriminate|].
    injection H as <-. destruct b; [now left|now right|now right].
  - unfold handleHit in H. destruct (actionBlocked s); [discriminate|].
    unfold drawNextPlayerCard in H. injection H as <-.
    destruct b; [now right|now left|now right].
  - unfold handleDouble in H. destruct (actionBlocked s); [discriminate|].
    destruct (game s); [|discriminate].
    destruct (negb _); [discriminate|].
    destruct (currentBet _ _ * 2 >? _); [discriminate|].
    unfold drawNextPlayerCard in H. injection H as <-.
    destruct b; [now right|now left|now right].
  - unfold handleStand in H. destruct (actionBlocked s); [discriminate|].
    injection H as <-. destruct b; [now right|now right|now left].
  - unfold handleReset in H. injection H as <-.
    destruct (game s), b; discriminate Hflag.
Qed.

Lemma runTask_flags (b : Busy) (t : Task) (s : State) :
  flagOf b (next (runTask t s)) = true ->
  owed b (spawned (runTask t s)) = true
  \/ (flagOf b s = true /\ lowers b t = false).
Proof.
  destruct t; cbn [runTask]; unfold betDeal, runDealerTurn, dealerLoop,
    drawNextDealerCard;
    try match goal with
        | |- context [if ?c then _ else _] => destruct c
        end;
    destruct b; cbn; intros H;
    first [ discriminate H | now left | right; now split ].
Qed.

Lemma owed_takeDue (b : Busy) (m : N) (q : list (N * Task)) (t : Task)
    (rest : list (N * Task)) :
  takeDue m q = Some (t, rest) ->
  lowers b t = false ->
  owed b rest = owed b q.
Proof.
  intros H Ht. destruct (takeDue_split _ _ _ _ H) as (pre & post & -> & ->).
  rewrite !owed_app. cbn [owed existsb snd]. now rewrite Ht.
Qed.

Lemma reachable_owed (b : Busy) (w : World) :
  reachable w -> flagOf b (ui w) = true -> owed b (pending w) = true.
Proof.
  revert w. apply (reachable_invariant
                     (fun w => flagOf b (ui w) = true -> owed b (pending w) = true)).
  - destruct b; discriminate.
  - intros e w u Hw H. destruct (render_flags b u w) as [-> ->].
    intros Hflag. destruct (handle_flags b e (ui w) u H Hflag) as [Hs|Hf].
    + now rewrite Hs, orb_true_r.
    + now rewrite (Hw Hf).
  - intros w message Hw. exact Hw.
  - intros w m t rest Hw H.
    destruct (render_flags b (runTask t (ui w))
                (mkWorld (ui w) (elapse m rest) (alerts w) (clock w + m)%N))
      as [-> ->].
    cbn [pending]. rewrite owed_elapse. intros Hflag.
    destruct (runTask_flags b t (ui w) Hflag) as [Hs|[Hf Ht]].
    + now rewrite Hs, orb_true_r.
    + now rewrite (owed_takeDue b m _ t rest H Ht), (Hw Hf).
  - intros w d Hw. cbn [ui pending]. now rewrite owed_elapse.
Qed.

(** X17. No busy flag sticks: in every world the page can reach, a flag
    that is up (betting, player acting, dealer acting) has a continuation
    pending that lowers it or hands it on; so once only score and
    blackjack timers are pending, all three flags are down. *)
Theorem busy_flags_are_owed (w : World) :
  reachable w ->
  (isBetting (ui w) = true -> owed Betting (pending w) = true)
  /\ (isPlayerActing (ui w) = true -> owed PlayerActing (pending w) = true)
  /\ (isDealerActing (ui w) = true -> owed DealerActing (pending w) = true)
  /\ (chainPart (pending w) = [] ->
      isBetting (ui w) = false /\ isPlayerActing (ui w) = false
      /\ isDealerActing (ui w) = false).
Proof.
  intros Hw.
  pose proof (reachable_owed Betting w Hw) as Hb.
  pose proof (reachable_owed PlayerActing w Hw) as Hp.
  pose proof (reachable_owed DealerActing w Hw) as Hd.
  cbn [flagOf] in Hb, Hp, Hd.
  split; [exact Hb|]. split; [exact Hp|]. split; [exact Hd|].
  intros Hq.
  assert (Hnone : forall b, owed b (pending w) = false).
  { intros b. unfold owed. apply not_true_is_false. intros H.
    apply existsb_exists in H. destruct H as ([d t] & Hin & Ht).
    pose proof (chainPart_inert _ _ _ Hq Hin) as Hi. cbn [snd] in Ht.
    destruct b, t; discriminate. }
  repeat split.
  - destruct (isBetting (ui w)); [|reflexivity].
    specialize (Hb eq_refl). now rewrite Hnone in Hb.
  - destruct (isPlayerActing (ui w)); [|reflexivity].
    specialize (Hp eq_refl). now rewrite Hnone in Hp.
  - destruct (isDealerActing (ui w)); [|reflexivity].
    specialize (Hd eq_refl). now rewrite Hnone in Hd.
Qed.

(** ** Reset, then the next bet *)

(** X16. After a reset a bet is always accepted: in every world the page
    can reach, a click on reset leaves a state in which [handleBet] acts
    for any amount, going to DEALING with the chips carried over. *)
Theorem reset_then_bet (w : World) (amount : Z) :
  reachable w ->
  exists g u,
    game (ui w) = Some g
    /\ handleBet amount (ui (click ClickReset w)) = Rendered u
    /\ stage (next u) = DEALING
    /\ selectedBet (next u) = Some amount
    /\ game (next u)
       = Some (mkGame (id g) BET
                 (mkPlayer (chips (player g)) (cards (player g)) amount)
                 (dealer g)).
Proof.
  intros Hw. destruct (reachable_sound w Hw) as [((g & Hg & _) & _) _].
  exists g. unfold click. cbn [handle]. unfold handleReset. rewrite Hg.
  rewrite (render_settled _ _ (withStatus NEW (withBet 0 g)));
    [| reflexivity | reflexivity].
  cbn [next touchedPlayer touchedDealer andb ui].
  unfold blackjackSignal, handleBet. cbn.
  eexists. repeat split.
Qed.

End Coverage.

(** * The further properties at concrete inputs *)

Lemma dealt_reachable : reachable dealt.
Proof.
  assert (E : wait 100 3850 (click (ClickBet 100) (click ClickStart mount))
              = Some dealt) by (vm_compute; reflexivity).
  exact (reach_wait 100 3850 _ _
           (reach_click _ _ (reach_click _ _ reach_mount)) E).
Qed.

Lemma bustHand_cards : cardHand bustHand.
Proof.
  vm_compute. repeat constructor.
Qed.

Lemma Card_of_parsed_witness :
  In "♠" suitSymbols
  /\ exists img,
       Card "K" "spades/spade" large = Some img
       /\ src img = "/cards/spades/K_spade.png".
Proof.
  assert (H : In "♠" suitSymbols) by (cbn; tauto).
  split; [exact H|].
  destruct (Card_of_parsed "K" "♠" true large H) as [_ (img & Himg & Hsrc & _)].
  exists img. split; [exact Himg | exact Hsrc].
Defined.

Lemma bust_stays_bust_witness :
  cardHand bustHand
  /\ calculateHandValue bustHand = Some 24
  /\ exists v',
       calculateHandValue (bustHand ++ [tenOfSpades]) = Some v' /\ 24 < v'.
Proof.
  assert (H : calculateHandValue bustHand = Some 24) by reflexivity.
  split; [exact bustHand_cards|]. split; [exact H|].
  destruct (bust_stays_bust bustHand tenOfSpades 24 bustHand_cards eq_refl
              eq_refl H) as (v' & Hv' & _ & Hb).
  exists v'. split; [exact Hv'|]. apply Hb. lia.
Defined.

Lemma blackjack_signal_witness :
  cardHand (playerCards (ui dealt))
  /\ blackjackSignal (ui dealt) = true.
Proof.
  assert (H : cardHand (playerCards (ui dealt)))
    by (vm_compute; repeat constructor).
  split; [exact H|].
  apply (proj1 (blackjack_signal (ui dealt) H)).
  exists (mkCard "A" "hearts/heart" false), (mkCard "K" "spades/spade" false).
  split; [reflexivity|]. left. split; [reflexivity|]. cbn. tauto.
Defined.

Lemma table_cards_are_deck_cards_witness :
  reachable dealt
  /\ In (mkCard "7" "clubs/club" true) (dealerCards (ui dealt))
  /\ isCardRank "7" = true.
Proof.
  assert (Hin : In (mkCard "7" "clubs/club" true) (dealerCards (ui dealt)))
    by (vm_compute; tauto).
  split; [exact dealt_reachable|]. split; [exact Hin|].
  exact (proj1 (table_cards_are_deck_cards dealt dealt_reachable _
                  (or_intror Hin))).
Defined.

Lemma store_keeps_house_game_witness :
  reachable dealt
  /\ exists g, game (ui dealt) = Some g /\ id g = 1.
Proof.
  split; [exact dealt_reachable|].
  destruct (store_keeps_house_game dealt dealt_reachable)
    as (g & Hg & Hid & _).
  exists g. split; [exact Hg | exact Hid].
Defined.

Lemma score_cells_follow_hands_witness :
  reachable dealt
  /\ scoreTimers playerSide (pending dealt) = []
  /\ playerScore (ui dealt) = calculateHandValue (playerCards (ui dealt)).
Proof.
  assert (H : scoreTimers playerSide (pending dealt) = [])
    by (vm_compute; reflexivity).
  split; [exact dealt_reachable|]. split; [exact H|].
  destruct (score_cells_follow_hands dealt dealt_reachable)
    as (_ & _ & Hp & _).
  exact (Hp H).
Defined.

Lemma dealt_hit_ready :
  playerTimers (pending dealt)
  /\ actionBlocked (ui dealt) = false
  /\ bustEnabled (ui dealt) = false
  /\ result (ui dealt) = None
  /\ game (ui dealt) = Some dealtGame
  /\ forall v, calculateHandValue (playerCards (ui dealt)) = Some v -> v <= 21.
Proof.
  vm_compute. repeat split; try reflexivity.
  - repeat constructor.
  - intros v H. injection H as <-. discriminate.
Qed.

Lemma hit_draws_one_card_witness :
  (playerTimers (pending dealt)
   /\ actionBlocked (ui dealt) = false
   /\ bustEnabled (ui dealt) = false
   /\ result (ui dealt) = None
   /\ game (ui dealt) = Some dealtGame
   /\ forall v,
        calculateHandValue (playerCards (ui dealt)) = Some v -> v <= 21)
  /\ playerDrawIndexRef (ui (click ClickHit dealt)) = 1%nat.
Proof.
  split; [exact dealt_hit_ready|].
  destruct dealt_hit_ready as (H1 & H2 & H3 & H4 & H5 & H6).
  exact (proj1 (proj2 (proj1
           (hit_draws_one_card dealt dealtGame H1 H2 H3 H4 H5 H6)))).
Defined.

Lemma bet_deals_the_round_witness :
  (chainPart (pending mount) = []
   /\ game (ui mount) = Some initialGame
   /\ isBetting (ui mount) = false
   /\ isTruthy (selectedBet (ui mount)) = false)
  /\ stage (ui (click (ClickBet 100) mount)) = DEALING.
Proof.
  assert (H : chainPart (pending mount) = []
              /\ game (ui mount) = Some initialGame
              /\ isBetting (ui mount) = false
              /\ isTruthy (selectedBet (ui mount)) = false)
    by (vm_compute; repeat split; reflexivity).
  split; [exact H|].
  destruct H as (H1 & H2 & H3 & H4).
  exact (proj1 (proj1 (bet_deals_the_round mount initialGame 100 H1 H2 H3 H4))).
Defined.

Lemma drawingDealer_loop :
  cardHand (map faceUp drawingDealer)
  /\ dealerAutoPlay 9 (map faceUp drawingDealer)
       (orElse (calculateHandValue (map faceUp drawingDealer)) 0) 0
     = Some (dealerHandAfter 3 (map faceUp drawingDealer) 0, 25, 3%nat).
Proof.
  split; [vm_compute; repeat constructor | vm_compute; reflexivity].
Qed.

Lemma dealer_stops_between_17_and_25_witness :
  (cardHand (map faceUp drawingDealer)
   /\ dealerAutoPlay 9 (map faceUp drawingDealer)
        (orElse (calculateHandValue (map faceUp drawingDealer)) 0) 0
      = Some (dealerHandAfter 3 (map faceUp drawingDealer) 0, 25, 3%nat))
  /\ 25 = orElse
            (calculateHandValue
               (dealerHandAfter 3 (map faceUp drawingDealer) 0)) 0.
Proof.
  split; [exact drawingDealer_loop|].
  destruct drawingDealer_loop as [H1 H2].
  exact (proj1 (proj2
           (dealer_stops_between_17_and_25 9 _ 0 _ 25 3 H1 H2))).
Defined.

Lemma one_bet_per_round_witness :
  isTruthy (selectedBet (ui dealt)) = true
  /\ roundGoesOn dealt (click ClickHit dealt)
  /\ click (ClickBet 500) (click ClickHit dealt) = click ClickHit dealt.
Proof.
  assert (H1 : isTruthy (selectedBet (ui dealt)) = true) by reflexivity.
  assert (H2 : roundGoesOn dealt (click ClickHit dealt)).
  { apply goes_click; [apply goes_here|discriminate]. }
  split; [exact H1|]. split; [exact H2|].
  exact (proj2 (proj2 (one_bet_per_round dealt _ 500 H1 H2))).
Defined.

Lemma reset_then_bet_witness :
  reachable dealt
  /\ exists u, handleBet 500 (ui (click ClickReset dealt)) = Rendered u.
Proof.
  split; [exact dealt_reachable|].
  destruct (reset_then_bet dealt 500 dealt_reachable) as (g & u & _ & Hu & _).
  exists u. exact Hu.
Defined.

Lemma busy_flags_are_owed_witness :
  reachable (click ClickHit dealt)
  /\ isPlayerActing (ui (click ClickHit dealt)) = true
  /\ owed PlayerActing (pending (click ClickHit dealt)) = true.
Proof.
  assert (H : reachable (click ClickHit dealt))
    by (apply reach_click; exact dealt_reachable).
  assert (Hflag : isPlayerActing (ui (click ClickHit dealt)) = true)
    by reflexivity.
  split; [exact H|]. split; [exact Hflag|].
  exact (proj1 (proj2 (busy_flags_are_owed _ H)) Hflag).
Defined.
